(** * The github-grab pipeline (pipeline.py): a shallow embedding

    The pipeline is glue around a tracker, a fetcher and a file system.
    Each task of pipeline.py is embedded as a function that passes the
    state it touches explicitly (the file system, the class attributes
    of [ZstdDict], the counter of [CheckIP], the timer queue of the
    event loop) and returns either a value or the exception it raises.
    What the outside world answers (DNS, HTTP, the clock, the shuffle)
    is an argument of the function.

    A Python [str] is modelled as a [string] of 8-bit characters, a
    [bytes] object as a [list byte], an [int] as a [Z] and a reading of
    the clock as a rational.  [item.log_output] and [print] only write
    to a log and are left out. *)

From Stdlib Require Import ZArith QArith Ascii String List Permutation.
From Stdlib.Strings Require Import Byte.
From stdpp Require Import gmap strings list fin_maps.

Local Open Scope string_scope.
Local Open Scope list_scope.

(** ** Exceptions and results *)

Inductive exn : Type :=
  | KeyError (key : string)
  | AssertionError
  | AttributeError
  | ValueError (msg : string)
  | FileNotFoundError (path : string)
  | FileExistsError (path : string)
  | NotADirectoryError (path : string)
  | IsADirectoryError (path : string)
  | HTTPError (status : Z)
  | RequestException
  | JSONDecodeError
  | ZstdError
  | GaiError (host : string)
  | Exception (msg : string).

Inductive result (A : Type) : Type :=
  | Ok (a : A)
  | Raise (e : exn).
Arguments Ok {A} a.
Arguments Raise {A} e.

#[global] Instance result_ret : MRet result := @Ok.
#[global] Instance result_bind : MBind result := fun A B k r =>
  match r with
  | Ok a => k a
  | Raise e => Raise e
  end.

Definition raises {A} (r : result A) : Prop :=
  match r with Ok _ => False | Raise _ => True end.

Definition of_option {A} (e : exn) (o : option A) : result A :=
  match o with Some a => Ok a | None => Raise e end.

(** Code that changes a state of type [S] and may raise: the state
    comes back in both cases, as the steps before the exception left
    it. *)
Definition ST (S A : Type) : Type := S → result A * S.

#[global] Instance ST_ret {S} : MRet (ST S) := λ A a s, (Ok a, s).
#[global] Instance ST_bind {S} : MBind (ST S) := λ A B k m s,
  match m s with
  | (Ok a, s') => k a s'
  | (Raise e, s') => (Raise e, s')
  end.

Definition raise {S A} (e : exn) : ST S A := λ s, (Raise e, s).
Definition lift {S A} (r : result A) : ST S A := λ s, (r, s).

(** [assert b] *)
Definition assert {S} (b : bool) : ST S unit :=
  if b then mret () else raise AssertionError.

(** ** The string methods the pipeline calls *)

Module Py.

(** [s[:n]] *)
Fixpoint take (n : nat) (s : string) : string :=
  match n, s with
  | S k, String c s' => String c (take k s')
  | _, _ => ""
  end.

(** [sep.join(parts)] *)
Fixpoint join (sep : string) (parts : list string) : string :=
  match parts with
  | [] => ""
  | [p] => p
  | p :: rest => p +:+ sep +:+ join sep rest
  end.

(** [s.split(sep)] for a separator of one character: the fields
    between the separators, empty fields kept; [''.split(':')] is
    [['']]. *)
Fixpoint split (sep : ascii) (s : string) : list string :=
  match s with
  | "" => [""]
  | String c s' =>
      if Ascii.eqb c sep then "" :: split sep s'
      else match split sep s' with
           | field :: fields => String c field :: fields
           | [] => [String c ""]
           end
  end.

(** [l[n:]] *)
Definition drop_fields (n : nat) (l : list string) : list string := drop n l.

(** [s.replace(old, new)] scans left to right and replaces the
    occurrences of [old] that do not overlap.  [skip] counts the
    characters of a matched occurrence still to be passed over. *)
Fixpoint replace_from (old new : string) (skip : nat) (s : string) : string :=
  match s with
  | "" => ""
  | String c s' =>
      match skip with
      | S k => replace_from old new k s'
      | O =>
          if String.prefix old s
          then new +:+ replace_from old new (String.length old - 1) s'
          else String c (replace_from old new 0 s')
      end
  end.

(** With an empty [old], Python puts [new] before every character and
    at the end. *)
Fixpoint intersperse_all (new : string) (s : string) : string :=
  match s with
  | "" => new
  | String c s' => new +:+ String c (intersperse_all new s')
  end.

Definition replace (old new s : string) : string :=
  match old with
  | "" => intersperse_all new s
  | _ => replace_from old new 0 s
  end.

(** [c in s] *)
Fixpoint contains (c : ascii) (s : string) : bool :=
  match s with
  | "" => false
  | String c' s' => Ascii.eqb c c' || contains c s'
  end.

End Py.


(** ** [bytes], [str.encode('utf8')] and the [hashlib] digests *)

#[global] Instance byte_eq_decision : EqDecision byte := Byte.byte_eq_dec.

Definition byte_of_Z (z : Z) : byte :=
  match Byte.of_N (Z.to_N (z mod 256)) with
  | Some b => b
  | None => x00
  end.

Definition Z_of_byte (b : byte) : Z := Z.of_N (Byte.to_N b).

(** A character below 128 is one byte, a character from 128 to 255 is
    the two bytes [110000xx 10xxxxxx]. *)
Definition encode_char (c : ascii) : list byte :=
  let n := Z.of_N (N_of_ascii c) in
  if (n <? 128)%Z then [byte_of_Z n]
  else [byte_of_Z (192 + Z.shiftr n 6); byte_of_Z (128 + Z.land n 63)].

Fixpoint encode_utf8 (s : string) : list byte :=
  match s with
  | "" => []
  | String c s' => encode_char c ++ encode_utf8 s'
  end.

Module Hashlib.
Local Open Scope Z_scope.

Definition w32 (x : Z) : Z := x mod 2 ^ 32.
Definition add32 (x y : Z) : Z := w32 (x + y).
Definition rotl (n x : Z) : Z := w32 (Z.lor (Z.shiftl x n) (Z.shiftr x (32 - n))).
Definition rotr (n x : Z) : Z := rotl (32 - n) x.
Definition not32 (x : Z) : Z := 2 ^ 32 - 1 - x.

(** The message followed by the bit 1, zeros, and the length in bits
    as 8 bytes, to a multiple of 64 bytes. *)
Definition be_bytes (n : nat) (x : Z) : list Z :=
  map (fun i => Z.shiftr x (8 * Z.of_nat i) mod 256) (rev (seq 0 n)).

Definition pad (msg : list byte) : list Z :=
  let len := Z.of_nat (length msg) in
  let zeros := Z.to_nat ((55 - len) mod 64) in
  map Z_of_byte msg ++ [128] ++ repeat 0 zeros ++ be_bytes 8 (8 * len).

Fixpoint words (fuel : nat) (bs : list Z) : list Z :=
  match fuel, bs with
  | S k, b0 :: b1 :: b2 :: b3 :: rest =>
      (((b0 * 256 + b1) * 256 + b2) * 256 + b3) :: words k rest
  | _, _ => []
  end.

Fixpoint blocks (fuel : nat) (ws : list Z) : list (list Z) :=
  match fuel, ws with
  | _, [] => []
  | O, _ => []
  | S k, _ => firstn 16 ws :: blocks k (skipn 16 ws)
  end.

Definition message_blocks (msg : list byte) : list (list Z) :=
  let bs := pad msg in
  let ws := words (length bs) bs in
  blocks (length ws) ws.

Definition at_ (ws : list Z) (i : nat) : Z := nth i ws 0.

Definition hex_digit (d : Z) : ascii :=
  ascii_of_N (Z.to_N (if d <? 10 then 48 + d else 87 + d)).

Definition hex8 (w : Z) : string :=
  string_of_list_ascii
    (map (fun i => hex_digit (Z.shiftr w (4 * Z.of_nat i) mod 16)) (rev (seq 0 8))).

(** *** SHA-1 *)

Fixpoint sha1_schedule (n : nat) (w : list Z) : list Z :=
  match n with
  | O => w
  | S k =>
      let t := length w in
      sha1_schedule k
        (w ++ [rotl 1 (Z.lxor (Z.lxor (at_ w (t - 3)) (at_ w (t - 8)))
                              (Z.lxor (at_ w (t - 14)) (at_ w (t - 16))))])
  end.

Definition sha1_state : Type := Z * Z * Z * Z * Z.

Definition sha1_round (t : nat) (wt : Z) (s : sha1_state) : sha1_state :=
  let '(a, b, c, d, e) := s in
  let '(f, k) :=
    if (t <? 20)%nat then (Z.lor (Z.land b c) (Z.land (not32 b) d), 0x5A827999)
    else if (t <? 40)%nat then (Z.lxor (Z.lxor b c) d, 0x6ED9EBA1)
    else if (t <? 60)%nat
         then (Z.lor (Z.lor (Z.land b c) (Z.land b d)) (Z.land c d), 0x8F1BBCDC)
    else (Z.lxor (Z.lxor b c) d, 0xCA62C1D6) in
  (add32 (add32 (add32 (add32 (rotl 5 a) f) e) k) wt, a, rotl 30 b, c, d).

Fixpoint sha1_rounds (t : nat) (w : list Z) (s : sha1_state) : sha1_state :=
  match w with
  | [] => s
  | wt :: w' => sha1_rounds (S t) w' (sha1_round t wt s)
  end.

Definition sha1_block (s : sha1_state) (blk : list Z) : sha1_state :=
  let '(a, b, c, d, e) := s in
  let '(a', b', c', d', e') := sha1_rounds 0 (sha1_schedule 64 blk) s in
  (add32 a a', add32 b b', add32 c c', add32 d d', add32 e e').

Definition sha1_init : sha1_state :=
  (0x67452301, 0xEFCDAB89, 0x98BADCFE, 0x10325476, 0xC3D2E1F0).

(** [hashlib.sha1(msg).hexdigest()] *)
Definition sha1_hexdigest (msg : list byte) : string :=
  let '(a, b, c, d, e) := fold_left sha1_block (message_blocks msg) sha1_init in
  hex8 a +:+ hex8 b +:+ hex8 c +:+ hex8 d +:+ hex8 e.

(** *** SHA-256 *)

(** The constants of SHA-256 are the first 32 bits of the fractional
    parts of the cube roots (round constants) and of the square roots
    (initial state) of the first primes. *)
Definition is_prime (n : Z) : bool :=
  forallb (fun d => negb (n mod Z.of_nat d =? 0)) (seq 2 (Z.to_nat n - 2)).

Definition first_primes (n : nat) : list Z :=
  firstn n (filter is_prime (map Z.of_nat (seq 2 310))).

(** The integer cube root of [x], bit by bit from bit [n - 1] down. *)
Fixpoint cube_root_bits (n : nat) (x acc : Z) : Z :=
  match n with
  | O => acc
  | S k =>
      let try := acc + 2 ^ Z.of_nat k in
      cube_root_bits k x (if try * try * try <=? x then try else acc)
  end.

Definition frac_cube_root (p : Z) : Z := w32 (cube_root_bits 40 (p * 2 ^ 96) 0).
Definition frac_square_root (p : Z) : Z := w32 (Z.sqrt (p * 2 ^ 64)).

Definition sha256_k : list Z := map frac_cube_root (first_primes 64).

Definition small_sigma0 (x : Z) : Z :=
  Z.lxor (Z.lxor (rotr 7 x) (rotr 18 x)) (Z.shiftr x 3).
Definition small_sigma1 (x : Z) : Z :=
  Z.lxor (Z.lxor (rotr 17 x) (rotr 19 x)) (Z.shiftr x 10).
Definition big_sigma0 (x : Z) : Z :=
  Z.lxor (Z.lxor (rotr 2 x) (rotr 13 x)) (rotr 22 x).
Definition big_sigma1 (x : Z) : Z :=
  Z.lxor (Z.lxor (rotr 6 x) (rotr 11 x)) (rotr 25 x).

Fixpoint sha256_schedule (n : nat) (w : list Z) : list Z :=
  match n with
  | O => w
  | S k =>
      let t := length w in
      sha256_schedule k
        (w ++ [add32 (add32 (small_sigma1 (at_ w (t - 2))) (at_ w (t - 7)))
                     (add32 (small_sigma0 (at_ w (t - 15))) (at_ w (t - 16)))])
  end.

Definition sha256_state : Type := Z * Z * Z * Z * Z * Z * Z * Z.

Definition sha256_round (kt wt : Z) (s : sha256_state) : sha256_state :=
  let '(a, b, c, d, e, f, g, h) := s in
  let ch := Z.lxor (Z.land e f) (Z.land (not32 e) g) in
  let maj := Z.lxor (Z.lxor (Z.land a b) (Z.land a c)) (Z.land b c) in
  let t1 := add32 (add32 (add32 (add32 h (big_sigma1 e)) ch) kt) wt in
  let t2 := add32 (big_sigma0 a) maj in
  (add32 t1 t2, a, b, c, add32 d t1, e, f, g).

Fixpoint sha256_rounds (k w : list Z) (s : sha256_state) : sha256_state :=
  match k, w with
  | kt :: k', wt :: w' => sha256_rounds k' w' (sha256_round kt wt s)
  | _, _ => s
  end.

Definition sha256_block (s : sha256_state) (blk : list Z) : sha256_state :=
  let '(a, b, c, d, e, f, g, h) := s in
  let '(a', b', c', d', e', f', g', h') :=
    sha256_rounds sha256_k (sha256_schedule 48 blk) s in
  (add32 a a', add32 b b', add32 c c', add32 d d',
   add32 e e', add32 f f', add32 g g', add32 h h').

Definition sha256_init : sha256_state :=
  match map frac_square_root (first_primes 8) with
  | [a; b; c; d; e; f; g; h] => (a, b, c, d, e, f, g, h)
  | _ => (0, 0, 0, 0, 0, 0, 0, 0)
  end.

(** [hashlib.sha256(msg).hexdigest()] *)
Definition sha256_hexdigest (msg : list byte) : string :=
  let '(a, b, c, d, e, f, g, h) :=
    fold_left sha256_block (message_blocks msg) sha256_init in
  hex8 a +:+ hex8 b +:+ hex8 c +:+ hex8 d +:+
  hex8 e +:+ hex8 f +:+ hex8 g +:+ hex8 h.

End Hashlib.

(** ** Work items

    A seesaw item is used as a dictionary.  The entries the pipeline
    reads and writes as text are in [fields]; [item['stats']] is a
    dictionary of its own, set by [PrepareStatsForTracker]. *)

Record Item : Type := {
  fields : gmap string string;
  stats : option (gmap string string)
}.

Definition item_get (k : string) (it : Item) : result string :=
  of_option (KeyError k) (fields it !! k).

Definition item_set (k v : string) (it : Item) : Item :=
  {| fields := <[k := v]> (fields it); stats := stats it |}.

(** [item['stats']['downloader']] *)
Definition item_downloader (it : Item) : result string :=
  st ← of_option (KeyError "stats") (stats it);
  of_option (KeyError "downloader") (st !! "downloader").

(** A format string ['...%(key)s...' % item] is a list of literal
    pieces and keys; formatting raises [KeyError] at the first key the
    item lacks. *)
Inductive piece : Type :=
  | Lit (s : string)
  | Key (k : string).

Fixpoint format (t : list piece) (it : Item) : result string :=
  match t with
  | [] => Ok ""
  | Lit s :: t' => rest ← format t' it; Ok (s +:+ rest)
  | Key k :: t' => v ← item_get k it; rest ← format t' it; Ok (v +:+ rest)
  end.

(** The paths of pipeline.py. *)
Definition placeholder_warc : list piece :=
  [Key "item_dir"; Lit "/"; Key "warc_file_base"; Lit ".warc.gz"].
Definition staged_data : list piece :=
  [Key "item_dir"; Lit "/"; Key "warc_file_base"; Lit "_data.txt"].
Definition staged_warc : list piece :=
  [Key "item_dir"; Lit "/"; Key "warc_file_base"; Lit ".warc.zst"].
Definition final_warc : list piece :=
  [Key "data_dir"; Lit "/"; Key "warc_file_base"; Lit "."; Key "dict_project";
   Lit "."; Key "dict_id"; Lit ".warc.zst"].
Definition final_data : list piece :=
  [Key "data_dir"; Lit "/"; Key "warc_file_base"; Lit "_data.txt"].
Definition staging_dir : list piece := [Key "item_dir"].
Definition data_dir_slash : list piece := [Key "data_dir"; Lit "/"].

(** ** The file system

    Regular files with their content, and the set of directories.  A
    path is the text the program passes to the system call, and the
    model knows a file or a directory by that text. *)

Record FS : Type := {
  files : gmap string (list byte);
  dirs : gset string
}.

(** [p] lies below the directory [d], by the spelling of the two
    paths. *)
Definition under (d p : string) : bool := String.prefix (d +:+ "/") p.

(** The text before the last ['/'] of [p] (empty when there is none). *)
Fixpoint parent_dir (p : string) : string :=
  match p with
  | "" => ""
  | String c p' =>
      if Py.contains "/" p' then String c (parent_dir p') else ""
  end.

(** The directory an entry at [p] is created in exists: it is in
    [dirs], or [p] names an entry of the working or the root directory. *)
Definition parent_exists (fs : FS) (p : string) : bool :=
  bool_decide (parent_dir p = "" ∨ parent_dir p ∈ dirs fs).

(** The directories above [p], as far as the spelling of [p] names them. *)
Fixpoint ancestors_from (acc p : string) : list string :=
  match p with
  | "" => []
  | String c p' =>
      (if Ascii.eqb c "/" && negb (String.eqb acc "") then [acc] else [])
      ++ ancestors_from (acc +:+ String c "") p'
  end.
Definition ancestors (p : string) : list string := ancestors_from "" p.

(** *** Canonical paths

    The model stands for the file system of the code where every path
    is spelled in one way: relative to the working directory, its
    components separated by single slashes, none of them empty, [.] or
    [..].  Elsewhere two spellings name one directory ([data/] and
    [data], which [data_dir/name] gives for an empty name), and the
    statements that depend on which files a directory holds ask for
    canonical paths. *)
Definition proper_name (c : string) : bool :=
  negb (String.eqb c "") && negb (String.eqb c ".") && negb (String.eqb c "..").

Definition canonical (p : string) : bool := forallb proper_name (Py.split "/" p).

Definition fs_canonical (fs : FS) : bool :=
  forallb canonical ((map_to_list (files fs)).*1 ++ elements (dirs fs)).

(** The paths [MoveFiles] formats from the item. *)
Definition finalize_paths : list (list piece) :=
  [staging_dir; staged_warc; final_warc; staged_data; final_data].

Module Os.

(** [os.path.isdir(d)] *)
Definition isdir (d : string) (fs : FS) : bool := bool_decide (d ∈ dirs fs).

(** [shutil.rmtree(d)]: the directory and everything below it. *)
Definition rmtree (d : string) (fs : FS) : result FS :=
  if isdir d fs then
    Ok {| files := filter (λ kv, ¬ under d kv.1) (files fs);
          dirs := filter (λ p, p ≠ d ∧ ¬ under d p) (dirs fs) |}
  else if bool_decide (is_Some (files fs !! d)) then Raise (NotADirectoryError d)
  else Raise (FileNotFoundError d).

(** [os.makedirs(d)]: creates [d] and the missing directories above
    it; fails when [d] exists already. *)
Definition makedirs (d : string) (fs : FS) : result FS :=
  if bool_decide (d ∈ dirs fs ∨ is_Some (files fs !! d)) then Raise (FileExistsError d)
  else if bool_decide (Exists (λ a, is_Some (files fs !! a)) (ancestors d))
  then Raise (NotADirectoryError d)
  else Ok {| files := files fs;
             dirs := {[d]} ∪ list_to_set (ancestors d) ∪ dirs fs |}.

(** [open(p, 'w').close()]: an empty regular file at [p], truncating
    the one that is there. *)
Definition create_empty (p : string) (fs : FS) : result FS :=
  if bool_decide (p ∈ dirs fs) then Raise (IsADirectoryError p)
  else if bool_decide (is_Some (files fs !! parent_dir p)) then Raise (NotADirectoryError p)
  else if parent_exists fs p
  then Ok {| files := <[p := []]> (files fs); dirs := dirs fs |}
  else Raise (FileNotFoundError p).

(** [os.rename(src, dst)] of a regular file; a regular file at [dst]
    is replaced.  The pipeline renames the two files the fetcher
    wrote; renaming a directory is not modelled and is answered by
    [Exception]. *)
Definition rename (src dst : string) (fs : FS) : result FS :=
  match files fs !! src with
  | Some content =>
      if bool_decide (dst ∈ dirs fs) then Raise (IsADirectoryError dst)
      else if bool_decide (is_Some (files fs !! parent_dir dst))
      then Raise (NotADirectoryError dst)
      else if parent_exists fs dst
      then Ok {| files := <[dst := content]> (delete src (files fs)); dirs := dirs fs |}
      else Raise (FileNotFoundError dst)
  | None =>
      if bool_decide (src ∈ dirs fs) then Raise (Exception "rename of a directory")
      else Raise (FileNotFoundError src)
  end.

(** [os.path.getsize(p)] *)
Definition getsize (p : string) (fs : FS) : result Z :=
  match files fs !! p with
  | Some content => Ok (Z.of_nat (length content))
  | None => Raise (FileNotFoundError p)
  end.

End Os.

(** ** Tasks that work on an item and the file system

    A task step runs in a world made of the file system, the item and
    the trace of the effects performed so far, in order.  A step that
    raises leaves the world as the earlier steps made it. *)

Inductive event : Type :=
  | EvRmtree (d : string)
  | EvMakedirs (d : string)
  | EvCreate (p : string)
  | EvRename (src dst : string)
  | EvGet (url : string)
  | EvPost (url data : string)
  | EvProbe (domain name : string) (size : Z).

Record World : Type := {
  fs : FS;
  item : Item;
  trace : list event
}.

Definition M : Type → Type := ST World.

(** [item[k]] and [item[k] = v] *)
Definition read_item (k : string) : M string := λ w, (item_get k (item w), w).
Definition write_item (k v : string) : M unit := λ w,
  (Ok (), {| fs := fs w; item := item_set k v (item w); trace := trace w |}).

(** ['...' % item] *)
Definition fmt (t : list piece) : M string := λ w, (format t (item w), w).

(** A system call: on success the file system changes and the call is
    recorded; a failing call changes nothing. *)
Definition syscall (ev : event) (op : FS → result FS) : M unit := λ w,
  match op (fs w) with
  | Ok fs' => (Ok (), {| fs := fs'; item := item w; trace := trace w ++ [ev] |})
  | Raise e => (Raise e, w)
  end.

Definition test_isdir (d : string) : M bool := λ w, (Ok (Os.isdir d (fs w)), w).

(** An HTTP request: the request is recorded when it is sent; the
    reply is the response, or the exception [requests] raises. *)
Record response : Type := {
  status_code : Z;
  text : string
}.

Definition request (ev : event) (reply : result response) : M response := λ w,
  (reply, {| fs := fs w; item := item w; trace := trace w ++ [ev] |}).

Definition now_url : string := "https://legacy-api.arpa.li/now".
Definition queue_url : string :=
  "http://blackbird-amqp.meo.ws:23038/github-next-pwof1zehtpb56ho/".

(** [item_name.replace(':', '_').replace('/', '_').replace('~', '_')] *)
Definition escape_item_name (item_name : string) : string :=
  Py.replace "~" "_" (Py.replace "/" "_" (Py.replace ":" "_" item_name)).

(** The value stored as [item['warc_file_base']]; [timestamp] is what
    [time.strftime('%Y%m%d-%H%M%S')] returns. *)
Definition warc_file_base (warc_prefix item_name timestamp : string) : string :=
  Py.join "-"
    [warc_prefix;
     Py.take 45 (escape_item_name item_name);
     Py.take 10 (Hashlib.sha1_hexdigest (encode_utf8 item_name));
     timestamp].

Module PrepareDirectories.

Record env : Type := {
  strftime : string;          (* time.strftime('%Y%m%d-%H%M%S') *)
  now_reply : result response (* requests.get('https://legacy-api.arpa.li/now') *)
}.

Definition process (warc_prefix : string) (e : env) : M unit :=
  item_name ← read_item "item_name";
  let escaped_item_name := escape_item_name item_name in
  data_dir ← read_item "data_dir";
  let dirname := Py.join "/" [data_dir; escaped_item_name] in
  is_dir ← test_isdir dirname;
  (if is_dir : bool then syscall (EvRmtree dirname) (Os.rmtree dirname) else mret ());;
  syscall (EvMakedirs dirname) (Os.makedirs dirname);;
  write_item "item_dir" dirname;;
  write_item "warc_file_base" (warc_file_base warc_prefix item_name (strftime e));;
  warc ← fmt placeholder_warc;
  syscall (EvCreate warc) (Os.create_empty warc);;
  data ← fmt staged_data;
  syscall (EvCreate data) (Os.create_empty data);;
  r ← request (EvGet now_url) (now_reply e);
  assert (status_code r =? 200)%Z;;
  write_item "start_time" (hd "" (Py.split "." (text r))).

End PrepareDirectories.

Module MoveFiles.

Record env : Type := {
  queue_reply : result response (* requests.post(queue_url, data=new_item) *)
}.

(** [':'.join(['web', start_time] + item_name.split(':')[2:])] *)
Definition new_item (item_name start_time : string) : string :=
  Py.join ":" (["web"; start_time] ++ Py.drop_fields 2 (Py.split ":" item_name)).

Definition process (e : env) : M unit :=
  src ← fmt staged_warc;
  dst ← fmt final_warc;
  syscall (EvRename src dst) (Os.rename src dst);;
  src ← fmt staged_data;
  dst ← fmt final_data;
  syscall (EvRename src dst) (Os.rename src dst);;
  d ← fmt staging_dir;
  syscall (EvRmtree d) (Os.rmtree d);;
  item_name ← read_item "item_name";
  start_time ← read_item "start_time";
  let new_item := new_item item_name start_time in
  r ← request (EvPost queue_url new_item) (queue_reply e);
  assert (status_code r =? 200)%Z.

End MoveFiles.

(** ** CheckIP *)

Module CheckIP.

Definition hosts : list string :=
  ["twitter.com"; "facebook.com"; "youtube.com"; "microsoft.com";
   "icanhas.cheezburger.com"; "archiveteam.org"].

(** [ip_set.add(socket.gethostbyname(h))] for the hosts in turn;
    [gethostbyname] answers an address or raises. *)
Fixpoint resolve_into (gethostbyname : string → result string)
    (hs : list string) (ip_set : gset string) : result (gset string) :=
  match hs with
  | [] => Ok ip_set
  | h :: hs' =>
      ip ← gethostbyname h;
      resolve_into gethostbyname hs' ({[ip]} ∪ ip_set)
  end.

Definition proxy_message : string :=
  "Are you behind a firewall/proxy? That is a big no-no!".

(** The state is [self._counter]. *)
Definition process (gethostbyname : string → result string) : ST Z unit :=
  λ counter,
  let check : result unit :=
    if (counter <=? 0)%Z then
      ip_set ← resolve_into gethostbyname hosts ∅;
      if bool_decide (size ip_set ≠ 6) then Raise (Exception proxy_message)
      else Ok ()
    else Ok () in
  match check with
  | Raise e => (Raise e, counter)
  | Ok _ => (Ok (), if (counter <=? 0)%Z then 10%Z else (counter - 1)%Z)
  end.

Definition initial_counter : Z := 0.

End CheckIP.

(** ** ZstdDict *)

Module ZstdDict.

(** [cls.data] is [None] or [{'id': ..., 'dict': ...}]. *)
Record record : Type := {
  id : string;
  dict : list byte
}.

(** The class attributes, and the requests sent so far. *)
Record cache : Type := {
  created : Q;
  data : option record;
  sent : list event
}.

Definition initial : cache := {| created := 0; data := None; sent := [] |}.

(** An HTTP reply with a body of type [B]. *)
Record reply (B : Type) : Type := {
  status : Z;
  body : B
}.
Arguments status {B} r.
Arguments body {B} r.

(** What the outside answers during one call: the two readings of
    [time.time()] (at the freshness test, and when [cls.created] is
    set), the reply of the dictionary endpoint with its JSON body (or
    the exception of parsing it), the reply of the payload URL, and
    the decompressor. *)
Record env : Type := {
  time_at_test : Q;
  time_at_update : Q;
  meta_reply : result (reply (result (gmap string string)));
  payload_reply : string → result (reply (list byte));
  decompress : list byte → result (list byte)
}.

Definition dictionary_url : string :=
  "https://legacy-api.arpa.li/dictionary?project=github".

Definition zstd_magic : list byte := [x28; xb5; x2f; xfd].

(** [response.raise_for_status()] *)
Definition raise_for_status {B} (r : reply B) : result unit :=
  if ((400 <=? status r) && (status r <? 600))%Z then Raise (HTTPError (status r))
  else Ok ().

(** [time.time() - cls.created < 1800] *)
Definition younger (now created : Q) : bool :=
  if Qlt_le_dec (now - created) 1800 then true else false.

Definition send {B} (url : string) (r : result (reply B)) : ST cache (reply B) :=
  λ c, (r, {| created := created c; data := data c; sent := sent c ++ [EvGet url] |}).

Definition set_created (t : Q) : ST cache unit :=
  λ c, (Ok (), {| created := t; data := data c; sent := sent c |}).

Definition set_data (d : record) : ST cache unit :=
  λ c, (Ok (), {| created := created c; data := Some d; sent := sent c |}).

Definition key (k : string) (json : gmap string string) : result string :=
  of_option (KeyError k) (json !! k).

Definition is_fresh (e : env) (c : cache) : bool :=
  match data c with
  | Some _ => younger (time_at_test e) (created c)
  | None => false
  end.

(** [response['id'] == cls.data['id']], evaluated only when
    [cls.data is not None]. *)
Definition same_id (json : gmap string string) (c : cache) : result bool :=
  match data c with
  | Some d => i ← key "id" json; Ok (String.eqb i (id d))
  | None => Ok false
  end.

Definition download (e : env) (json : gmap string string) : ST cache record :=
  url ← lift (key "url" json);
  response_dict ← send url (payload_reply e url);
  lift (raise_for_status response_dict);;
  let raw_data := body response_dict in
  advertised ← lift (key "sha256" json);
  (if String.eqb (Hashlib.sha256_hexdigest raw_data) advertised
   then mret ()
   else raise (ValueError "Hash of downloaded dictionary does not match."));;
  raw_data ← (if bool_decide (firstn 4 raw_data = zstd_magic)
              then lift (decompress e raw_data)
              else mret raw_data);
  i ← lift (key "id" json);
  let d := {| id := i; dict := raw_data |} in
  set_data d;;
  set_created (time_at_update e);;
  mret d.

(** [return cls.data], reached only where [cls.data is not None] holds. *)
Definition return_data : ST cache record :=
  λ c, (of_option (Exception "cls.data is None") (data c), c).

Definition get_dict (e : env) : ST cache record :=
  fresh ← (λ c, (Ok (is_fresh e c), c));
  if fresh : bool then return_data
  else
    response ← send dictionary_url (meta_reply e);
    lift (raise_for_status response);;
    json ← lift (body response);
    same ← (λ c, (same_id json c, c));
    if same : bool
    then set_created (time_at_update e);; return_data
    else download e json.

End ZstdDict.

(** ** ChooseTargetAndUpload *)

Module ChooseTargetAndUpload.

Definition retry_sleep : Q := 10.

Definition targets_url : string := "https://legacy-api.arpa.li/github/upload_targets".

(** The longest prefix of [s] whose characters satisfy [p], and the rest. *)
Fixpoint span (p : ascii → bool) (s : string) : string * string :=
  match s with
  | "" => ("", "")
  | String c s' =>
      if p c then let '(a, b) := span p s' in (String c a, b)
      else ("", s)
  end.

Definition strip_prefix (pre s : string) : option string :=
  if String.prefix pre s
  then Some (String.substring (String.length pre) (String.length s - String.length pre) s)
  else None.

(** [re.search('^[^:]+://([^/:]+)', target).group(1)]: one or more
    characters other than [:] from the start, then [://], then the
    longest non-empty run of characters other than [/] and [:], which
    is the group.  Without a match [re.search] returns [None] and
    [.group] raises [AttributeError]. *)
Definition extract_domain (target : string) : result string :=
  let '(scheme, rest) := span (λ c, negb (Ascii.eqb c ":")) target in
  if String.eqb scheme "" then Raise AttributeError
  else match strip_prefix "://" rest with
       | None => Raise AttributeError
       | Some after =>
           let '(domain, _) :=
             span (λ c, negb (Ascii.eqb c "/") && negb (Ascii.eqb c ":")) after in
           if String.eqb domain "" then Raise AttributeError else Ok domain
       end.

(** The inner [RsyncUpload] task. *)
Record transfer : Type := {
  target : string;
  sources : list string;
  target_source_path : string;
  max_tries : nat
}.

(** What the outside answers during one call of [find_target]: the
    tracker's list of targets (or the exception of the request or of
    parsing it), the permutation [random.shuffle] picks, the size of
    a file, and for a probe of [domain] with the item's name and the
    size, whether the JSON reply has a true ['accepts'] (or the
    exception of the request, of the timeout, or of reading the
    reply); and for the inner task, whether [RsyncUpload(...)] and
    [inner_task.enqueue(item)] return or raise. *)
Record env : Type := {
  targets_reply : result (list string);
  shuffle : list string → list string;
  getsize : string → result Z;
  probe : string → string → Z → result bool;
  launch : transfer → result unit
}.

Definition send {A} (ev : event) (r : result A) : ST (list event) A :=
  λ net, (r, net ++ [ev]).

(** The [for target in targets] loop with its [else] branch. *)
Fixpoint scan (e : env) (it : Item) (targets : list string)
    : ST (list event) (option string) :=
  match targets with
  | [] => mret None
  | target :: rest =>
      domain ← lift (extract_domain target);
      path ← lift (format final_warc it);
      size ← lift (getsize e path);
      name ← lift (item_get "item_name" it);
      accepts ← send (EvProbe domain name size) (probe e domain name size);
      if accepts : bool then
        downloader ← lift (item_downloader it);
        mret (Some (Py.replace ":downloader" downloader target))
      else scan e it rest
  end.

Definition find_target (e : env) (it : Item) : ST (list event) (option string) :=
  targets ← send (EvGet targets_url) (targets_reply e);
  scan e it (shuffle e targets).

(** [functools.partial(self.process, item)] *)
Inductive callback : Type :=
  | CallProcess (it : Item).

(** The event loop and the task's view of its items: the time of the
    loop, the timeouts added with their deadlines, the inner tasks
    started, the items completed, the items failed, and the requests
    sent. *)
Record loop : Type := {
  now : Q;
  timeouts : list (Q * callback);
  started : list (Item * transfer);
  completed : list Item;
  failed : list Item;
  net : list event
}.

(** [IOLoop.instance().add_timeout(timedelta(seconds=d), cb)] *)
Definition add_timeout (d : Q) (cb : callback) : ST loop unit := λ w,
  (Ok (), {| now := now w; timeouts := timeouts w ++ [((now w + d)%Q, cb)];
             started := started w; completed := completed w;
             failed := failed w; net := net w |}).

Definition retry (it : Item) : ST loop unit :=
  add_timeout retry_sleep (CallProcess it).

Definition complete_item (it : Item) : ST loop unit := λ w,
  (Ok (), {| now := now w; timeouts := timeouts w; started := started w;
             completed := completed w ++ [it]; failed := failed w; net := net w |}).

(** [RsyncUpload(...)], the two callbacks, and
    [inner_task.enqueue(item)]: the inner task is started, or one of
    the calls raises. *)
Definition start_transfer (e : env) (it : Item) (t : transfer) : ST loop unit := λ w,
  match launch e t with
  | Ok _ =>
      (Ok (), {| now := now w; timeouts := timeouts w; started := started w ++ [(it, t)];
                 completed := completed w; failed := failed w; net := net w |})
  | Raise x => (Raise x, w)
  end.

(** [find_target] run on the requests of the loop. *)
Definition on_net {A} (m : ST (list event) A) : loop → result A * loop := λ w,
  let '(r, net') := m (net w) in
  (r, {| now := now w; timeouts := timeouts w; started := started w;
         completed := completed w; failed := failed w; net := net' |}).

(** The [try] block catches every exception of [find_target] and the
    failed assertion; the inner task is built and enqueued after it,
    so what these calls raise leaves [process]. *)
Definition process (e : env) (it : Item) : ST loop unit := λ w,
  match on_net (find_target e it) w with
  | (Ok (Some tgt), w') =>
      (warc ← lift (format final_warc it);
       data ← lift (format final_data it);
       source_path ← lift (format data_dir_slash it);
       start_transfer e it {| target := tgt; sources := [warc; data];
                            target_source_path := source_path; max_tries := 1 |}) w'
  | (_, w') => retry it w'
  end.

(** The callbacks set on the inner task: [on_complete_item] and
    [on_fail_item]. *)
Definition on_complete_item (it : Item) : ST loop unit := complete_item it.
Definition on_fail_item (it : Item) : ST loop unit := retry it.

(** *** One attempt and the loop around it

    An attempt is one call of [process]; when it started a transfer,
    the transfer ends after [duration] with success or failure and
    the matching callback runs. *)
Record attempt_env : Type := {
  selection : env;
  rsync_succeeds : bool;
  duration : Q
}.

Definition advance (d : Q) : ST loop unit := λ w,
  (Ok (), {| now := (now w + d)%Q; timeouts := timeouts w; started := started w;
             completed := completed w; failed := failed w; net := net w |}).

Definition attempt (a : attempt_env) (it : Item) : ST loop unit := λ w,
  match process (selection a) it w with
  | (Ok _, w') =>
      if bool_decide (length (started w') = length (started w)) then (Ok (), w')
      else (advance (duration a);;
            if rsync_succeeds a then on_complete_item it else on_fail_item it) w'
  | (Raise e, w') => (Raise e, w')
  end.

(** The loop runs the first timeout when its deadline is reached. *)
Definition fire (w : loop) : option (callback * loop) :=
  match timeouts w with
  | [] => None
  | (deadline, cb) :: rest =>
      Some (cb, {| now := (if Qlt_le_dec (now w) deadline then deadline else now w);
                   timeouts := rest;
                   started := started w; completed := completed w;
                   failed := failed w; net := net w |})
  end.

(** The attempts the timeouts trigger, one environment for each. *)
Fixpoint drive (envs : list attempt_env) (w : loop) : result unit * loop :=
  match envs with
  | [] => (Ok (), w)
  | a :: envs' =>
      match fire w with
      | None => (Ok (), w)
      | Some (CallProcess it, w') =>
          match attempt a it w' with
          | (Ok _, w'') => drive envs' w''
          | (Raise e, w'') => (Raise e, w'')
          end
      end
  end.

(** [enqueue]: the first attempt, then the ones the timeouts trigger. *)
Definition enqueue (envs : list attempt_env) (it : Item) : ST loop unit := λ w,
  match envs with
  | [] => (Ok (), w)
  | a :: envs' =>
      match attempt a it w with
      | (Ok _, w') => drive envs' w'
      | (Raise e, w') => (Raise e, w')
      end
  end.

Definition idle (t : Q) : loop :=
  {| now := t; timeouts := []; started := []; completed := []; failed := []; net := [] |}.

End ChooseTargetAndUpload.

(** ** Vocabulary of the statements *)

Fixpoint map_chars (f : ascii → ascii) (s : string) : string :=
  match s with
  | "" => ""
  | String c s' => String (f c) (map_chars f s')
  end.

Fixpoint all_chars (p : ascii → bool) (s : string) : bool :=
  match s with
  | "" => true
  | String c s' => p c && all_chars p s'
  end.

Definition path_hostile (c : ascii) : bool :=
  Ascii.eqb c ":" || Ascii.eqb c "/" || Ascii.eqb c "~".

Definition sanitize_char (c : ascii) : ascii :=
  if path_hostile c then "_"%char else c.

Definition is_hex_digit (c : ascii) : bool :=
  let n := N_of_ascii c in
  ((48 <=? n) && (n <=? 57) || (97 <=? n) && (n <=? 102))%N.

(** The outcome of the POST and of the assertion after it. *)
Definition queue_outcome (reply : result response) : result unit :=
  match reply with
  | Ok r => if (status_code r =? 200)%Z then Ok () else Raise AssertionError
  | Raise e => Raise e
  end.

(** The data of the POST requests of a trace. *)
Fixpoint posts (t : list event) : list string :=
  match t with
  | [] => []
  | EvPost _ data :: t' => data :: posts t'
  | _ :: t' => posts t'
  end.

(** [item_type] as [WgetArgs.realize] reads it: the first field of the
    identifier. *)
Definition item_type (it : Item) : option string :=
  match fields it !! "item_name" with
  | Some name => head (Py.split ":" name)
  | None => None
  end.

(** ** A run on one item, end to end

    The item ["web:initial:octocat/Hello-World"] with the data
    directory ["data"]. *)

Module Scenario.

Definition item0 : Item :=
  {| fields := <["item_name" := "web:initial:octocat/Hello-World"]>
                 (<["data_dir" := "data"]> ∅);
     stats := None |}.

Definition fs0 : FS := {| files := ∅; dirs := {["data"]} |}.

Definition world0 : World := {| fs := fs0; item := item0; trace := [] |}.

Definition stage_env : PrepareDirectories.env :=
  {| PrepareDirectories.strftime := "20210730-120000";
     PrepareDirectories.now_reply :=
       Ok {| status_code := 200; text := "1627646400.123" |} |}.

(** After [PrepareDirectories]. *)
Definition staged : World := (PrepareDirectories.process "github" stage_env world0).2.

Definition base : string :=
  "github-web_initial_octocat_Hello-World-bdecc2d26e-20210730-120000".
Definition item_dir : string := "data/web_initial_octocat_Hello-World".

(** The fetcher wrote the archive into the staging directory, and
    [WgetArgs.realize] set the dictionary entries of the item;
    [PrepareStatsForTracker] set the statistics. *)
Definition artifact : list byte := [x28; xb5; x2f; xfd; x00].

Definition fetched : World :=
  {| fs := {| files := <[item_dir +:+ "/" +:+ base +:+ ".warc.zst" := artifact]>
                         (files (fs staged));
              dirs := dirs (fs staged) |};
     item := {| fields := <["dict_id" := "77"]>
                            (<["dict_project" := "github"]> (fields (item staged)));
                stats := Some {["downloader" := "alice"]} |};
     trace := trace staged |}.

Definition queue_accepts : MoveFiles.env :=
  {| MoveFiles.queue_reply := Ok {| status_code := 200; text := "" |} |}.

Definition queue_down : MoveFiles.env :=
  {| MoveFiles.queue_reply := Ok {| status_code := 503; text := "" |} |}.

End Scenario.

(** The reading of the finalizer under which an item of type [web] is
    not requeued: the run sends the queue no POST. *)
Definition web_is_not_requeued : Prop :=
  ∀ e (w : World),
    item_type (item w) = Some "web" →
    posts (trace (MoveFiles.process e w).2) = posts (trace w).

(** A file system is well formed when every entry lies in a directory
    that exists. *)
Definition fs_wf (fs : FS) : Prop :=
  ∀ p d, under d p = true → (is_Some (files fs !! p) ∨ p ∈ dirs fs) → d ∈ dirs fs.

(** Two resolvers for the sanity check: every name has an address of
    its own, and every name resolves to the one address of a proxy. *)
Module Dns.

Definition direct (host : string) : result string := Ok ("ip-of-" +:+ host).

Definition proxied (host : string) : result string := Ok "10.0.0.1".

End Dns.

(** A cache holding dictionary 77, and replies of the dictionary
    service: the same id, and a new id whose payload does or does not
    have the advertised digest. *)
Module DictScenario.

Definition cached_record : ZstdDict.record :=
  {| ZstdDict.id := "77"; ZstdDict.dict := [x01; x02; x03] |}.

Definition cached : ZstdDict.cache :=
  {| ZstdDict.created := 1000; ZstdDict.data := Some cached_record;
     ZstdDict.sent := [] |}.

Definition payload : list byte := [x61; x62; x63].

Definition payload_url : string := "https://dictionary.example/78".

Definition meta (i advertised : string) : gmap string string :=
  <["id" := i]> (<["url" := payload_url]> (<["sha256" := advertised]> ∅)).

Definition service (now : Q) (i advertised : string) : ZstdDict.env :=
  {| ZstdDict.time_at_test := now;
     ZstdDict.time_at_update := now + 1;
     ZstdDict.meta_reply :=
       Ok {| ZstdDict.status := 200; ZstdDict.body := Ok (meta i advertised) |};
     ZstdDict.payload_reply :=
       λ _, Ok {| ZstdDict.status := 200; ZstdDict.body := payload |};
     ZstdDict.decompress := λ _, Raise ZstdError |}.

Definition digest_of_payload : string :=
  "ba7816bf8f01cfea414140de5dae2223b00361a396177a9cb410ff61f20015ad".

Definition wrong_digest : string :=
  "0000000000000000000000000000000000000000000000000000000000000000".

End DictScenario.


(** ** Vocabulary of the statements about [ChooseTargetAndUpload] *)

(** What the loop body learns about one candidate: the domain is
    extracted, the size of the archive is read, the item's name is
    looked up and the probe is sent; [Ok b] is the truth of
    ['accepts'] in the reply. *)
Definition probe_candidate (e : ChooseTargetAndUpload.env) (it : Item)
    (target : string) : result bool :=
  domain ← ChooseTargetAndUpload.extract_domain target;
  path ← format final_warc it;
  size ← ChooseTargetAndUpload.getsize e path;
  name ← item_get "item_name" it;
  ChooseTargetAndUpload.probe e domain name size.

(** The probe requests for the candidates of a list, in order. *)
Definition probe_event (e : ChooseTargetAndUpload.env) (it : Item)
    (target : string) : list event :=
  match ChooseTargetAndUpload.extract_domain target, format final_warc it,
        item_get "item_name" it with
  | Ok domain, Ok path, Ok name =>
      match ChooseTargetAndUpload.getsize e path with
      | Ok size => [EvProbe domain name size]
      | Raise _ => []
      end
  | _, _, _ => []
  end.

Definition probe_events (e : ChooseTargetAndUpload.env) (it : Item)
    (targets : list string) : list event :=
  concat (map (probe_event e it) targets).

(** Three receivers, of which [b.example] has room, and a shuffle
    that reverses the list. *)
Module UploadScenario.

Definition finalized : World :=
  (MoveFiles.process Scenario.queue_accepts Scenario.fetched).2.

Definition targets : list string :=
  ["rsync://a.example/github/:downloader/";
   "rsync://b.example:873/github/:downloader/";
   "rsync://c.example/github/:downloader/"].

Definition receivers (accepting : string) : ChooseTargetAndUpload.env :=
  {| ChooseTargetAndUpload.targets_reply := Ok targets;
     ChooseTargetAndUpload.shuffle := @rev string;
     ChooseTargetAndUpload.getsize := λ p, Os.getsize p (fs finalized);
     ChooseTargetAndUpload.probe := λ domain _ _, Ok (String.eqb domain accepting);
     ChooseTargetAndUpload.launch := λ _, Ok () |}.

Definition tracker_down : ChooseTargetAndUpload.env :=
  {| ChooseTargetAndUpload.targets_reply := Raise RequestException;
     ChooseTargetAndUpload.shuffle := @rev string;
     ChooseTargetAndUpload.getsize := λ p, Os.getsize p (fs finalized);
     ChooseTargetAndUpload.probe := λ _ _ _, Raise RequestException;
     ChooseTargetAndUpload.launch := λ _, Ok () |}.

End UploadScenario.

(** The ways an upload attempt fails: the request for the targets or
    the reading of its reply raises; the probe of a candidate raises
    after the candidates before it declined; every candidate declines
    (an empty list has none); the transfer, once started, fails.  (The
    inner task is built and started outside the [try] block: an
    attempt in which that raises is none of these.) *)
Inductive failure (a : ChooseTargetAndUpload.attempt_env) (it : Item) : Prop :=
  | discovery_raises x :
      ChooseTargetAndUpload.targets_reply (ChooseTargetAndUpload.selection a) = Raise x →
      failure a it
  | probe_raises targets before t after x :
      ChooseTargetAndUpload.targets_reply (ChooseTargetAndUpload.selection a) = Ok targets →
      ChooseTargetAndUpload.shuffle (ChooseTargetAndUpload.selection a) targets
      = before ++ t :: after →
      (∀ t', t' ∈ before →
             probe_candidate (ChooseTargetAndUpload.selection a) it t' = Ok false) →
      probe_candidate (ChooseTargetAndUpload.selection a) it t = Raise x →
      failure a it
  | none_accepts targets :
      ChooseTargetAndUpload.targets_reply (ChooseTargetAndUpload.selection a) = Ok targets →
      (∀ t', t' ∈ ChooseTargetAndUpload.shuffle (ChooseTargetAndUpload.selection a) targets →
             probe_candidate (ChooseTargetAndUpload.selection a) it t' = Ok false) →
      failure a it
  | transfer_fails :
      (∀ t, ChooseTargetAndUpload.launch (ChooseTargetAndUpload.selection a) t = Ok ()) →
      ChooseTargetAndUpload.rsync_succeeds a = false →
      failure a it.

(** The result of the scan and the probes it sends, as functions of
    the candidates. *)
Fixpoint select (e : ChooseTargetAndUpload.env) (it : Item)
    (targets : list string) : result (option string) :=
  match targets with
  | [] => Ok None
  | target :: rest =>
      accepts ← probe_candidate e it target;
      if accepts : bool then
        downloader ← item_downloader it;
        Ok (Some (Py.replace ":downloader" downloader target))
      else select e it rest
  end.

Fixpoint probes_sent (e : ChooseTargetAndUpload.env) (it : Item)
    (targets : list string) : list event :=
  match targets with
  | [] => []
  | target :: rest =>
      probe_event e it target
      ++ match probe_candidate e it target with
         | Ok false => probes_sent e it rest
         | _ => []
         end
  end.

(** What [find_target] returns. *)
Definition selected (e : ChooseTargetAndUpload.env) (it : Item)
    : result (option string) :=
  targets ← ChooseTargetAndUpload.targets_reply e;
  select e it (ChooseTargetAndUpload.shuffle e targets).

(** An attempt succeeds when a target is selected, the inner task
    starts and the transfer succeeds. *)
Definition success (a : ChooseTargetAndUpload.attempt_env) (it : Item) : Prop :=
  (∃ tgt, selected (ChooseTargetAndUpload.selection a) it = Ok (Some tgt))
  ∧ (∀ t, ChooseTargetAndUpload.launch (ChooseTargetAndUpload.selection a) t = Ok ())
  ∧ ChooseTargetAndUpload.rsync_succeeds a = true.

(** The number of attempts a list of requests shows: each attempt
    starts with one request for the targets. *)
Fixpoint attempts (net : list event) : nat :=
  match net with
  | [] => 0
  | EvGet url :: net' =>
      (if String.eqb url ChooseTargetAndUpload.targets_url then 1 else 0) + attempts net'
  | _ :: net' => attempts net'
  end.

(** Attempts for the scenario: the tracker is down; no receiver has
    room; [b.example] has room and the transfer fails; [b.example] has
    room and the transfer succeeds. *)
Module RetryScenario.

Definition tracker_down : ChooseTargetAndUpload.attempt_env :=
  {| ChooseTargetAndUpload.selection := UploadScenario.tracker_down;
     ChooseTargetAndUpload.rsync_succeeds := true;
     ChooseTargetAndUpload.duration := 0 |}.

Definition all_full : ChooseTargetAndUpload.attempt_env :=
  {| ChooseTargetAndUpload.selection := UploadScenario.receivers "nobody";
     ChooseTargetAndUpload.rsync_succeeds := true;
     ChooseTargetAndUpload.duration := 0 |}.

Definition rsync_fails : ChooseTargetAndUpload.attempt_env :=
  {| ChooseTargetAndUpload.selection := UploadScenario.receivers "b.example";
     ChooseTargetAndUpload.rsync_succeeds := false;
     ChooseTargetAndUpload.duration := 7 |}.

Definition rsync_works : ChooseTargetAndUpload.attempt_env :=
  {| ChooseTargetAndUpload.selection := UploadScenario.receivers "b.example";
     ChooseTargetAndUpload.rsync_succeeds := true;
     ChooseTargetAndUpload.duration := 7 |}.

End RetryScenario.

(** ** WgetArgs

    [WgetArgs.realize] runs between staging and the fetch: it asks
    [ZstdDict] for the dictionary, writes it into the staging
    directory, records the dictionary in the item, reads the fields of
    the identifier and returns the argument list of the fetcher. *)

(** [posixpath.join(a, b)] for two components. *)
Definition ends_with_slash (s : string) : bool :=
  match String.get (String.length s - 1) s with
  | Some c => Ascii.eqb c "/"
  | None => false
  end.

Definition path_join (a b : string) : string :=
  if String.prefix "/" b then b
  else if String.eqb a "" || ends_with_slash a then a +:+ b
  else a +:+ "/" +:+ b.

(** [s.split(sep, n)]: at most [n] splits, the rest of the string is
    the last field. *)
Fixpoint split_max (sep : ascii) (n : nat) (s : string) : list string :=
  match s with
  | "" => [""]
  | String c s' =>
      match n with
      | O => [s]
      | S k =>
          if Ascii.eqb c sep then "" :: split_max sep k s'
          else match split_max sep n s' with
               | field :: fields => String c field :: fields
               | [] => [String c ""]
               end
      end
  end.

(** [with open(p, 'wb') as f: f.write(content)] *)
Definition write_bytes (p : string) (content : list byte) (fs : FS) : result FS :=
  if bool_decide (p ∈ dirs fs) then Raise (IsADirectoryError p)
  else if bool_decide (is_Some (files fs !! parent_dir p)) then Raise (NotADirectoryError p)
  else if parent_exists fs p
  then Ok {| files := <[p := content]> (files fs); dirs := dirs fs |}
  else Raise (FileNotFoundError p).

Module WgetArgs.

Definition VERSION : string := "20210730.02".
Definition USER_AGENT : string := "Archive Team".

(** The state of the step: the world of the item, and the class
    attributes of [ZstdDict]. *)
Record state : Type := {
  world : World;
  dict_cache : ZstdDict.cache
}.

(** What the step gets from outside: the path of the fetcher found at
    import time ([WGET_AT]), the global [bind_address] when there is
    one, and what [ZstdDict.get_dict] is answered. *)
Record env : Type := {
  wget_at : string;
  bind_address : option string;
  dict_env : ZstdDict.env
}.

Definition in_world {A} (m : M A) : ST state A := λ s,
  let '(r, w') := m (world s) in
  (r, {| world := w'; dict_cache := dict_cache s |}).

Definition in_cache {A} (m : ST ZstdDict.cache A) : ST state A := λ s,
  let '(r, c') := m (dict_cache s) in
  (r, {| world := world s; dict_cache := c' |}).

(** An argument is a string or an [ItemInterpolation]; both are
    formatted against the item when the list is realized. *)
Definition plain (s : string) : list piece := [Lit s].

Definition base_args (wget_at : string) : list (list piece) :=
  [plain wget_at;
   plain "-U"; plain USER_AGENT;
   plain "-nv";
   plain "--no-cookies";
   plain "--content-on-error";
   plain "--lua-script"; plain "github.lua";
   plain "-o"; [Key "item_dir"; Lit "/wget.log"];
   plain "--no-check-certificate";
   plain "--output-document"; [Key "item_dir"; Lit "/wget.tmp"];
   plain "--truncate-output";
   plain "-e"; plain "robots=off";
   plain "--rotate-dns";
   plain "--recursive"; plain "--level=inf";
   plain "--no-parent";
   plain "--page-requisites";
   plain "--timeout"; plain "30";
   plain "--tries"; plain "inf";
   plain "--domains"; plain "github.com";
   plain "--span-hosts";
   plain "--waitretry"; plain "30";
   plain "--warc-file"; [Key "item_dir"; Lit "/"; Key "warc_file_base"];
   plain "--warc-header"; plain "operator: Archive Team";
   plain "--warc-header"; plain ("github-dld-script-version: " +:+ VERSION);
   plain "--warc-header"; [Lit "github-item: "; Key "item_name"];
   plain "--warc-dedup-url-agnostic";
   plain "--warc-compression-use-zstd";
   plain "--warc-zstd-dict-no-include"].

Definition dict_args : list (list piece) :=
  [plain "--warc-zstd-dict"; [Key "item_dir"; Lit "/zstdict"]].

Definition web_args (item_value : string) : list (list piece) :=
  [plain "--warc-header"; plain ("github-repo-web: " +:+ item_value);
   plain ("https://github.com/" +:+ item_value)].

Definition bind_args (address : option string) : list (list piece) :=
  match address with
  | Some a => [plain "--bind-address"; plain a]
  | None => []
  end.

(** [item_type, item_config, item_value = item_name.split(':', 2)] *)
Definition unpack3 (l : list string) : result (string * string * string) :=
  match l with
  | [a; b; c] => Ok (a, b, c)
  | _ => Raise (ValueError "not enough values to unpack")
  end.

(** [realize(wget_args, item)] of seesaw: each argument formatted
    against the item. *)
Fixpoint realize_args (args : list (list piece)) (it : Item) : result (list string) :=
  match args with
  | [] => Ok []
  | a :: rest => s ← format a it; l ← realize_args rest it; Ok (s :: l)
  end.

Definition realize_on (args : list (list piece)) : ST state (list string) :=
  λ s, (realize_args args (item (world s)), s).

Definition realize (e : env) : ST state (list string) :=
  let wget_args := base_args (wget_at e) in
  dict_data ← in_cache (ZstdDict.get_dict (dict_env e));
  item_dir ← in_world (read_item "item_dir");
  let dict_path := path_join item_dir "zstdict" in
  in_world (syscall (EvCreate dict_path)
              (write_bytes dict_path (ZstdDict.dict dict_data)));;
  in_world (write_item "dict_id" (ZstdDict.id dict_data));;
  in_world (write_item "dict_project" "github");;
  let wget_args := wget_args ++ dict_args in
  item_name ← in_world (read_item "item_name");
  '(item_type, item_config, item_value) ← lift (unpack3 (split_max ":" 2 item_name));
  in_world (write_item "item_type" item_type);;
  in_world (write_item "item_value" item_value);;
  in_world (write_item "item_config" item_config);;
  assert (String.eqb item_config "initial" || String.eqb item_config "complete");;
  let wget_args :=
    if String.eqb item_type "web" then wget_args ++ web_args item_value
    else wget_args in
  let wget_args := wget_args ++ bind_args (bind_address e) in
  realize_on wget_args.

End WgetArgs.

(** ** get_hash *)

(** [open(filename, 'rb').read()]: the bytes of a regular file; a
    directory cannot be opened for reading, a name below a regular
    file is no path, and any other name is not found. *)
Definition read_bytes (filename : string) (fs : FS) : result (list byte) :=
  match files fs !! filename with
  | Some content => Ok content
  | None =>
      if bool_decide (filename ∈ dirs fs) then Raise (IsADirectoryError filename)
      else if bool_decide (Exists (λ a, is_Some (files fs !! a)) (ancestors filename))
      then Raise (NotADirectoryError filename)
      else Raise (FileNotFoundError filename)
  end.

(** [hashlib.sha1(open(filename, 'rb').read()).hexdigest()] *)
Definition get_hash (filename : string) (fs : FS) : result string :=
  content ← read_bytes filename fs;
  Ok (Hashlib.sha1_hexdigest content).

(** ** The successive invocations of CheckIP

    The pipeline calls [process] of the one [CheckIP] object for every
    item; the counter is carried from one call to the next, also
    across a call that raised (the item fails, the object stays). *)
Fixpoint check_ip_calls (resolvers : list (string → result string)) (counter : Z)
    : list (result unit) * Z :=
  match resolvers with
  | [] => ([], counter)
  | g :: rest =>
      let '(r, counter') := CheckIP.process g counter in
      let '(rs, final) := check_ip_calls rest counter' in
      (r :: rs, final)
  end.

(** The reading of a failed check under which it halts the run: once
    a call has raised, the pipeline makes no further call. *)
Definition failed_check_halts_the_run : Prop :=
  ∀ (g g' : string → result string) (counter : Z),
    raises (CheckIP.process g counter).1 →
    (check_ip_calls [g; g'] counter).1 = [(CheckIP.process g counter).1].

(** A resolver that fails for one name. *)
Definition dns_failing_for (bad : string) (host : string) : result string :=
  if String.eqb host bad then Raise (GaiError host) else Dns.direct host.

(** A data directory in which an earlier run left a staging directory
    with an archive, beside a file of another item. *)
Module StaleScenario.

Definition old_archive : string := "data/web_initial_octocat_Hello-World/old.warc.zst".
Definition other_file : string := "data/keep.txt".

Definition fs0 : FS :=
  {| files := <[old_archive := [x01]]> (<[other_file := [x02]]> ∅);
     dirs := {["data"; "data/web_initial_octocat_Hello-World"]} |}.

Definition world0 : World := {| fs := fs0; item := Scenario.item0; trace := [] |}.

Definition clock_down : PrepareDirectories.env :=
  {| PrepareDirectories.strftime := "20210730-120000";
     PrepareDirectories.now_reply := Ok {| status_code := 502; text := "" |} |}.

End StaleScenario.

(** Worlds the finalizer can meet: the sidecar never written, and an
    item on which [WgetArgs.realize] did not set the dictionary
    fields. *)
Module PartialScenario.

Definition sidecar : string := Scenario.item_dir +:+ "/" +:+ Scenario.base +:+ "_data.txt".

Definition no_sidecar : World :=
  {| fs := {| files := delete sidecar (files (fs Scenario.fetched));
              dirs := dirs (fs Scenario.fetched) |};
     item := item Scenario.fetched;
     trace := trace Scenario.fetched |}.

Definition no_dictionary : World :=
  {| fs := fs Scenario.fetched;
     item := item Scenario.staged;
     trace := trace Scenario.fetched |}.

End PartialScenario.

(** A dictionary service that delivers a Zstandard frame, and a
    decompressor that knows this one frame. *)
Module CompressedScenario.

Definition frame : list byte := ZstdDict.zstd_magic ++ [x10; x20].

Definition unpacked : list byte := [x0a; x0b; x0c; x0d].

Definition service : ZstdDict.env :=
  {| ZstdDict.time_at_test := 5;
     ZstdDict.time_at_update := 6;
     ZstdDict.meta_reply :=
       Ok {| ZstdDict.status := 200;
             ZstdDict.body := Ok (DictScenario.meta "78" (Hashlib.sha256_hexdigest frame)) |};
     ZstdDict.payload_reply := λ _, Ok {| ZstdDict.status := 200; ZstdDict.body := frame |};
     ZstdDict.decompress :=
       λ raw, if bool_decide (raw = frame) then Ok unpacked else Raise ZstdError |}.

End CompressedScenario.

(** The arguments that depend on the identifier and on the
    configuration. *)
Definition realize_tail (e : WgetArgs.env) (item_type item_value : string)
    : list (list piece) :=
  (if String.eqb item_type "web" then WgetArgs.web_args item_value else [])
  ++ WgetArgs.bind_args (WgetArgs.bind_address e).

(** The state in which [WgetArgs.realize] runs after staging, with a
    dictionary in the cache that is still fresh. *)
Module FetchScenario.

Definition env0 : WgetArgs.env :=
  {| WgetArgs.wget_at := "./wget-at";
     WgetArgs.bind_address := None;
     WgetArgs.dict_env := DictScenario.service 2000 "77" DictScenario.digest_of_payload |}.

Definition state0 : WgetArgs.state :=
  {| WgetArgs.world := Scenario.staged; WgetArgs.dict_cache := DictScenario.cached |}.

(** The same state for an item with another identifier. *)
Definition named (item_name : string) : WgetArgs.state :=
  {| WgetArgs.world :=
       {| fs := fs Scenario.staged;
          item := item_set "item_name" item_name (item Scenario.staged);
          trace := trace Scenario.staged |};
     WgetArgs.dict_cache := DictScenario.cached |}.

End FetchScenario.

(** Receivers of which one does not answer its probe, and the others
    accept or decline as [accepting] says. *)
Module ProbeScenario.

Definition receivers (failing : string) (accepting : string → bool)
    : ChooseTargetAndUpload.env :=
  {| ChooseTargetAndUpload.targets_reply := Ok UploadScenario.targets;
     ChooseTargetAndUpload.shuffle := @rev string;
     ChooseTargetAndUpload.getsize := λ p, Os.getsize p (fs UploadScenario.finalized);
     ChooseTargetAndUpload.probe :=
       λ domain _ _,
         if String.eqb domain failing then Raise RequestException
         else Ok (accepting domain);
     ChooseTargetAndUpload.launch := λ _, Ok () |}.

(** [c.example] declines, [b.example] does not answer, [a.example]
    would accept. *)
Definition b_silent : ChooseTargetAndUpload.env :=
  receivers "b.example" (String.eqb "a.example").

(** [c.example] declines, the two others accept. *)
Definition two_accept : ChooseTargetAndUpload.env :=
  receivers "nobody" (λ domain, negb (String.eqb domain "c.example")).

(** [b.example] accepts, and the inner task cannot be started. *)
Definition no_launch : ChooseTargetAndUpload.env :=
  {| ChooseTargetAndUpload.targets_reply := Ok UploadScenario.targets;
     ChooseTargetAndUpload.shuffle := @rev string;
     ChooseTargetAndUpload.getsize := λ p, Os.getsize p (fs UploadScenario.finalized);
     ChooseTargetAndUpload.probe := λ domain _ _, Ok (String.eqb domain "b.example");
     ChooseTargetAndUpload.launch := λ _, Raise (Exception "cannot start rsync") |}.

(** The finalized item before [PrepareStatsForTracker] set [stats]. *)
Definition no_stats : Item :=
  {| fields := fields (item UploadScenario.finalized); stats := None |}.

Definition loop0 : ChooseTargetAndUpload.loop :=
  {| ChooseTargetAndUpload.now := 100;
     ChooseTargetAndUpload.timeouts := [];
     ChooseTargetAndUpload.started := [];
     ChooseTargetAndUpload.completed := [];
     ChooseTargetAndUpload.failed := [];
     ChooseTargetAndUpload.net := [] |}.

End ProbeScenario.
(** * Properties *)

(** ** The string methods on small inputs *)

Example replace_overlap : Py.replace "aa" "b" "aaa" = "ba".
Proof. reflexivity. Qed.
Example replace_empty_old : Py.replace "" "-" "abc" = "-a-b-c-".
Proof. reflexivity. Qed.
Example split_fields : Py.split ":" "a:b::c" = ["a"; "b"; ""; "c"].
Proof. reflexivity. Qed.
Example split_empty : Py.split ":" "" = [""].
Proof. reflexivity. Qed.
Example join_fields : Py.join ":" ["web"; "1627"; "x"] = "web:1627:x".
Proof. reflexivity. Qed.

(** ** The domain of a target on small inputs *)

Example domain_of_rsync_url :
  ChooseTargetAndUpload.extract_domain "rsync://host.example/mod/:downloader/"
  = Ok "host.example".
Proof. reflexivity. Qed.

Example domain_stops_at_port :
  ChooseTargetAndUpload.extract_domain "rsync://h:873/x" = Ok "h".
Proof. reflexivity. Qed.

Example domain_needs_scheme :
  ChooseTargetAndUpload.extract_domain "://x" = Raise AttributeError.
Proof. reflexivity. Qed.

Example domain_needs_host :
  ChooseTargetAndUpload.extract_domain "a:///x" = Raise AttributeError.
Proof. reflexivity. Qed.

Example domain_first_colon :
  ChooseTargetAndUpload.extract_domain "a:b://c" = Raise AttributeError.
Proof. reflexivity. Qed.

Example downloader_substituted :
  Py.replace ":downloader" "alice" "rsync://h/github/:downloader/"
  = "rsync://h/github/alice/".
Proof. reflexivity. Qed.

(** ** The digests on known inputs *)

Example sha1_abc :
  Hashlib.sha1_hexdigest (encode_utf8 "abc") = "a9993e364706816aba3e25717850c26c9cd0d89d".
Proof. vm_compute. reflexivity. Qed.

Example sha1_octocat :
  Hashlib.sha1_hexdigest (encode_utf8 "web:initial:octocat/Hello-World")
  = "bdecc2d26e887bf3764fd30ce9b964093b03f503".
Proof. vm_compute. reflexivity. Qed.

Example sha256_round_constants :
  firstn 4 Hashlib.sha256_k = [0x428a2f98; 0x71374491; 0xb5c0fbcf; 0xe9b5dba5]%Z
  ∧ nth 63 Hashlib.sha256_k 0%Z = 0xc67178f2%Z.
Proof. vm_compute. split; reflexivity. Qed.

Example sha256_abc :
  Hashlib.sha256_hexdigest (encode_utf8 "abc")
  = "ba7816bf8f01cfea414140de5dae2223b00361a396177a9cb410ff61f20015ad".
Proof. vm_compute. reflexivity. Qed.

(** ** Strings *)

Lemma length_append (a b : string) :
  String.length (a +:+ b) = String.length a + String.length b.
Proof. induction a as [|c a IH]; simpl; [reflexivity | now rewrite IH]. Qed.

Lemma length_take (n : nat) (s : string) :
  String.length (Py.take n s) = Nat.min n (String.length s).
Proof.
  revert s; induction n as [|n IH]; intros [|c s]; simpl; try reflexivity.
  now rewrite IH.
Qed.

Lemma length_map_chars f (s : string) :
  String.length (map_chars f s) = String.length s.
Proof. induction s as [|c s IH]; simpl; [reflexivity | now rewrite IH]. Qed.

Lemma all_chars_append p (a b : string) :
  all_chars p (a +:+ b) = all_chars p a && all_chars p b.
Proof.
  induction a as [|c a IH]; simpl; [reflexivity|].
  rewrite IH. now rewrite andb_assoc.
Qed.

Lemma all_chars_take p n (s : string) :
  all_chars p s = true → all_chars p (Py.take n s) = true.
Proof.
  revert s; induction n as [|n IH]; intros [|c s]; simpl; try reflexivity.
  intros [Hc Hs]%andb_prop. rewrite Hc. simpl. now apply IH.
Qed.

(** Replacing one character by one character maps the string
    character by character. *)
Lemma replace_char (c d : ascii) (s : string) :
  Py.replace (String c "") (String d "") s
  = map_chars (λ x, if Ascii.eqb x c then d else x) s.
Proof.
  unfold Py.replace.
  induction s as [|a s IH]; [reflexivity|].
  cbn [Py.replace_from map_chars String.prefix String.length].
  destruct (ascii_dec c a) as [->|Hne].
  - rewrite Ascii.eqb_refl.
    replace (String.prefix "" s) with true by (now destruct s).
    cbn. now rewrite IH.
  - replace (Ascii.eqb a c) with false
      by (symmetry; apply Ascii.eqb_neq; congruence).
    now rewrite IH.
Qed.

Lemma map_chars_compose f g (s : string) :
  map_chars f (map_chars g s) = map_chars (λ x, f (g x)) s.
Proof. induction s as [|a s IH]; simpl; [reflexivity | now rewrite IH]. Qed.

Lemma map_chars_ext f g (s : string) :
  (∀ x, f x = g x) → map_chars f s = map_chars g s.
Proof. intros H. induction s as [|a s IH]; simpl; [reflexivity | now rewrite H, IH]. Qed.

Lemma contains_map_chars c f (s : string) :
  (∀ x, Ascii.eqb c (f x) = false) → Py.contains c (map_chars f s) = false.
Proof.
  intros H. induction s as [|a s IH]; simpl; [reflexivity|].
  now rewrite H, IH.
Qed.

Lemma escape_item_name_map (name : string) :
  escape_item_name name = map_chars sanitize_char name.
Proof.
  unfold escape_item_name. rewrite !replace_char, !map_chars_compose.
  apply map_chars_ext. intros x. unfold sanitize_char, path_hostile.
  destruct (Ascii.eqb x ":") eqn:E1; [reflexivity|].
  destruct (Ascii.eqb x "/") eqn:E2; [reflexivity|].
  destruct (Ascii.eqb x "~") eqn:E3; reflexivity.
Qed.

Lemma sanitize_char_safe (x : ascii) : path_hostile (sanitize_char x) = false.
Proof.
  unfold sanitize_char. destruct (path_hostile x) eqn:E; [reflexivity | exact E].
Qed.

(** ** Running code in [ST] *)

Lemma bind_run {S A B} (m : ST S A) (k : A → ST S B) (s : S) :
  (m ≫= k) s = match m s with
               | (Ok a, s1) => k a s1
               | (Raise e, s1) => (Raise e, s1)
               end.
Proof. reflexivity. Qed.

Lemma bind_ok {S A B} (m : ST S A) (k : A → ST S B) (s s' : S) (b : B) :
  (m ≫= k) s = (Ok b, s') → ∃ a s1, m s = (Ok a, s1) ∧ k a s1 = (Ok b, s').
Proof.
  rewrite bind_run. destruct (m s) as [[a|e] s1]; [eauto | discriminate].
Qed.

Lemma result_bind_ok {A B} (r : result A) (k : A → result B) (b : B) :
  (r ≫= k) = Ok b → ∃ a, r = Ok a ∧ k a = Ok b.
Proof. destruct r as [a|e]; [eauto | discriminate]. Qed.

Lemma syscall_ok ev op (w w' : World) (u : unit) :
  syscall ev op w = (Ok u, w') →
  ∃ fs', op (fs w) = Ok fs'
         ∧ w' = {| fs := fs'; item := item w; trace := trace w ++ [ev] |}.
Proof.
  unfold syscall. destruct (op (fs w)) as [fs'|e]; [|discriminate].
  intros [= _ <-]. eauto.
Qed.

Lemma assert_ok {S} (b : bool) (s s' : S) (u : unit) :
  assert b s = (Ok u, s') → b = true ∧ s' = s.
Proof. destruct b; cbn; [intros [= _ <-]; auto | discriminate]. Qed.

(** Peels the binds of a run that returned. *)
Ltac run_ok H :=
  repeat match type of H with
    | (_ ≫= _) _ = (Ok _, _) =>
        let a := fresh "a" in let s1 := fresh "w" in let H1 := fresh "Hstep" in
        apply bind_ok in H; destruct H as (a & s1 & H1 & H)
    end.

Lemma mret_ok {S A} (a b : A) (s s' : S) :
  (mret a : ST S A) s = (Ok b, s') → b = a ∧ s' = s.
Proof. intros [= -> ->]. auto. Qed.

Lemma lift_ok {S A} (r : result A) (a : A) (s s' : S) :
  lift r s = (Ok a, s') → r = Ok a ∧ s' = s.
Proof. intros [= -> ->]. auto. Qed.

Lemma read_item_ok k (w w' : World) v :
  read_item k w = (Ok v, w') → fields (item w) !! k = Some v ∧ w' = w.
Proof.
  unfold read_item, item_get. destruct (fields (item w) !! k); cbn; [|discriminate].
  intros [= -> <-]. auto.
Qed.

Lemma write_item_ok k v (w w' : World) (u : unit) :
  write_item k v w = (Ok u, w')
  → w' = {| fs := fs w; item := item_set k v (item w); trace := trace w |}.
Proof. intros H. inversion H. reflexivity. Qed.

Lemma fmt_ok t (w w' : World) v :
  fmt t w = (Ok v, w') → format t (item w) = Ok v ∧ w' = w.
Proof. unfold fmt. intros [= -> <-]. auto. Qed.

Lemma test_isdir_ok d (w w' : World) b :
  test_isdir d w = (Ok b, w') → b = Os.isdir d (fs w) ∧ w' = w.
Proof. intros [= <- <-]. auto. Qed.

Lemma request_ok ev reply (w w' : World) r :
  request ev reply w = (Ok r, w')
  → reply = Ok r ∧ w' = {| fs := fs w; item := item w; trace := trace w ++ [ev] |}.
Proof. intros [= -> <-]. auto. Qed.

(** ** Formatting the paths *)

Lemma format_staged (suffix : string) (it : Item) (d b : string) :
  fields it !! "item_dir" = Some d →
  fields it !! "warc_file_base" = Some b →
  format [Key "item_dir"; Lit "/"; Key "warc_file_base"; Lit suffix] it
  = Ok (d +:+ "/" +:+ b +:+ suffix +:+ "").
Proof.
  intros Hd Hb. cbn [format]. unfold item_get. rewrite Hd, Hb. reflexivity.
Qed.

Lemma format_staged_inv (suffix : string) (it : Item) (p : string) :
  format [Key "item_dir"; Lit "/"; Key "warc_file_base"; Lit suffix] it = Ok p →
  ∃ d b, fields it !! "item_dir" = Some d
         ∧ fields it !! "warc_file_base" = Some b
         ∧ p = d +:+ "/" +:+ b +:+ suffix +:+ "".
Proof.
  cbn [format]. unfold item_get.
  destruct (fields it !! "item_dir") as [d|]; [|discriminate].
  destruct (fields it !! "warc_file_base") as [b|]; [|discriminate].
  cbn. intros [= <-]. eauto.
Qed.

Lemma append_cons (c : ascii) (s t : string) :
  String c s +:+ t = String c (s +:+ t).
Proof. reflexivity. Qed.

Lemma append_empty_r (s : string) : s +:+ "" = s.
Proof.
  induction s as [|c s IH]; [reflexivity | now rewrite append_cons, IH].
Qed.

Lemma append_assoc (a b c : string) : (a +:+ b) +:+ c = a +:+ b +:+ c.
Proof.
  induction a as [|x a IH]; [reflexivity | now rewrite !append_cons, IH].
Qed.

Lemma append_inj_l (a x y : string) : a +:+ x = a +:+ y → x = y.
Proof.
  induction a as [|c a IH]; [auto | rewrite !append_cons; intros [= H]; auto].
Qed.

Lemma prefix_append (a b : string) : String.prefix a (a +:+ b) = true.
Proof.
  induction a as [|c a IH]; [now destruct b|].
  rewrite append_cons. cbn [String.prefix].
  destruct (ascii_dec c c); [exact IH | congruence].
Qed.

Lemma under_child (d name : string) : under d (d +:+ "/" +:+ name) = true.
Proof. unfold under. rewrite <- append_assoc. apply prefix_append. Qed.

(** ** PrepareDirectories *)

Lemma prepare_ok prefix e (w w' : World) :
  PrepareDirectories.process prefix e w = (Ok (), w') →
  ∃ name data_dir fs1 fs2 fs3 fs4 r,
    fields (item w) !! "item_name" = Some name
    ∧ fields (item w) !! "data_dir" = Some data_dir
    ∧ let dirname := data_dir +:+ "/" +:+ escape_item_name name in
      let base := warc_file_base prefix name (PrepareDirectories.strftime e) in
      (if Os.isdir dirname (fs w) then Os.rmtree dirname (fs w) else Ok (fs w)) = Ok fs1
      ∧ Os.makedirs dirname fs1 = Ok fs2
      ∧ Os.create_empty (dirname +:+ "/" +:+ base +:+ ".warc.gz") fs2 = Ok fs3
      ∧ Os.create_empty (dirname +:+ "/" +:+ base +:+ "_data.txt") fs3 = Ok fs4
      ∧ PrepareDirectories.now_reply e = Ok r
      ∧ status_code r = 200%Z
      ∧ fs w' = fs4
      ∧ item w' = item_set "start_time" (hd "" (Py.split "." (text r)))
                    (item_set "warc_file_base" base
                       (item_set "item_dir" dirname (item w))).
Proof.
  intros H. unfold PrepareDirectories.process in H. run_ok H.
  apply read_item_ok in Hstep as [Hname ->].
  apply read_item_ok in Hstep0 as [Hdir ->].
  apply test_isdir_ok in Hstep1 as [-> ->].
  cbn [Py.join] in *.
  set (dirname := a0 +:+ "/" +:+ escape_item_name a) in *.
  set (base := warc_file_base prefix a (PrepareDirectories.strftime e)) in *.
  assert (∃ fs1, (if Os.isdir dirname (fs w) then Os.rmtree dirname (fs w) else Ok (fs w)) = Ok fs1
                 ∧ fs w3 = fs1 ∧ item w3 = item w) as (fs1 & Hfs1 & Efs1 & Eit1).
  { destruct (Os.isdir dirname (fs w)).
    - apply syscall_ok in Hstep2 as (fs' & Hop & ->). eauto.
    - apply mret_ok in Hstep2 as [_ ->]. eauto. }
  clear Hstep2.
  apply syscall_ok in Hstep3 as (fs2 & Hmk & ->). rewrite Efs1 in Hmk.
  apply write_item_ok in Hstep4 as ->. apply write_item_ok in Hstep5 as ->.
  apply fmt_ok in Hstep6 as [Hf6 ->].
  apply syscall_ok in Hstep7 as (fs3 & Hc1 & ->).
  apply fmt_ok in Hstep8 as [Hf8 ->].
  apply syscall_ok in Hstep9 as (fs4 & Hc2 & ->).
  apply request_ok in Hstep10 as [Hr ->].
  apply assert_ok in Hstep11 as [Hst ->].
  apply write_item_ok in H as ->.
  cbn [fs item trace] in *.
  unfold placeholder_warc in Hf6. unfold staged_data in Hf8.
  erewrite format_staged in Hf6, Hf8
    by (cbn [item_set fields]; simplify_map_eq; reflexivity).
  rewrite append_empty_r in Hf6, Hf8.
  injection Hf6 as <-. injection Hf8 as <-.
  exists a, a0, fs1, fs2, fs3, fs4, a10.
  rewrite Eit1. apply Z.eqb_eq in Hst. auto 12.
Qed.

(** ** The digests are 40 and 64 hexadecimal digits *)

Lemma hex_digit_is_hex (d : Z) :
  (0 ≤ d < 16)%Z → is_hex_digit (Hashlib.hex_digit d) = true.
Proof.
  intros Hd.
  assert (∃ n, d = Z.of_nat n ∧ n < 16) as (n & -> & Hn)
    by (exists (Z.to_nat d); lia).
  clear Hd. do 16 (destruct n as [|n]; [reflexivity|]). lia.
Qed.

Lemma hex8_length (w : Z) : String.length (Hashlib.hex8 w) = 8.
Proof. reflexivity. Qed.

Lemma hex8_is_hex (w : Z) : all_chars is_hex_digit (Hashlib.hex8 w) = true.
Proof.
  unfold Hashlib.hex8.
  cbn [rev seq app map string_of_list_ascii all_chars].
  rewrite !hex_digit_is_hex by (apply Z.mod_pos_bound; lia).
  reflexivity.
Qed.

Lemma sha1_hexdigest_length (msg : list byte) :
  String.length (Hashlib.sha1_hexdigest msg) = 40.
Proof.
  unfold Hashlib.sha1_hexdigest.
  destruct (fold_left _ _ _) as [[[[a b] c] d] e].
  rewrite !length_append, !hex8_length. reflexivity.
Qed.

Lemma sha1_hexdigest_is_hex (msg : list byte) :
  all_chars is_hex_digit (Hashlib.sha1_hexdigest msg) = true.
Proof.
  unfold Hashlib.sha1_hexdigest.
  destruct (fold_left _ _ _) as [[[[a b] c] d] e].
  rewrite !all_chars_append, !hex8_is_hex. reflexivity.
Qed.
(** ** C6 *)

Lemma makedirs_ok d (fs1 fs2 : FS) :
  Os.makedirs d fs1 = Ok fs2 →
  files fs2 = files fs1 ∧ d ∈ dirs fs2.
Proof.
  unfold Os.makedirs. repeat case_bool_decide; try discriminate.
  intros [= <-]. cbn [files dirs]. split; [reflexivity|].
  now apply elem_of_union_l, elem_of_union_l, elem_of_singleton.
Qed.

Lemma create_empty_ok p (fs1 fs2 : FS) :
  Os.create_empty p fs1 = Ok fs2 →
  files fs2 = <[p := []]> (files fs1) ∧ dirs fs2 = dirs fs1.
Proof.
  unfold Os.create_empty. repeat case_bool_decide; try discriminate.
  destruct (parent_exists fs1 p); [|discriminate].
  intros [= <-]. auto.
Qed.

(** C6: the staging directory is [data_dir/escaped] where [escaped] is
    the identifier with every [:], [/] and [~] replaced by [_], so
    the directory name [escaped] contains none of the three
    characters; a run of the task that returns has stored that path
    as [item_dir] and the directory exists. *)
Theorem staging_directory_name_is_safe (name : string) :
  let escaped := escape_item_name name in
  escaped = map_chars sanitize_char name
  ∧ Py.contains ":" escaped = false
  ∧ Py.contains "/" escaped = false
  ∧ Py.contains "~" escaped = false
  ∧ ∀ prefix e (w : World),
      fields (item w) !! "item_name" = Some name →
      (PrepareDirectories.process prefix e w).1 = Ok () →
      let w' := (PrepareDirectories.process prefix e w).2 in
      ∃ data_dir,
        fields (item w) !! "data_dir" = Some data_dir
        ∧ fields (item w') !! "item_dir" = Some (data_dir +:+ "/" +:+ escaped)
        ∧ Os.isdir (data_dir +:+ "/" +:+ escaped) (fs w') = true.
Proof.
  cbn zeta. rewrite escape_item_name_map.
  assert (∀ c, path_hostile c = true →
               Py.contains c (map_chars sanitize_char name) = false) as Hsafe.
  { intros c Hc. apply contains_map_chars. intros x.
    apply Ascii.eqb_neq. intros ->.
    now rewrite sanitize_char_safe in Hc. }
  split; [reflexivity|].
  repeat (split; [now apply Hsafe|]).
  intros prefix e w Hname Hrun.
  destruct (PrepareDirectories.process prefix e w) as [res w'] eqn:Hp.
  cbn [fst snd] in *. subst res.
  apply prepare_ok in Hp
    as (name' & data_dir & fs1 & fs2 & fs3 & fs4 & r & Hname' & Hdir & Hrun).
  cbn zeta in Hrun.
  destruct Hrun as (_ & Hmk & Hc1 & Hc2 & _ & _ & Hfs & Hitem).
  assert (name' = name) as -> by congruence.
  rewrite escape_item_name_map in *.
  exists data_dir. split; [exact Hdir|]. split.
  - rewrite Hitem. cbn [item_set fields]. now simplify_map_eq.
  - apply makedirs_ok in Hmk as [_ Hin].
    apply create_empty_ok in Hc1 as [_ Hd1].
    apply create_empty_ok in Hc2 as [_ Hd2].
    unfold Os.isdir. rewrite Hfs, Hd2, Hd1. now apply bool_decide_eq_true.
Qed.

Lemma staging_directory_name_is_safe_witness :
  Py.contains ":" (escape_item_name "web:initial:octocat/Hello-World") = false
  ∧ fields (item Scenario.staged) !! "item_dir" = Some Scenario.item_dir.
Proof.
  destruct (staging_directory_name_is_safe "web:initial:octocat/Hello-World")
    as (_ & Hcolon & _ & _ & Hrun).
  split; [exact Hcolon|].
  destruct (Hrun "github" Scenario.stage_env Scenario.world0)
    as (data_dir & Hdir & Hitem & _).
  - reflexivity.
  - vm_compute. reflexivity.
  - assert (data_dir = "data") as ->.
    { vm_compute in Hdir. congruence. }
    exact Hitem.
Defined.
(** ** C7 *)

(** C7: the basename is [prefix-name45-hash10-timestamp], where
    [name45] is the first 45 characters of the sanitized identifier and
    [hash10] the first 10 of the 40 hexadecimal digits of the SHA-1
    digest of the identifier; a run of the task that returns has
    stored it as [warc_file_base], so two runs with the same prefix,
    identifier and timestamp store the same basename, whatever else
    differs. *)
Theorem warc_file_base_spec (prefix name ts : string) :
  let digest := Hashlib.sha1_hexdigest (encode_utf8 name) in
  let name45 := Py.take 45 (escape_item_name name) in
  warc_file_base prefix name ts
  = prefix +:+ "-" +:+ name45 +:+ "-" +:+ Py.take 10 digest +:+ "-" +:+ ts
  ∧ String.length name45 = Nat.min 45 (String.length name)
  ∧ String.length (Py.take 10 digest) = 10
  ∧ all_chars is_hex_digit (Py.take 10 digest) = true
  ∧ (∀ e (w : World),
       fields (item w) !! "item_name" = Some name →
       PrepareDirectories.strftime e = ts →
       (PrepareDirectories.process prefix e w).1 = Ok () →
       fields (item (PrepareDirectories.process prefix e w).2) !! "warc_file_base"
       = Some (warc_file_base prefix name ts))
  ∧ (∀ e1 e2 (w1 w2 : World),
       fields (item w1) !! "item_name" = Some name →
       fields (item w2) !! "item_name" = Some name →
       PrepareDirectories.strftime e1 = ts →
       PrepareDirectories.strftime e2 = ts →
       (PrepareDirectories.process prefix e1 w1).1 = Ok () →
       (PrepareDirectories.process prefix e2 w2).1 = Ok () →
       fields (item (PrepareDirectories.process prefix e1 w1).2) !! "warc_file_base"
       = fields (item (PrepareDirectories.process prefix e2 w2).2) !! "warc_file_base").
Proof.
  cbn zeta.
  assert (∀ e (w : World),
       fields (item w) !! "item_name" = Some name →
       PrepareDirectories.strftime e = ts →
       (PrepareDirectories.process prefix e w).1 = Ok () →
       fields (item (PrepareDirectories.process prefix e w).2) !! "warc_file_base"
       = Some (warc_file_base prefix name ts))
    as Hstored.
  { intros e w Hname Hts Hrun.
    destruct (PrepareDirectories.process prefix e w) as [res w'] eqn:Hp.
    cbn [fst snd] in *. subst res.
    apply prepare_ok in Hp
      as (name' & data_dir & fs1 & fs2 & fs3 & fs4 & r & Hname' & Hdir & Hrun).
    cbn zeta in Hrun. destruct Hrun as (_ & _ & _ & _ & _ & _ & _ & Hitem).
    assert (name' = name) as -> by congruence.
    rewrite Hitem, Hts. cbn [item_set fields]. now simplify_map_eq. }
  split; [reflexivity|].
  split; [now rewrite length_take, escape_item_name_map, length_map_chars|].
  split; [now rewrite length_take, sha1_hexdigest_length|].
  split; [apply all_chars_take, sha1_hexdigest_is_hex|].
  split; [exact Hstored|].
  intros e1 e2 w1 w2 Hn1 Hn2 Ht1 Ht2 Hr1 Hr2.
  rewrite (Hstored e1 w1), (Hstored e2 w2); auto.
Qed.

Lemma warc_file_base_spec_witness :
  fields (item Scenario.staged) !! "warc_file_base" = Some Scenario.base.
Proof.
  destruct (warc_file_base_spec "github" "web:initial:octocat/Hello-World"
              "20210730-120000") as (_ & _ & _ & _ & Hstored & _).
  unfold Scenario.staged.
  rewrite (Hstored Scenario.stage_env Scenario.world0).
  - vm_compute. reflexivity.
  - reflexivity.
  - reflexivity.
  - vm_compute. reflexivity.
Defined.
(** ** MoveFiles *)

Lemma fmt_run t (w : World) : fmt t w = (format t (item w), w).
Proof. reflexivity. Qed.

Lemma syscall_run ev op (w : World) fs' :
  op (fs w) = Ok fs' →
  syscall ev op w = (Ok (), {| fs := fs'; item := item w; trace := trace w ++ [ev] |}).
Proof. intros H. unfold syscall. now rewrite H. Qed.

Lemma finalize_run e (w : World) src dst src2 dst2 d name st fs1 fs2 fs3 :
  format staged_warc (item w) = Ok src →
  format final_warc (item w) = Ok dst →
  Os.rename src dst (fs w) = Ok fs1 →
  format staged_data (item w) = Ok src2 →
  format final_data (item w) = Ok dst2 →
  Os.rename src2 dst2 fs1 = Ok fs2 →
  format staging_dir (item w) = Ok d →
  Os.rmtree d fs2 = Ok fs3 →
  item_get "item_name" (item w) = Ok name →
  item_get "start_time" (item w) = Ok st →
  MoveFiles.process e w
  = (queue_outcome (MoveFiles.queue_reply e),
     {| fs := fs3; item := item w;
        trace := trace w ++ [EvRename src dst; EvRename src2 dst2; EvRmtree d;
                             EvPost queue_url (MoveFiles.new_item name st)] |}).
Proof.
  intros Hsrc Hdst Hr1 Hsrc2 Hdst2 Hr2 Hd Hrm Hname Hst.
  unfold MoveFiles.process.
  rewrite bind_run, fmt_run, Hsrc. rewrite bind_run, fmt_run, Hdst.
  rewrite bind_run, (syscall_run _ _ _ fs1) by exact Hr1.
  rewrite bind_run, fmt_run. cbn [item]. rewrite Hsrc2.
  rewrite bind_run, fmt_run. cbn [item]. rewrite Hdst2.
  rewrite bind_run, (syscall_run _ _ _ fs2) by exact Hr2.
  rewrite bind_run, fmt_run. cbn [item]. rewrite Hd.
  rewrite bind_run, (syscall_run _ _ _ fs3) by exact Hrm.
  rewrite bind_run. unfold read_item at 1. cbn [item]. rewrite Hname.
  rewrite bind_run. unfold read_item at 1. cbn [item]. rewrite Hst.
  rewrite bind_run. unfold request. cbn [fs item trace].
  rewrite <- !app_assoc. cbn [app].
  unfold queue_outcome.
  destruct (MoveFiles.queue_reply e) as [r|x]; [|reflexivity].
  destruct (status_code r =? 200)%Z; reflexivity.
Qed.
Lemma syscall_raise ev op (w : World) x :
  op (fs w) = Raise x → syscall ev op w = (Raise x, w).
Proof. intros H. unfold syscall. now rewrite H. Qed.

Lemma read_item_run k (w : World) : read_item k w = (item_get k (item w), w).
Proof. reflexivity. Qed.

Ltac stopped x new :=
  right; exists x, new; cbn [fst snd trace];
  rewrite <- ?app_assoc, ?app_nil_r; repeat split; reflexivity.

(** Every run of the task either performs the four effects in order,
    or stops with an exception before the POST. *)
Lemma finalize_cases e (w : World) :
  (∃ src dst src2 dst2 d name st fs1 fs2 fs3,
     format staged_warc (item w) = Ok src
     ∧ format final_warc (item w) = Ok dst
     ∧ Os.rename src dst (fs w) = Ok fs1
     ∧ format staged_data (item w) = Ok src2
     ∧ format final_data (item w) = Ok dst2
     ∧ Os.rename src2 dst2 fs1 = Ok fs2
     ∧ format staging_dir (item w) = Ok d
     ∧ Os.rmtree d fs2 = Ok fs3
     ∧ item_get "item_name" (item w) = Ok name
     ∧ item_get "start_time" (item w) = Ok st)
  ∨ (∃ x new, (MoveFiles.process e w).1 = Raise x
              ∧ trace (MoveFiles.process e w).2 = trace w ++ new
              ∧ posts new = []).
Proof.
  unfold MoveFiles.process.
  rewrite bind_run, fmt_run.
  destruct (format staged_warc (item w)) as [src|x] eqn:Hsrc;
    [|stopped x ([] : list event)].
  rewrite bind_run, fmt_run.
  destruct (format final_warc (item w)) as [dst|x] eqn:Hdst;
    [|stopped x ([] : list event)].
  rewrite bind_run.
  destruct (Os.rename src dst (fs w)) as [fs1|x] eqn:Hr1;
    [rewrite (syscall_run _ _ _ fs1) by exact Hr1
    |rewrite (syscall_raise _ _ _ x) by exact Hr1;
     stopped x ([] : list event)].
  rewrite bind_run, fmt_run. cbn [item].
  destruct (format staged_data (item w)) as [src2|x] eqn:Hsrc2;
    [|stopped x ([EvRename src dst] : list event)].
  rewrite bind_run, fmt_run. cbn [item].
  destruct (format final_data (item w)) as [dst2|x] eqn:Hdst2;
    [|stopped x ([EvRename src dst] : list event)].
  rewrite bind_run.
  destruct (Os.rename src2 dst2 fs1) as [fs2|x] eqn:Hr2;
    [rewrite (syscall_run _ _ _ fs2) by exact Hr2
    |rewrite (syscall_raise _ _ _ x) by exact Hr2;
     stopped x ([EvRename src dst] : list event)].
  rewrite bind_run, fmt_run. cbn [item].
  destruct (format staging_dir (item w)) as [d|x] eqn:Hd;
    [|stopped x ([EvRename src dst; EvRename src2 dst2] : list event)].
  rewrite bind_run.
  destruct (Os.rmtree d fs2) as [fs3|x] eqn:Hrm;
    [rewrite (syscall_run _ _ _ fs3) by exact Hrm
    |rewrite (syscall_raise _ _ _ x) by exact Hrm;
     stopped x ([EvRename src dst; EvRename src2 dst2] : list event)].
  rewrite bind_run, (read_item_run "item_name"). cbn [item].
  destruct (item_get "item_name" (item w)) as [name|x] eqn:Hname;
    [|stopped x ([EvRename src dst; EvRename src2 dst2; EvRmtree d] : list event)].
  rewrite bind_run, (read_item_run "start_time"). cbn [item].
  destruct (item_get "start_time" (item w)) as [st|x] eqn:Hst;
    [|stopped x ([EvRename src dst; EvRename src2 dst2; EvRmtree d] : list event)].
  left. exists src, dst, src2, dst2, d, name, st, fs1, fs2, fs3. auto 12.
Qed.
(** ** C1 *)

Lemma posts_app (a b : list event) : posts (a ++ b) = posts a ++ posts b.
Proof.
  induction a as [|ev a IH]; [reflexivity|].
  destruct ev; cbn; now rewrite ?IH.
Qed.

Lemma split_nonempty (sep : ascii) (s : string) : Py.split sep s ≠ [].
Proof.
  induction s as [|c s IH]; cbn; [discriminate|].
  destruct (Ascii.eqb c sep); [discriminate|].
  destruct (Py.split sep s); [contradiction | discriminate].
Qed.

Lemma join_cons (sep p : string) (rest : list string) :
  rest ≠ [] → Py.join sep (p :: rest) = p +:+ sep +:+ Py.join sep rest.
Proof. destruct rest; [contradiction | reflexivity]. Qed.

Lemma join_split (sep : ascii) (s : string) :
  Py.join (String sep "") (Py.split sep s) = s.
Proof.
  induction s as [|c s IH]; [reflexivity|].
  cbn [Py.split]. destruct (Ascii.eqb c sep) eqn:E.
  - apply Ascii.eqb_eq in E as ->.
    rewrite join_cons by apply split_nonempty. now rewrite IH.
  - pose proof (split_nonempty sep s) as Hne.
    destruct (Py.split sep s) as [|f fs]; [contradiction|].
    destruct fs as [|f' fs].
    + cbn in IH |- *. now rewrite IH.
    + rewrite join_cons in IH |- * by discriminate.
      rewrite append_cons. now rewrite IH.
Qed.

Lemma split_field (sep : ascii) (t s : string) :
  Py.contains sep t = false →
  Py.split sep (t +:+ String sep s) = t :: Py.split sep s.
Proof.
  induction t as [|c t IH]; intros Hc.
  - change ("" +:+ String sep s) with (String sep s).
    cbn [Py.split]. now rewrite Ascii.eqb_refl.
  - cbn [Py.contains] in Hc. apply orb_false_elim in Hc as [Hc Ht].
    rewrite append_cons. cbn [Py.split].
    rewrite Ascii.eqb_sym, Hc. now rewrite IH.
Qed.

Lemma new_item_fields (t c rest st : string) :
  Py.contains ":" t = false →
  Py.contains ":" c = false →
  MoveFiles.new_item (t +:+ ":" +:+ c +:+ ":" +:+ rest) st
  = "web:" +:+ st +:+ ":" +:+ rest.
Proof.
  intros Ht Hc. unfold MoveFiles.new_item, Py.drop_fields.
  change (":" +:+ c +:+ ":" +:+ rest) with (String ":" (c +:+ String ":" rest)).
  rewrite (split_field ":" t) by exact Ht.
  rewrite (split_field ":" c) by exact Hc.
  cbn [drop app]. rewrite drop_0.
  rewrite join_cons by discriminate.
  rewrite join_cons by apply split_nonempty.
  now rewrite (join_split ":").
Qed.

(** C1, as the code has it: a run of the finalizer that returns has
    sent the queue one POST, whose data is the identifier with its
    first two fields replaced by [web] and the recorded [start_time];
    the type of the item is not looked at, so an item of type [web] is
    requeued like any other. *)
Theorem finalize_always_requeues e (w : World) :
  (MoveFiles.process e w).1 = Ok () →
  ∃ name st,
    fields (item w) !! "item_name" = Some name
    ∧ fields (item w) !! "start_time" = Some st
    ∧ posts (trace (MoveFiles.process e w).2)
      = posts (trace w) ++ [MoveFiles.new_item name st]
    ∧ ∀ t c rest,
        Py.contains ":" t = false →
        Py.contains ":" c = false →
        name = t +:+ ":" +:+ c +:+ ":" +:+ rest →
        MoveFiles.new_item name st = "web:" +:+ st +:+ ":" +:+ rest.
Proof.
  intros Hok.
  destruct (finalize_cases e w)
    as [(src & dst & src2 & dst2 & d & name & st & fs1 & fs2 & fs3 & H)
       |(x & new & Hx & _)]; [|congruence].
  destruct H as (Hsrc & Hdst & Hr1 & Hsrc2 & Hdst2 & Hr2 & Hd & Hrm & Hname & Hst).
  rewrite (finalize_run e w src dst src2 dst2 d name st fs1 fs2 fs3) by assumption.
  cbn [snd trace]. exists name, st.
  unfold item_get in Hname, Hst.
  destruct (fields (item w) !! "item_name") as [n|]; [|discriminate].
  destruct (fields (item w) !! "start_time") as [s|]; [|discriminate].
  cbn in Hname, Hst. injection Hname as ->. injection Hst as ->.
  repeat split.
  - rewrite posts_app. reflexivity.
  - intros t c rest Ht Hc ->. now apply new_item_fields.
Qed.

Lemma finalize_always_requeues_witness :
  posts (trace (MoveFiles.process Scenario.queue_accepts Scenario.fetched).2)
  = ["web:1627646400:octocat/Hello-World"].
Proof.
  destruct (finalize_always_requeues Scenario.queue_accepts Scenario.fetched)
    as (name & st & Hname & Hst & Hposts & _).
  - vm_compute. reflexivity.
  - rewrite Hposts.
    assert (name = "web:initial:octocat/Hello-World") as ->
      by (vm_compute in Hname; congruence).
    assert (st = "1627646400") as -> by (vm_compute in Hst; congruence).
    vm_compute. reflexivity.
Defined.

(** C1 as stated fails on the scenario's item: its type is [web], the
    finalizer returns, and the queue has received the follow-up item. *)
Lemma web_item_is_requeued :
  item_type (item Scenario.fetched) = Some "web"
  ∧ (MoveFiles.process Scenario.queue_accepts Scenario.fetched).1 = Ok ()
  ∧ posts (trace Scenario.fetched) = []
  ∧ posts (trace (MoveFiles.process Scenario.queue_accepts Scenario.fetched).2)
    = ["web:1627646400:octocat/Hello-World"]
  ∧ ¬ web_is_not_requeued.
Proof.
  assert (item_type (item Scenario.fetched) = Some "web") as Hweb
    by (vm_compute; reflexivity).
  assert (posts (trace (MoveFiles.process Scenario.queue_accepts Scenario.fetched).2)
          = ["web:1627646400:octocat/Hello-World"]) as Hposts
    by (vm_compute; reflexivity).
  split; [exact Hweb|].
  split; [vm_compute; reflexivity|].
  split; [vm_compute; reflexivity|].
  split; [exact Hposts|].
  intros Hclaim.
  specialize (Hclaim Scenario.queue_accepts Scenario.fetched Hweb).
  rewrite Hposts in Hclaim. vm_compute in Hclaim. discriminate.
Qed.
(** ** The file system calls *)

Lemma rmtree_ok d (fs1 fs2 : FS) :
  Os.rmtree d fs1 = Ok fs2 →
  d ∈ dirs fs1
  ∧ (d ∉ dirs fs2)
  ∧ (∀ p, under d p = true → files fs2 !! p = None ∧ p ∉ dirs fs2)
  ∧ (∀ p, under d p = false → files fs2 !! p = files fs1 !! p).
Proof.
  unfold Os.rmtree, Os.isdir. case_bool_decide as Hd.
  - intros [= <-]. cbn [files dirs]. split; [exact Hd|]. split.
    { rewrite elem_of_filter. intros [[Hne _] _]. congruence. }
    split.
    + intros p Hp. split.
      * apply map_lookup_filter_None. right. intros c _. cbn [fst]. rewrite Hp. auto.
      * rewrite elem_of_filter. rewrite Hp. intros [[_ Hn] _]. auto.
    + intros p Hp. destruct (files fs1 !! p) as [c|] eqn:E.
      * apply map_lookup_filter_Some. split; [exact E|]. cbn [fst]. now rewrite Hp.
      * apply map_lookup_filter_None. now left.
  - case_bool_decide; discriminate.
Qed.

Lemma rename_ok src dst (fs1 fs2 : FS) :
  Os.rename src dst fs1 = Ok fs2 →
  ∃ content, files fs1 !! src = Some content
             ∧ files fs2 = <[dst := content]> (delete src (files fs1))
             ∧ dirs fs2 = dirs fs1.
Proof.
  unfold Os.rename. destruct (files fs1 !! src) as [c|].
  - repeat case_bool_decide; try discriminate.
    destruct (parent_exists fs1 dst); [|discriminate].
    intros [= <-]. eauto.
  - case_bool_decide; discriminate.
Qed.

Lemma rename_missing src dst (fs1 : FS) :
  files fs1 !! src = None → raises (Os.rename src dst fs1).
Proof.
  intros H. unfold Os.rename. rewrite H. now case_bool_decide.
Qed.
(** ** C10 *)

(** C10: the events of a run of the finalizer are a prefix of: rename
    of the archive, rename of the data file, removal of the staging
    directory, POST.  When the POST was sent, the file system of the
    run is the one after the two renames and the removal, whatever the
    queue answers: with a status other than 200 the step raises
    [AssertionError], the staging directory that was there is gone and
    so is the staged archive. *)
Theorem finalize_not_atomic e (w : World) :
  let run := MoveFiles.process e w in
  ∃ new, trace run.2 = trace w ++ new
    ∧ (posts new = []
       ∨ ∃ src dst src2 dst2 d data fs1 fs2 fs3,
           new = [EvRename src dst; EvRename src2 dst2; EvRmtree d;
                  EvPost queue_url data]
           ∧ Os.rename src dst (fs w) = Ok fs1
           ∧ Os.rename src2 dst2 fs1 = Ok fs2
           ∧ Os.rmtree d fs2 = Ok fs3
           ∧ fs run.2 = fs3
           ∧ is_Some (files (fs w) !! src) ∧ files (fs run.2) !! src = None
           ∧ Os.isdir d (fs w) = true ∧ Os.isdir d (fs run.2) = false
           ∧ (∀ resp, MoveFiles.queue_reply e = Ok resp →
                      status_code resp ≠ 200%Z →
                      run.1 = Raise AssertionError)).
Proof.
  cbn zeta.
  destruct (finalize_cases e w)
    as [(src & dst & src2 & dst2 & d & name & st & fs1 & fs2 & fs3 & H)
       |(x & new & Hx & Htrace & Hposts)]; [|eauto].
  destruct H as (Hsrc & Hdst & Hr1 & Hsrc2 & Hdst2 & Hr2 & Hd & Hrm & Hname & Hst).
  rewrite (finalize_run e w src dst src2 dst2 d name st fs1 fs2 fs3) by assumption.
  cbn [fst snd trace fs].
  eexists. split; [reflexivity|]. right.
  exists src, dst, src2, dst2, d, (MoveFiles.new_item name st), fs1, fs2, fs3.
  destruct (rename_ok _ _ _ _ Hr1) as (c1 & Hc1 & Hf1 & Hd1).
  destruct (rename_ok _ _ _ _ Hr2) as (c2 & Hc2 & Hf2 & Hd2).
  destruct (rmtree_ok _ _ _ Hrm) as (Hin & Hout & Hgone & _).
  apply format_staged_inv in Hsrc as (dir & b & Hdir & Hb & ->).
  assert (d = dir) as ->.
  { cbn in Hd. unfold item_get in Hd. rewrite Hdir in Hd. cbn in Hd.
    rewrite append_empty_r in Hd. congruence. }
  repeat split; try assumption; try reflexivity.
  - eauto.
  - apply Hgone, under_child.
  - unfold Os.isdir. apply bool_decide_eq_true. now rewrite <- Hd1, <- Hd2.
  - unfold Os.isdir. now apply bool_decide_eq_false.
  - intros resp Hreply Hstatus. unfold queue_outcome. rewrite Hreply.
    destruct (status_code resp =? 200)%Z eqn:E; [|reflexivity].
    apply Z.eqb_eq in E. contradiction.
Qed.

Lemma finalize_not_atomic_witness :
  (MoveFiles.process Scenario.queue_down Scenario.fetched).1 = Raise AssertionError
  ∧ Os.isdir Scenario.item_dir (fs Scenario.fetched) = true
  ∧ Os.isdir Scenario.item_dir
      (fs (MoveFiles.process Scenario.queue_down Scenario.fetched).2) = false.
Proof.
  destruct (finalize_not_atomic Scenario.queue_down Scenario.fetched)
    as (new & Htrace & [Hnone | Hsent]).
  - exfalso.
    assert (posts (trace (MoveFiles.process Scenario.queue_down Scenario.fetched).2)
            = ["web:1627646400:octocat/Hello-World"]) as Hposts
      by (vm_compute; reflexivity).
    rewrite Htrace, posts_app, Hnone in Hposts.
    vm_compute in Hposts. discriminate.
  - destruct Hsent as (src & dst & src2 & dst2 & d & data & fs1 & fs2 & fs3 & H).
    destruct H as (_ & _ & _ & _ & _ & _ & _ & _ & _ & Hraise).
    split; [|split; vm_compute; reflexivity].
    apply (Hraise {| status_code := 503; text := "" |}); [reflexivity | discriminate].
Defined.
(** ** C9 *)

Lemma under_contains_slash (d p : string) :
  under d p = true → Py.contains "/" p = true.
Proof.
  unfold under. revert p. induction d as [|a d IH]; intros [|c p].
  - discriminate.
  - change ("" +:+ "/") with "/". cbn [String.prefix Py.contains].
    destruct (ascii_dec "/" c) as [<-|]; [reflexivity | discriminate].
  - discriminate.
  - rewrite append_cons. cbn [String.prefix Py.contains].
    destruct (ascii_dec a c); [|discriminate].
    intros H. rewrite (IH p H). apply orb_true_r.
Qed.

(** After staging on a well-formed file system, the staging directory
    holds the two placeholders and no file with the name the fetcher
    writes the archive under. *)
Lemma staged_has_no_archive prefix e (w w' : World) :
  fs_wf (fs w) →
  PrepareDirectories.process prefix e w = (Ok (), w') →
  ∃ d b,
    fields (item w') !! "item_dir" = Some d
    ∧ fields (item w') !! "warc_file_base" = Some b
    ∧ files (fs w') !! (d +:+ "/" +:+ b +:+ ".warc.gz") = Some []
    ∧ files (fs w') !! (d +:+ "/" +:+ b +:+ ".warc.zst") = None.
Proof.
  intros Hwf Hrun.
  apply prepare_ok in Hrun
    as (name & data_dir & fs1 & fs2 & fs3 & fs4 & r & Hname & Hdir & Hrun).
  cbn zeta in Hrun.
  destruct Hrun as (Hfs1 & Hmk & Hc1 & Hc2 & _ & _ & Hfs & Hitem).
  set (d := data_dir +:+ "/" +:+ escape_item_name name) in *.
  set (b := warc_file_base prefix name (PrepareDirectories.strftime e)) in *.
  exists d, b.
  assert (∀ p, under d p = true → files fs1 !! p = None) as Hempty.
  { intros p Hp. destruct (Os.isdir d (fs w)) eqn:Hisdir.
    - now apply (rmtree_ok _ _ _ Hfs1).
    - injection Hfs1 as <-.
      destruct (files (fs w) !! p) as [c|] eqn:E; [|reflexivity].
      exfalso. apply bool_decide_eq_false in Hisdir. apply Hisdir.
      apply (Hwf p d Hp). left. rewrite E. eauto. }
  apply makedirs_ok in Hmk as [Hf2 _].
  apply create_empty_ok in Hc1 as [Hf3 _].
  apply create_empty_ok in Hc2 as [Hf4 _].
  rewrite Hitem, Hfs, Hf4, Hf3, Hf2. cbn [item_set fields].
  split; [now simplify_map_eq|]. split; [now simplify_map_eq|]. split.
  - rewrite lookup_insert_ne
      by (intros Heq; do 3 apply append_inj_l in Heq; discriminate).
    apply lookup_insert_eq.
  - rewrite !lookup_insert_ne
      by (intros Heq; do 3 apply append_inj_l in Heq; discriminate).
    apply Hempty, under_child.
Qed.

(** C9: staging creates the empty placeholder [base.warc.gz]; the
    finalizer renames [base.warc.zst], another path.  On a well-formed
    file system the staged directory has no [base.warc.zst], so
    finalizing what staging left raises at the first rename; a run of
    the finalizer that returns found a file at [base.warc.zst], and
    after it the placeholder is gone with the staging directory. *)
Theorem placeholder_is_never_finalized :
  (∀ prefix e (w : World),
     fs_wf (fs w) →
     (PrepareDirectories.process prefix e w).1 = Ok () →
     let w' := (PrepareDirectories.process prefix e w).2 in
     ∃ d b,
       fields (item w') !! "item_dir" = Some d
       ∧ fields (item w') !! "warc_file_base" = Some b
       ∧ format placeholder_warc (item w') = Ok (d +:+ "/" +:+ b +:+ ".warc.gz")
       ∧ format staged_warc (item w') = Ok (d +:+ "/" +:+ b +:+ ".warc.zst")
       ∧ d +:+ "/" +:+ b +:+ ".warc.gz" ≠ d +:+ "/" +:+ b +:+ ".warc.zst"
       ∧ files (fs w') !! (d +:+ "/" +:+ b +:+ ".warc.gz") = Some []
       ∧ files (fs w') !! (d +:+ "/" +:+ b +:+ ".warc.zst") = None
       ∧ ∀ e2 (w2 : World),
           fs w2 = fs w' →
           fields (item w2) !! "item_dir" = Some d →
           fields (item w2) !! "warc_file_base" = Some b →
           raises (MoveFiles.process e2 w2).1
           ∧ (MoveFiles.process e2 w2).2 = w2)
  ∧ (∀ e (w : World),
       (MoveFiles.process e w).1 = Ok () →
       let w' := (MoveFiles.process e w).2 in
       ∃ d b,
         fields (item w) !! "item_dir" = Some d
         ∧ fields (item w) !! "warc_file_base" = Some b
         ∧ is_Some (files (fs w) !! (d +:+ "/" +:+ b +:+ ".warc.zst"))
         ∧ files (fs w') !! (d +:+ "/" +:+ b +:+ ".warc.gz") = None
         ∧ Os.isdir d (fs w') = false).
Proof.
  split.
  - intros prefix e w Hwf Hok.
    destruct (PrepareDirectories.process prefix e w) as [res w'] eqn:Hp.
    cbn [fst snd] in *. subst res.
    destruct (staged_has_no_archive _ _ _ _ Hwf Hp) as (d & b & Hd & Hb & Hgz & Hzst).
    exists d, b. split; [exact Hd|]. split; [exact Hb|].
    split; [unfold placeholder_warc; rewrite (format_staged _ _ d b) by assumption;
            now rewrite append_empty_r|].
    split; [unfold staged_warc; rewrite (format_staged _ _ d b) by assumption;
            now rewrite append_empty_r|].
    split; [intros Heq; do 3 apply append_inj_l in Heq; discriminate|].
    split; [exact Hgz|]. split; [exact Hzst|].
    intros e2 w2 Hfs2 Hd2 Hb2.
    unfold MoveFiles.process.
    rewrite bind_run, fmt_run. unfold staged_warc.
    rewrite (format_staged _ _ d b) by assumption. rewrite append_empty_r.
    rewrite bind_run, fmt_run.
    destruct (format final_warc (item w2)) as [dst|x]; [|split; [exact I | reflexivity]].
    rewrite bind_run.
    pose proof (rename_missing (d +:+ "/" +:+ b +:+ ".warc.zst") dst (fs w2)) as Hmiss.
    rewrite Hfs2 in Hmiss. specialize (Hmiss Hzst). rewrite <- Hfs2 in Hmiss.
    destruct (Os.rename _ dst (fs w2)) as [fs'|x] eqn:Hren; [contradiction|].
    rewrite (syscall_raise _ _ _ x) by exact Hren.
    split; [exact I | reflexivity].
  - intros e w Hok.
    destruct (finalize_cases e w)
      as [(src & dst & src2 & dst2 & d & name & st & fs1 & fs2 & fs3 & H)
         |(x & new & Hx & _)]; [|congruence].
    destruct H as (Hsrc & Hdst & Hr1 & Hsrc2 & Hdst2 & Hr2 & Hd & Hrm & Hname & Hst).
    rewrite (finalize_run e w src dst src2 dst2 d name st fs1 fs2 fs3) by assumption.
    cbn [snd fs].
    apply format_staged_inv in Hsrc as (dir & b & Hdir & Hb & ->).
    assert (d = dir) as ->.
    { cbn in Hd. unfold item_get in Hd. rewrite Hdir in Hd. cbn in Hd.
      rewrite append_empty_r in Hd. congruence. }
    destruct (rename_ok _ _ _ _ Hr1) as (c1 & Hc1 & _).
    destruct (rmtree_ok _ _ _ Hrm) as (_ & Hout & Hgone & _).
    exists dir, b. rewrite append_empty_r in Hc1.
    repeat split; try assumption.
    + eauto.
    + apply Hgone, under_child.
    + unfold Os.isdir. now apply bool_decide_eq_false.
Qed.

Lemma placeholder_is_never_finalized_witness :
  files (fs Scenario.staged)
    !! (Scenario.item_dir +:+ "/" +:+ Scenario.base +:+ ".warc.gz") = Some []
  ∧ raises (MoveFiles.process Scenario.queue_accepts
              {| fs := fs Scenario.staged; item := item Scenario.fetched;
                 trace := [] |}).1
  ∧ files (fs (MoveFiles.process Scenario.queue_accepts Scenario.fetched).2)
      !! (Scenario.item_dir +:+ "/" +:+ Scenario.base +:+ ".warc.gz") = None.
Proof.
  destruct placeholder_is_never_finalized as [Hstage Hfinal].
  destruct (Hstage "github" Scenario.stage_env Scenario.world0)
    as (d & b & Hd & Hb & _ & _ & _ & Hfile & _ & Hraise).
  { intros p d Hunder [Hfile | Hdir].
    - vm_compute in Hfile. destruct Hfile as [c Hc]. discriminate.
    - cbn in Hdir. apply elem_of_singleton in Hdir as ->.
      apply under_contains_slash in Hunder. vm_compute in Hunder. discriminate. }
  { vm_compute. reflexivity. }
  fold Scenario.staged in Hd, Hb, Hfile, Hraise.
  assert (d = Scenario.item_dir) as -> by (vm_compute in Hd; injection Hd as <-; reflexivity).
  assert (b = Scenario.base) as -> by (vm_compute in Hb; injection Hb as <-; reflexivity).
  split; [exact Hfile|].
  split.
  { apply (Hraise Scenario.queue_accepts
             {| fs := fs Scenario.staged; item := item Scenario.fetched; trace := [] |}).
    - reflexivity.
    - vm_compute. reflexivity.
    - vm_compute. reflexivity. }
  destruct (Hfinal Scenario.queue_accepts Scenario.fetched)
    as (d & b & Hd' & Hb' & _ & Hgone & _).
  { vm_compute. reflexivity. }
  assert (d = Scenario.item_dir) as -> by (vm_compute in Hd'; injection Hd' as <-; reflexivity).
  assert (b = Scenario.base) as -> by (vm_compute in Hb'; injection Hb' as <-; reflexivity).
  exact Hgone.
Defined.
(** ** C8 *)


Lemma size_list_to_set_le (l : list string) :
  (size (list_to_set l : gset string) ≤ length l)%nat.
Proof.
  induction l as [|a l IH]; cbn [list_to_set length].
  - now rewrite size_empty.
  - rewrite size_union_alt, size_singleton.
    assert (size (list_to_set l ∖ {[a]} : gset string) ≤ size (list_to_set l : gset string))%nat
      by (apply subseteq_size, subseteq_difference_l; reflexivity).
    lia.
Qed.

Lemma resolve_into_ok gethostbyname hs (s ips : gset string) :
  CheckIP.resolve_into gethostbyname hs s = Ok ips →
  ∃ addrs, Forall2 (λ h a, gethostbyname h = Ok a) hs addrs
           ∧ ips = list_to_set addrs ∪ s.
Proof.
  revert s. induction hs as [|h hs IH]; intros s; cbn [CheckIP.resolve_into].
  - intros [= <-]. exists []. split; [constructor|].
    cbn [list_to_set]. now rewrite (left_id_L ∅ (∪)).
  - intros H. apply result_bind_ok in H as (ip & Hip & H).
    apply IH in H as (addrs & Hall & ->).
    exists (ip :: addrs). split; [now constructor|].
    cbn [list_to_set]. rewrite (comm_L (∪) {[ip]} (list_to_set addrs)).
    now rewrite (assoc_L (∪)).
Qed.



(** ** ZstdDict *)

Lemma younger_spec (now created : Q) :
  ZstdDict.younger now created = true ↔ (now - created < 1800)%Q.
Proof.
  unfold ZstdDict.younger. destruct (Qlt_le_dec (now - created) 1800) as [H|H].
  - tauto.
  - split; [discriminate|]. intros H'. exfalso. now apply (Qlt_not_le _ _ H').
Qed.

Lemma raise_for_status_cases {B} (r : ZstdDict.reply B) :
  ZstdDict.raise_for_status r = Ok ()
  ∨ ZstdDict.raise_for_status r = Raise (HTTPError (ZstdDict.status r)).
Proof. unfold ZstdDict.raise_for_status. destruct (_ && _); auto. Qed.

Lemma get_dict_fresh e c d :
  ZstdDict.data c = Some d →
  ZstdDict.is_fresh e c = true →
  ZstdDict.get_dict e c = (Ok d, c).
Proof.
  intros Hd Hfresh. unfold ZstdDict.get_dict. rewrite bind_run, Hfresh.
  unfold ZstdDict.return_data. now rewrite Hd.
Qed.

(** A call that is not answered from the cache starts with the
    request to the dictionary endpoint. *)
Lemma get_dict_stale e c resp json :
  ZstdDict.is_fresh e c = false →
  ZstdDict.meta_reply e = Ok resp →
  ZstdDict.raise_for_status resp = Ok () →
  ZstdDict.body resp = Ok json →
  let c1 := {| ZstdDict.created := ZstdDict.created c; ZstdDict.data := ZstdDict.data c;
               ZstdDict.sent := ZstdDict.sent c ++ [EvGet ZstdDict.dictionary_url] |} in
  ZstdDict.get_dict e c
  = match ZstdDict.same_id json c with
    | Ok true =>
        (ZstdDict.set_created (ZstdDict.time_at_update e);; ZstdDict.return_data) c1
    | Ok false => ZstdDict.download e json c1
    | Raise x => (Raise x, c1)
    end.
Proof.
  intros Hfresh Hmeta Hstatus Hbody. cbn zeta.
  unfold ZstdDict.get_dict. rewrite bind_run, Hfresh.
  rewrite bind_run. unfold ZstdDict.send at 1. rewrite Hmeta.
  rewrite bind_run. unfold lift at 1. rewrite Hstatus.
  rewrite bind_run. unfold lift at 1. rewrite Hbody.
  rewrite bind_run.
  replace (ZstdDict.same_id json _) with (ZstdDict.same_id json c) by reflexivity.
  destruct (ZstdDict.same_id json c) as [[|]|x]; reflexivity.
Qed.

(** [download] step by step: the cache changes only in the last step,
    after the digest was compared. *)
Lemma download_run e json c :
  let with_request url :=
    {| ZstdDict.created := ZstdDict.created c; ZstdDict.data := ZstdDict.data c;
       ZstdDict.sent := ZstdDict.sent c ++ [EvGet url] |} in
  ZstdDict.download e json c
  = match ZstdDict.key "url" json with
    | Raise x => (Raise x, c)
    | Ok url =>
        match ZstdDict.payload_reply e url with
        | Raise x => (Raise x, with_request url)
        | Ok payload =>
            match ZstdDict.raise_for_status payload with
            | Raise x => (Raise x, with_request url)
            | Ok _ =>
                match ZstdDict.key "sha256" json with
                | Raise x => (Raise x, with_request url)
                | Ok advertised =>
                    if String.eqb (Hashlib.sha256_hexdigest (ZstdDict.body payload))
                         advertised
                    then
                      match (if bool_decide (firstn 4 (ZstdDict.body payload)
                                             = ZstdDict.zstd_magic)
                             then ZstdDict.decompress e (ZstdDict.body payload)
                             else Ok (ZstdDict.body payload)) with
                      | Raise x => (Raise x, with_request url)
                      | Ok raw =>
                          match ZstdDict.key "id" json with
                          | Raise x => (Raise x, with_request url)
                          | Ok i =>
                              let d := {| ZstdDict.id := i; ZstdDict.dict := raw |} in
                              (Ok d,
                               {| ZstdDict.created := ZstdDict.time_at_update e;
                                  ZstdDict.data := Some d;
                                  ZstdDict.sent := ZstdDict.sent c ++ [EvGet url] |})
                          end
                      end
                    else (Raise (ValueError
                                   "Hash of downloaded dictionary does not match."),
                          with_request url)
                end
            end
        end
    end.
Proof.
  cbn zeta. unfold ZstdDict.download.
  rewrite bind_run. unfold lift at 1.
  destruct (ZstdDict.key "url" json) as [url|x]; [|reflexivity].
  rewrite bind_run. unfold ZstdDict.send at 1.
  destruct (ZstdDict.payload_reply e url) as [payload|x]; [|reflexivity].
  rewrite bind_run. unfold lift at 1.
  destruct (ZstdDict.raise_for_status payload) as [u|x]; [|reflexivity].
  rewrite bind_run. unfold lift at 1.
  destruct (ZstdDict.key "sha256" json) as [advertised|x]; [|reflexivity].
  rewrite bind_run.
  destruct (String.eqb _ advertised); [|reflexivity].
  cbn [mret ST_ret]. rewrite bind_run.
  destruct (bool_decide _).
  - unfold lift at 1.
    destruct (ZstdDict.decompress e (ZstdDict.body payload)) as [raw|x]; [|reflexivity].
    rewrite bind_run. unfold lift at 1.
    destruct (ZstdDict.key "id" json) as [i|x]; reflexivity.
  - cbn [mret ST_ret]. rewrite bind_run. unfold lift at 1.
    destruct (ZstdDict.key "id" json) as [i|x]; reflexivity.
Qed.

Lemma get_dict_run e c :
  let c1 := {| ZstdDict.created := ZstdDict.created c; ZstdDict.data := ZstdDict.data c;
               ZstdDict.sent := ZstdDict.sent c ++ [EvGet ZstdDict.dictionary_url] |} in
  ZstdDict.get_dict e c
  = if ZstdDict.is_fresh e c then ZstdDict.return_data c
    else match ZstdDict.meta_reply e with
         | Raise x => (Raise x, c1)
         | Ok resp =>
             match ZstdDict.raise_for_status resp with
             | Raise x => (Raise x, c1)
             | Ok _ =>
                 match ZstdDict.body resp with
                 | Raise x => (Raise x, c1)
                 | Ok json =>
                     match ZstdDict.same_id json c with
                     | Raise x => (Raise x, c1)
                     | Ok true =>
                         ZstdDict.return_data
                           {| ZstdDict.created := ZstdDict.time_at_update e;
                              ZstdDict.data := ZstdDict.data c;
                              ZstdDict.sent := ZstdDict.sent c1 |}
                     | Ok false => ZstdDict.download e json c1
                     end
                 end
             end
         end.
Proof.
  cbn zeta. destruct (ZstdDict.is_fresh e c) eqn:Hfresh.
  - unfold ZstdDict.get_dict. now rewrite bind_run, Hfresh.
  - destruct (ZstdDict.meta_reply e) as [resp|x] eqn:Hmeta.
    2:{ unfold ZstdDict.get_dict. rewrite bind_run, Hfresh.
        rewrite bind_run. unfold ZstdDict.send at 1. now rewrite Hmeta. }
    destruct (ZstdDict.raise_for_status resp) as [[]|x] eqn:Hstatus.
    2:{ unfold ZstdDict.get_dict. rewrite bind_run, Hfresh.
        rewrite bind_run. unfold ZstdDict.send at 1. rewrite Hmeta.
        rewrite bind_run. unfold lift at 1. now rewrite Hstatus. }
    destruct (ZstdDict.body resp) as [json|x] eqn:Hbody.
    2:{ unfold ZstdDict.get_dict. rewrite bind_run, Hfresh.
        rewrite bind_run. unfold ZstdDict.send at 1. rewrite Hmeta.
        rewrite bind_run. unfold lift at 1. rewrite Hstatus.
        rewrite bind_run. unfold lift at 1. now rewrite Hbody. }
    rewrite (get_dict_stale e c resp json) by assumption.
    destruct (ZstdDict.same_id json c) as [[|]|x]; reflexivity.
Qed.

(** ** C4 *)

(** C4: with a cached record younger than 1800 seconds the call
    returns it and leaves the cache and the list of requests as they
    are; with a stale record and a reply of the dictionary endpoint
    that carries the cached id, the call returns the cached record,
    sets [created] to the new reading of the clock and has sent the one
    request to the endpoint, none for the payload. *)
Theorem get_dict_uses_cache e c d :
  ZstdDict.data c = Some d →
  ((ZstdDict.time_at_test e - ZstdDict.created c < 1800)%Q →
   ZstdDict.get_dict e c = (Ok d, c))
  ∧ (¬ (ZstdDict.time_at_test e - ZstdDict.created c < 1800)%Q →
     ∀ resp json,
       ZstdDict.meta_reply e = Ok resp →
       ZstdDict.raise_for_status resp = Ok () →
       ZstdDict.body resp = Ok json →
       json !! "id" = Some (ZstdDict.id d) →
       ZstdDict.get_dict e c
       = (Ok d, {| ZstdDict.created := ZstdDict.time_at_update e;
                   ZstdDict.data := Some d;
                   ZstdDict.sent := ZstdDict.sent c ++ [EvGet ZstdDict.dictionary_url] |})).
Proof.
  intros Hd. split.
  - intros Hyoung. apply get_dict_fresh; [exact Hd|].
    unfold ZstdDict.is_fresh. rewrite Hd. now apply younger_spec.
  - intros Hstale resp json Hmeta Hstatus Hbody Hid.
    rewrite get_dict_run. cbn zeta.
    assert (ZstdDict.is_fresh e c = false) as ->.
    { unfold ZstdDict.is_fresh. rewrite Hd.
      destruct (ZstdDict.younger _ _) eqn:E; [|reflexivity].
      apply younger_spec in E. contradiction. }
    rewrite Hmeta, Hstatus, Hbody.
    unfold ZstdDict.same_id, ZstdDict.key. rewrite Hd, Hid. cbn [of_option mbind result_bind].
    rewrite String.eqb_refl.
    unfold ZstdDict.return_data. cbn [ZstdDict.data ZstdDict.sent]. reflexivity.
Qed.

Lemma get_dict_uses_cache_witness :
  ZstdDict.get_dict (DictScenario.service 2000 "77" DictScenario.digest_of_payload)
    DictScenario.cached
  = (Ok DictScenario.cached_record, DictScenario.cached)
  ∧ ZstdDict.get_dict (DictScenario.service 5000 "77" DictScenario.digest_of_payload)
      DictScenario.cached
    = (Ok DictScenario.cached_record,
       {| ZstdDict.created := 5000 + 1;
          ZstdDict.data := Some DictScenario.cached_record;
          ZstdDict.sent := [EvGet ZstdDict.dictionary_url] |}).
Proof.
  split.
  - destruct (get_dict_uses_cache
                (DictScenario.service 2000 "77" DictScenario.digest_of_payload)
                DictScenario.cached DictScenario.cached_record eq_refl) as [Hyoung _].
    apply Hyoung. reflexivity.
  - destruct (get_dict_uses_cache
                (DictScenario.service 5000 "77" DictScenario.digest_of_payload)
                DictScenario.cached DictScenario.cached_record eq_refl) as [_ Hstale].
    eapply Hstale.
    + intros H. vm_compute in H. discriminate.
    + reflexivity.
    + reflexivity.
    + reflexivity.
    + vm_compute. reflexivity.
Defined.

(** ** C5 *)

Lemma raise_for_status_error {B} (r : ZstdDict.reply B) :
  (400 ≤ ZstdDict.status r < 600)%Z →
  ZstdDict.raise_for_status r = Raise (HTTPError (ZstdDict.status r)).
Proof.
  intros [H1 H2]. unfold ZstdDict.raise_for_status.
  apply Z.leb_le in H1. apply Z.ltb_lt in H2. now rewrite H1, H2.
Qed.

Ltac split_cases :=
  repeat match goal with
    | |- context [match ?x with _ => _ end] => destruct x eqn:?
    end.

(** A call that raises leaves the class attributes as they were. *)
Lemma get_dict_raise_keeps e c :
  raises (ZstdDict.get_dict e c).1 →
  ZstdDict.created (ZstdDict.get_dict e c).2 = ZstdDict.created c
  ∧ ZstdDict.data (ZstdDict.get_dict e c).2 = ZstdDict.data c.
Proof.
  rewrite get_dict_run. cbn zeta.
  unfold ZstdDict.is_fresh, ZstdDict.same_id, ZstdDict.return_data.
  destruct (ZstdDict.data c) as [d|] eqn:Hd.
  - destruct (ZstdDict.younger _ _); [cbn; tauto|].
    destruct (ZstdDict.meta_reply e) as [resp|x]; [|cbn; auto].
    destruct (ZstdDict.raise_for_status resp) as [u|x]; [|cbn; auto].
    destruct (ZstdDict.body resp) as [json|x]; [|cbn; auto].
    destruct (ZstdDict.key "id" json) as [i|x]; [|cbn; auto].
    cbn [mbind result_bind].
    destruct (String.eqb i (ZstdDict.id d)); [cbn; tauto|].
    rewrite download_run. cbn zeta. split_cases; cbn; auto; tauto.
  - destruct (ZstdDict.meta_reply e) as [resp|x]; [|cbn; auto].
    destruct (ZstdDict.raise_for_status resp) as [u|x]; [|cbn; auto].
    destruct (ZstdDict.body resp) as [json|x]; [|cbn; auto].
    rewrite download_run. cbn zeta. split_cases; cbn; auto; tauto.
Qed.

(** A call that replaces the cached record has downloaded a payload
    whose digest is the advertised one. *)
Lemma get_dict_store_checked e c :
  ZstdDict.data (ZstdDict.get_dict e c).2 ≠ ZstdDict.data c →
  ∃ resp json url payload d,
    ZstdDict.meta_reply e = Ok resp
    ∧ ZstdDict.body resp = Ok json
    ∧ json !! "url" = Some url
    ∧ ZstdDict.payload_reply e url = Ok payload
    ∧ json !! "sha256" = Some (Hashlib.sha256_hexdigest (ZstdDict.body payload))
    ∧ ZstdDict.get_dict e c
      = (Ok d, {| ZstdDict.created := ZstdDict.time_at_update e;
                  ZstdDict.data := Some d;
                  ZstdDict.sent := ZstdDict.sent c
                                   ++ [EvGet ZstdDict.dictionary_url] ++ [EvGet url] |}).
Proof.
  rewrite get_dict_run. cbn zeta.
  assert (∀ json c1,
    ZstdDict.data c1 = ZstdDict.data c →
    ZstdDict.data (ZstdDict.download e json c1).2 ≠ ZstdDict.data c →
    ∃ url payload d,
      json !! "url" = Some url
      ∧ ZstdDict.payload_reply e url = Ok payload
      ∧ json !! "sha256" = Some (Hashlib.sha256_hexdigest (ZstdDict.body payload))
      ∧ ZstdDict.download e json c1
        = (Ok d, {| ZstdDict.created := ZstdDict.time_at_update e;
                    ZstdDict.data := Some d;
                    ZstdDict.sent := ZstdDict.sent c1 ++ [EvGet url] |})) as Hdl.
  { intros json c1 Hsame. rewrite download_run. cbn zeta. unfold ZstdDict.key.
    destruct (json !! "url") as [url|] eqn:Hurl; [|cbn; congruence].
    cbn [of_option].
    destruct (ZstdDict.payload_reply e url) as [payload|x] eqn:Hp; [|cbn; congruence].
    destruct (ZstdDict.raise_for_status payload) as [u|x]; [|cbn; congruence].
    destruct (json !! "sha256") as [adv|] eqn:Hadv; [|cbn; congruence].
    cbn [of_option].
    destruct (String.eqb _ adv) eqn:Heq; [|cbn; congruence].
    apply String.eqb_eq in Heq. subst adv.
    destruct (if bool_decide _ then _ else _) as [raw|x]; [|cbn; congruence].
    destruct (json !! "id") as [i|]; [|cbn; congruence].
    cbn [of_option]. intros _. eauto 10. }
  unfold ZstdDict.is_fresh, ZstdDict.return_data.
  destruct (ZstdDict.data c) as [d|] eqn:Hd.
  - destruct (ZstdDict.younger _ _); [cbn; congruence|].
    destruct (ZstdDict.meta_reply e) as [resp|x]; [|cbn; congruence].
    destruct (ZstdDict.raise_for_status resp) as [u|x]; [|cbn; congruence].
    destruct (ZstdDict.body resp) as [json|x] eqn:Hbody; [|cbn; congruence].
    destruct (ZstdDict.same_id json c) as [[|]|x]; [cbn; congruence| |cbn; congruence].
    intros Hne. apply Hdl in Hne; [|reflexivity].
    destruct Hne as (url & payload & d' & H1 & H2 & H3 & H4).
    exists resp, json, url, payload, d'. rewrite H4. cbn [ZstdDict.sent].
    rewrite <- app_assoc. auto 10.
  - destruct (ZstdDict.meta_reply e) as [resp|x]; [|cbn; congruence].
    destruct (ZstdDict.raise_for_status resp) as [u|x]; [|cbn; congruence].
    destruct (ZstdDict.body resp) as [json|x] eqn:Hbody; [|cbn; congruence].
    destruct (ZstdDict.same_id json c) as [[|]|x]; [cbn; congruence| |cbn; congruence].
    intros Hne. apply Hdl in Hne; [|reflexivity].
    destruct Hne as (url & payload & d' & H1 & H2 & H3 & H4).
    exists resp, json, url, payload, d'. rewrite H4. cbn [ZstdDict.sent].
    rewrite <- app_assoc. auto 10.
Qed.

(** C5: a call of [get_dict] that raises leaves [cls.created] and
    [cls.data] as they were; an error status of the dictionary endpoint
    or of the payload URL raises [HTTPError], a payload whose SHA-256
    digest differs from the advertised one raises [ValueError]; and a
    call that replaces the cached record has checked the digest of the
    payload it stores. *)
Theorem get_dict_failure_keeps_cache e c :
  let run := ZstdDict.get_dict e c in
  (raises run.1 →
   ZstdDict.created run.2 = ZstdDict.created c ∧ ZstdDict.data run.2 = ZstdDict.data c)
  ∧ (ZstdDict.data run.2 ≠ ZstdDict.data c →
     ∃ resp json url payload d,
       ZstdDict.meta_reply e = Ok resp
       ∧ ZstdDict.body resp = Ok json
       ∧ json !! "url" = Some url
       ∧ ZstdDict.payload_reply e url = Ok payload
       ∧ json !! "sha256" = Some (Hashlib.sha256_hexdigest (ZstdDict.body payload))
       ∧ run.1 = Ok d ∧ ZstdDict.data run.2 = Some d)
  ∧ (ZstdDict.is_fresh e c = false →
     ∀ resp, ZstdDict.meta_reply e = Ok resp →
       ((400 ≤ ZstdDict.status resp < 600)%Z →
        run.1 = Raise (HTTPError (ZstdDict.status resp)))
       ∧ (ZstdDict.raise_for_status resp = Ok () →
          ∀ json url payload,
            ZstdDict.body resp = Ok json →
            ZstdDict.same_id json c = Ok false →
            json !! "url" = Some url →
            ZstdDict.payload_reply e url = Ok payload →
            ((400 ≤ ZstdDict.status payload < 600)%Z →
             run.1 = Raise (HTTPError (ZstdDict.status payload)))
            ∧ (ZstdDict.raise_for_status payload = Ok () →
               ∀ advertised,
                 json !! "sha256" = Some advertised →
                 Hashlib.sha256_hexdigest (ZstdDict.body payload) ≠ advertised →
                 run.1 = Raise (ValueError
                                  "Hash of downloaded dictionary does not match.")))).
Proof.
  cbn zeta. split; [apply get_dict_raise_keeps|]. split.
  - intros Hne.
    destruct (get_dict_store_checked e c Hne)
      as (resp & json & url & payload & d & H1 & H2 & H3 & H4 & H5 & H6).
    exists resp, json, url, payload, d. rewrite H6. auto 10.
  - intros Hstale resp Hmeta. rewrite get_dict_run. cbn zeta.
    rewrite Hstale, Hmeta. split.
    + intros Hstatus. now rewrite (raise_for_status_error resp Hstatus).
    + intros Hstatus json url payload Hbody Hsame Hurl Hpayload.
      rewrite Hstatus, Hbody, Hsame, download_run. cbn zeta.
      unfold ZstdDict.key. rewrite Hurl. cbn [of_option]. rewrite Hpayload. split.
      * intros Hs. now rewrite (raise_for_status_error payload Hs).
      * intros Hs advertised Hadv Hdigest. rewrite Hs, Hadv. cbn [of_option].
        apply String.eqb_neq in Hdigest. now rewrite Hdigest.
Qed.

Lemma get_dict_failure_keeps_cache_witness :
  let e := DictScenario.service 5000 "78" DictScenario.wrong_digest in
  (ZstdDict.get_dict e DictScenario.cached).1
  = Raise (ValueError "Hash of downloaded dictionary does not match.")
  ∧ ZstdDict.created (ZstdDict.get_dict e DictScenario.cached).2 = 1000%Q
  ∧ ZstdDict.data (ZstdDict.get_dict e DictScenario.cached).2
    = Some DictScenario.cached_record.
Proof.
  cbn zeta.
  destruct (get_dict_failure_keeps_cache
              (DictScenario.service 5000 "78" DictScenario.wrong_digest)
              DictScenario.cached) as (Hkeep & _ & Hfail).
  assert ((ZstdDict.get_dict
             (DictScenario.service 5000 "78" DictScenario.wrong_digest)
             DictScenario.cached).1
          = Raise (ValueError "Hash of downloaded dictionary does not match."))
    as Hraise.
  { edestruct Hfail as [_ Hmeta]; [vm_compute; reflexivity | reflexivity |].
    edestruct Hmeta as [_ Hpayload];
      [reflexivity | reflexivity | vm_compute; reflexivity
      | vm_compute; reflexivity | reflexivity |].
    eapply Hpayload; [reflexivity | vm_compute; reflexivity |].
    vm_compute. discriminate. }
  split; [exact Hraise|].
  change 1000%Q with (ZstdDict.created DictScenario.cached).
  change (Some DictScenario.cached_record) with (ZstdDict.data DictScenario.cached).
  apply Hkeep. rewrite Hraise. exact I.
Defined.
(** ** ChooseTargetAndUpload: the scan of the candidates *)

Lemma send_run {A} ev (r : result A) (net : list event) :
  ChooseTargetAndUpload.send ev r net = (r, net ++ [ev]).
Proof. reflexivity. Qed.

(** One round of the loop on a candidate whose probe is answered. *)
Lemma scan_cons e it target rest net b :
  probe_candidate e it target = Ok b →
  ChooseTargetAndUpload.scan e it (target :: rest) net
  = if b
    then (downloader ← item_downloader it;
          Ok (Some (Py.replace ":downloader" downloader target)),
          net ++ probe_event e it target)
    else ChooseTargetAndUpload.scan e it rest (net ++ probe_event e it target).
Proof.
  unfold probe_candidate, probe_event. intros H.
  apply result_bind_ok in H as (domain & Hdomain & H).
  apply result_bind_ok in H as (path & Hpath & H).
  apply result_bind_ok in H as (size & Hsize & H).
  apply result_bind_ok in H as (name & Hname & H).
  cbn [ChooseTargetAndUpload.scan].
  rewrite bind_run. unfold lift at 1. rewrite Hdomain.
  rewrite bind_run. unfold lift at 1. rewrite Hpath.
  rewrite bind_run. unfold lift at 1. rewrite Hsize.
  rewrite bind_run. unfold lift at 1. rewrite Hname.
  rewrite bind_run, send_run, H.
  destruct b; [|reflexivity].
  rewrite bind_run. unfold lift at 1.
  destruct (item_downloader it); reflexivity.
Qed.

(** One round of the loop on a candidate whose probe raises: the scan
    raises. *)
Lemma scan_cons_raise e it target rest net x :
  probe_candidate e it target = Raise x →
  (ChooseTargetAndUpload.scan e it (target :: rest) net).1 = Raise x.
Proof.
  unfold probe_candidate. intros H. cbn [ChooseTargetAndUpload.scan].
  rewrite bind_run. unfold lift at 1.
  destruct (ChooseTargetAndUpload.extract_domain target) as [domain|y];
    cbn [mbind result_bind] in H; [|injection H as ->; reflexivity].
  rewrite bind_run. unfold lift at 1.
  destruct (format final_warc it) as [path|y];
    cbn [mbind result_bind] in H; [|injection H as ->; reflexivity].
  rewrite bind_run. unfold lift at 1.
  destruct (ChooseTargetAndUpload.getsize e path) as [size|y];
    cbn [mbind result_bind] in H; [|injection H as ->; reflexivity].
  rewrite bind_run. unfold lift at 1.
  destruct (item_get "item_name" it) as [name|y];
    cbn [mbind result_bind] in H; [|injection H as ->; reflexivity].
  rewrite bind_run, send_run, H. reflexivity.
Qed.

Lemma probe_events_app e it (l1 l2 : list string) :
  probe_events e it (l1 ++ l2) = probe_events e it l1 ++ probe_events e it l2.
Proof. unfold probe_events. now rewrite map_app, concat_app. Qed.

(** The candidates before the first acceptor are probed and passed
    over. *)
Lemma scan_rejected e it (before rest : list string) net :
  (∀ t, t ∈ before → probe_candidate e it t = Ok false) →
  ChooseTargetAndUpload.scan e it (before ++ rest) net
  = ChooseTargetAndUpload.scan e it rest (net ++ probe_events e it before).
Proof.
  revert net. induction before as [|t before IH]; intros net Hall.
  - cbn. now rewrite app_nil_r.
  - rewrite <- app_comm_cons.
    rewrite (scan_cons e it t _ net false) by (apply Hall; left).
    rewrite IH by (intros t' Ht'; apply Hall; now right).
    unfold probe_events. cbn [map concat]. now rewrite app_assoc.
Qed.

Lemma find_target_run e it targets net :
  ChooseTargetAndUpload.targets_reply e = Ok targets →
  ChooseTargetAndUpload.find_target e it net
  = ChooseTargetAndUpload.scan e it (ChooseTargetAndUpload.shuffle e targets)
      (net ++ [EvGet ChooseTargetAndUpload.targets_url]).
Proof.
  intros H. unfold ChooseTargetAndUpload.find_target.
  now rewrite bind_run, send_run, H.
Qed.

(** ** C2 *)

(** C2: when the tracker's list holds a candidate [t] whose probe
    accepts, every accepting candidate of the list is [t], and no
    probe of a candidate raises, then for every permutation the
    shuffle picks, [find_target] returns [t] with [:downloader]
    replaced by the downloader of the item, which is the entry
    [downloader] of the item's [stats]; the probes sent are those
    of the candidates before [t] in the shuffled list and of [t], none
    for the candidates after it. *)
Theorem find_target_selects_the_acceptor e it (targets : list string) t st downloader :
  ChooseTargetAndUpload.targets_reply e = Ok targets →
  (∀ l, ChooseTargetAndUpload.shuffle e l ≡ₚ l) →
  (∀ t', t' ∈ targets → ¬ raises (probe_candidate e it t')) →
  t ∈ targets →
  probe_candidate e it t = Ok true →
  (∀ t', t' ∈ targets → probe_candidate e it t' = Ok true → t' = t) →
  stats it = Some st →
  st !! "downloader" = Some downloader →
  ∀ net, ∃ before after,
    ChooseTargetAndUpload.shuffle e targets = before ++ t :: after
    ∧ (t ∉ before)
    ∧ ChooseTargetAndUpload.find_target e it net
      = (Ok (Some (Py.replace ":downloader" downloader t)),
         net ++ [EvGet ChooseTargetAndUpload.targets_url]
             ++ probe_events e it (before ++ [t])).
Proof.
  intros Htargets Hperm Hquiet Hin Haccept Hunique Hstats Hentry net.
  assert (item_downloader it = Ok downloader) as Hdownloader.
  { unfold item_downloader. rewrite Hstats. cbn [of_option mbind result_bind].
    now rewrite Hentry. }
  assert (t ∈ ChooseTargetAndUpload.shuffle e targets) as Hin'
    by now rewrite Hperm.
  apply list_elem_of_split_l in Hin' as (before & after & Hsplit & Hfirst).
  exists before, after. split; [exact Hsplit|]. split; [exact Hfirst|].
  assert (∀ t', t' ∈ before → probe_candidate e it t' = Ok false) as Hreject.
  { intros t' Ht'.
    assert (t' ∈ targets) as Ht.
    { rewrite <- (Hperm targets), Hsplit. apply elem_of_app. now left. }
    specialize (Hquiet t' Ht). specialize (Hunique t' Ht).
    destruct (probe_candidate e it t') as [[|]|x]; [|reflexivity|].
    - exfalso. apply Hfirst. now rewrite <- (Hunique eq_refl).
    - exfalso. now apply Hquiet. }
  rewrite (find_target_run e it targets) by exact Htargets.
  rewrite Hsplit, scan_rejected by exact Hreject.
  rewrite (scan_cons e it t after _ true) by exact Haccept.
  rewrite Hdownloader. cbn [mbind result_bind].
  rewrite probe_events_app. unfold probe_events at 3. cbn [map concat].
  rewrite app_nil_r. now rewrite <- !app_assoc.
Qed.

Lemma find_target_selects_the_acceptor_witness :
  (ChooseTargetAndUpload.find_target (UploadScenario.receivers "b.example")
     (item UploadScenario.finalized) []).1
  = Ok (Some "rsync://b.example:873/github/alice/").
Proof.
  destruct (find_target_selects_the_acceptor
              (UploadScenario.receivers "b.example") (item UploadScenario.finalized)
              UploadScenario.targets "rsync://b.example:873/github/:downloader/"
              {["downloader" := "alice"]} "alice") with (net := @nil event)
    as (before & after & _ & _ & Hrun).
  - reflexivity.
  - intros l. apply Permutation_sym, Permutation_rev.
  - intros t' Ht'.
    repeat (apply elem_of_cons in Ht' as [-> | Ht']; [vm_compute; tauto|]).
    now apply elem_of_nil in Ht'.
  - right. left.
  - vm_compute. reflexivity.
  - intros t' Ht'.
    repeat (apply elem_of_cons in Ht' as [-> | Ht'];
            [vm_compute; first [reflexivity | discriminate]|]).
    now apply elem_of_nil in Ht'.
  - vm_compute. reflexivity.
  - reflexivity.
  - rewrite Hrun. vm_compute. reflexivity.
Defined.
(** ** ChooseTargetAndUpload: attempts *)

Lemma attempts_app (a b : list event) : attempts (a ++ b) = attempts a + attempts b.
Proof.
  induction a as [|ev a IH]; [reflexivity|].
  destruct ev; cbn [app attempts]; rewrite IH; lia.
Qed.

Lemma probe_event_attempts e it t : attempts (probe_event e it t) = 0.
Proof. unfold probe_event. repeat case_match; reflexivity. Qed.

(** A candidate whose probe raises ends the scan with the exception. *)
Lemma scan_cons_raise_run e it target rest net x :
  probe_candidate e it target = Raise x →
  ChooseTargetAndUpload.scan e it (target :: rest) net
  = (Raise x, net ++ probe_event e it target).
Proof.
  unfold probe_candidate, probe_event. intros H. cbn [ChooseTargetAndUpload.scan].
  rewrite bind_run. unfold lift at 1.
  destruct (ChooseTargetAndUpload.extract_domain target) as [domain|y];
    cbn [mbind result_bind] in H;
    [|injection H as ->; now rewrite app_nil_r].
  rewrite bind_run. unfold lift at 1.
  destruct (format final_warc it) as [path|y];
    cbn [mbind result_bind] in H;
    [|injection H as ->; now rewrite app_nil_r].
  rewrite bind_run. unfold lift at 1.
  destruct (ChooseTargetAndUpload.getsize e path) as [size|y];
    cbn [mbind result_bind] in H.
  2:{ injection H as ->. destruct (item_get "item_name" it); now rewrite app_nil_r. }
  rewrite bind_run. unfold lift at 1.
  destruct (item_get "item_name" it) as [name|y];
    cbn [mbind result_bind] in H;
    [|injection H as ->; now rewrite app_nil_r].
  rewrite bind_run, send_run, H. reflexivity.
Qed.

(** The scan appends its probes to the requests, and its result does
    not depend on the requests sent before. *)
Lemma scan_run e it (l : list string) net :
  ChooseTargetAndUpload.scan e it l net = (select e it l, net ++ probes_sent e it l).
Proof.
  revert net. induction l as [|t l IH]; intros net.
  - cbn. now rewrite app_nil_r.
  - cbn [select probes_sent].
    destruct (probe_candidate e it t) as [b|x] eqn:Hprobe.
    + rewrite (scan_cons e it t l _ b) by exact Hprobe.
      destruct b; cbn [mbind result_bind].
      * now rewrite app_nil_r.
      * now rewrite IH, app_assoc.
    + rewrite (scan_cons_raise_run e it t l net x) by exact Hprobe.
      now rewrite app_nil_r.
Qed.

Lemma probes_sent_attempts e it (l : list string) : attempts (probes_sent e it l) = 0.
Proof.
  induction l as [|t l IH]; [reflexivity|].
  cbn [probes_sent]. rewrite attempts_app, probe_event_attempts.
  destruct (probe_candidate e it t) as [[|]|x]; auto.
Qed.

Lemma find_target_pure e it net :
  ∃ probes,
    ChooseTargetAndUpload.find_target e it net
    = (selected e it, net ++ EvGet ChooseTargetAndUpload.targets_url :: probes)
    ∧ attempts probes = 0.
Proof.
  unfold ChooseTargetAndUpload.find_target, selected. rewrite bind_run, send_run.
  destruct (ChooseTargetAndUpload.targets_reply e) as [targets|x].
  - rewrite scan_run. eexists. split; [|apply probes_sent_attempts].
    cbn [mbind result_bind]. now rewrite <- app_assoc.
  - exists []. split; reflexivity.
Qed.

(** A scan that selects a target has formatted the path of the
    archive. *)
Lemma select_some_format e it (l : list string) tgt :
  select e it l = Ok (Some tgt) → ∃ path, format final_warc it = Ok path.
Proof.
  induction l as [|t l IH]; [discriminate|].
  cbn [select]. intros H. apply result_bind_ok in H as (b & Hprobe & H).
  destruct b; [|now apply IH].
  unfold probe_candidate in Hprobe.
  apply result_bind_ok in Hprobe as (domain & _ & Hprobe).
  apply result_bind_ok in Hprobe as (path & Hpath & _). eauto.
Qed.
Lemma final_formats it path :
  format final_warc it = Ok path →
  ∃ data slash, format final_data it = Ok data ∧ format data_dir_slash it = Ok slash.
Proof.
  unfold final_warc, final_data, data_dir_slash. cbn [format]. unfold item_get.
  destruct (fields it !! "data_dir") as [d|]; [|discriminate].
  destruct (fields it !! "warc_file_base") as [b|]; [|discriminate].
  intros _. cbn. eauto.
Qed.

Lemma on_net_find_target e it (w : ChooseTargetAndUpload.loop) :
  ∃ probes,
    ChooseTargetAndUpload.on_net (ChooseTargetAndUpload.find_target e it) w
    = (selected e it,
       {| ChooseTargetAndUpload.now := ChooseTargetAndUpload.now w;
          ChooseTargetAndUpload.timeouts := ChooseTargetAndUpload.timeouts w;
          ChooseTargetAndUpload.started := ChooseTargetAndUpload.started w;
          ChooseTargetAndUpload.completed := ChooseTargetAndUpload.completed w;
          ChooseTargetAndUpload.failed := ChooseTargetAndUpload.failed w;
          ChooseTargetAndUpload.net :=
            ChooseTargetAndUpload.net w
            ++ EvGet ChooseTargetAndUpload.targets_url :: probes |})
    ∧ attempts probes = 0.
Proof.
  destruct (find_target_pure e it (ChooseTargetAndUpload.net w)) as (probes & Hrun & Hcount).
  exists probes. split; [|exact Hcount].
  unfold ChooseTargetAndUpload.on_net. now rewrite Hrun.
Qed.

(** Without a selected target, [process] adds the timeout and returns:
    the time of the loop, the transfers and the items are as before. *)
Lemma process_retry e it (w : ChooseTargetAndUpload.loop) :
  (∀ tgt, selected e it ≠ Ok (Some tgt)) →
  ∃ probes,
    ChooseTargetAndUpload.process e it w
    = (Ok (),
       {| ChooseTargetAndUpload.now := ChooseTargetAndUpload.now w;
          ChooseTargetAndUpload.timeouts :=
            ChooseTargetAndUpload.timeouts w
            ++ [((ChooseTargetAndUpload.now w + ChooseTargetAndUpload.retry_sleep)%Q,
                 ChooseTargetAndUpload.CallProcess it)];
          ChooseTargetAndUpload.started := ChooseTargetAndUpload.started w;
          ChooseTargetAndUpload.completed := ChooseTargetAndUpload.completed w;
          ChooseTargetAndUpload.failed := ChooseTargetAndUpload.failed w;
          ChooseTargetAndUpload.net :=
            ChooseTargetAndUpload.net w
            ++ EvGet ChooseTargetAndUpload.targets_url :: probes |})
    ∧ attempts probes = 0.
Proof.
  intros Hnone.
  destruct (on_net_find_target e it w) as (probes & Hrun & Hcount).
  exists probes. split; [|exact Hcount].
  unfold ChooseTargetAndUpload.process. rewrite Hrun.
  destruct (selected e it) as [[tgt|]|x]; [now destruct (Hnone tgt)| |]; reflexivity.
Qed.

(** With a selected target, [process] starts the one-shot transfer of
    the two files and returns. *)
Lemma process_start e it (w : ChooseTargetAndUpload.loop) tgt :
  selected e it = Ok (Some tgt) →
  (∀ t, ChooseTargetAndUpload.launch e t = Ok ()) →
  ∃ probes tr,
    ChooseTargetAndUpload.process e it w
    = (Ok (),
       {| ChooseTargetAndUpload.now := ChooseTargetAndUpload.now w;
          ChooseTargetAndUpload.timeouts := ChooseTargetAndUpload.timeouts w;
          ChooseTargetAndUpload.started :=
            ChooseTargetAndUpload.started w ++ [(it, tr)];
          ChooseTargetAndUpload.completed := ChooseTargetAndUpload.completed w;
          ChooseTargetAndUpload.failed := ChooseTargetAndUpload.failed w;
          ChooseTargetAndUpload.net :=
            ChooseTargetAndUpload.net w
            ++ EvGet ChooseTargetAndUpload.targets_url :: probes |})
    ∧ attempts probes = 0
    ∧ ChooseTargetAndUpload.target tr = tgt
    ∧ ChooseTargetAndUpload.max_tries tr = 1.
Proof.
  intros Hsel Hlaunch.
  destruct (on_net_find_target e it w) as (probes & Hrun & Hcount).
  assert (∃ path, format final_warc it = Ok path) as [path Hpath].
  { unfold selected in Hsel. apply result_bind_ok in Hsel as (targets & _ & Hsel).
    now apply select_some_format in Hsel. }
  destruct (final_formats it path Hpath) as (data & slash & Hdata & Hslash).
  exists probes,
    {| ChooseTargetAndUpload.target := tgt;
       ChooseTargetAndUpload.sources := [path; data];
       ChooseTargetAndUpload.target_source_path := slash;
       ChooseTargetAndUpload.max_tries := 1 |}.
  split; [|split; [exact Hcount|split; reflexivity]].
  unfold ChooseTargetAndUpload.process. rewrite Hrun, Hsel.
  rewrite bind_run. unfold lift at 1. rewrite Hpath.
  rewrite bind_run. unfold lift at 1. rewrite Hdata.
  rewrite bind_run. unfold lift at 1. rewrite Hslash.
  unfold ChooseTargetAndUpload.start_transfer. now rewrite Hlaunch.
Qed.
Lemma select_rejected e it (before rest : list string) :
  (∀ t, t ∈ before → probe_candidate e it t = Ok false) →
  select e it (before ++ rest) = select e it rest.
Proof.
  induction before as [|t before IH]; intros Hall; [reflexivity|].
  rewrite <- app_comm_cons. cbn [select].
  rewrite (Hall t) by left. cbn [mbind result_bind].
  apply IH. intros t' Ht'. apply Hall. now right.
Qed.

(** Each of the four causes leaves the attempt without a selected
    target or with a transfer that starts and fails. *)
Lemma failure_cases a it :
  failure a it →
  (∀ tgt, selected (ChooseTargetAndUpload.selection a) it ≠ Ok (Some tgt))
  ∨ ((∀ t, ChooseTargetAndUpload.launch (ChooseTargetAndUpload.selection a) t = Ok ())
     ∧ ChooseTargetAndUpload.rsync_succeeds a = false).
Proof.
  intros [x Hreply | targets before t after x Hreply Hsplit Hbefore Hraise
         | targets Hreply Hnone | Hlaunch Hrsync].
  - left. intros tgt. unfold selected. now rewrite Hreply.
  - left. intros tgt. unfold selected. rewrite Hreply. cbn [mbind result_bind].
    rewrite Hsplit, select_rejected by exact Hbefore.
    cbn [select]. now rewrite Hraise.
  - left. intros tgt. unfold selected. rewrite Hreply. cbn [mbind result_bind].
    rewrite <- (app_nil_r (ChooseTargetAndUpload.shuffle _ targets)).
    now rewrite select_rejected by exact Hnone.
  - now right.
Qed.

Lemma attempt_retry a it (w : ChooseTargetAndUpload.loop) :
  (∀ tgt, selected (ChooseTargetAndUpload.selection a) it ≠ Ok (Some tgt)) →
  ∃ probes,
    ChooseTargetAndUpload.attempt a it w
    = (Ok (),
       {| ChooseTargetAndUpload.now := ChooseTargetAndUpload.now w;
          ChooseTargetAndUpload.timeouts :=
            ChooseTargetAndUpload.timeouts w
            ++ [((ChooseTargetAndUpload.now w + ChooseTargetAndUpload.retry_sleep)%Q,
                 ChooseTargetAndUpload.CallProcess it)];
          ChooseTargetAndUpload.started := ChooseTargetAndUpload.started w;
          ChooseTargetAndUpload.completed := ChooseTargetAndUpload.completed w;
          ChooseTargetAndUpload.failed := ChooseTargetAndUpload.failed w;
          ChooseTargetAndUpload.net :=
            ChooseTargetAndUpload.net w
            ++ EvGet ChooseTargetAndUpload.targets_url :: probes |})
    ∧ attempts probes = 0.
Proof.
  intros Hnone.
  destruct (process_retry _ it w Hnone) as (probes & Hrun & Hcount).
  exists probes. split; [|exact Hcount].
  unfold ChooseTargetAndUpload.attempt. rewrite Hrun.
  cbn [ChooseTargetAndUpload.started].
  now rewrite bool_decide_eq_true_2 by reflexivity.
Qed.

Lemma attempt_transfer a it (w : ChooseTargetAndUpload.loop) tgt :
  selected (ChooseTargetAndUpload.selection a) it = Ok (Some tgt) →
  (∀ t, ChooseTargetAndUpload.launch (ChooseTargetAndUpload.selection a) t = Ok ()) →
  ∃ probes tr,
    attempts probes = 0
    ∧ ChooseTargetAndUpload.target tr = tgt
    ∧ ChooseTargetAndUpload.max_tries tr = 1
    ∧ ChooseTargetAndUpload.attempt a it w
      = (Ok (),
         let later := (ChooseTargetAndUpload.now w + ChooseTargetAndUpload.duration a)%Q in
         if ChooseTargetAndUpload.rsync_succeeds a then
           {| ChooseTargetAndUpload.now := later;
              ChooseTargetAndUpload.timeouts := ChooseTargetAndUpload.timeouts w;
              ChooseTargetAndUpload.started :=
                ChooseTargetAndUpload.started w ++ [(it, tr)];
              ChooseTargetAndUpload.completed :=
                ChooseTargetAndUpload.completed w ++ [it];
              ChooseTargetAndUpload.failed := ChooseTargetAndUpload.failed w;
              ChooseTargetAndUpload.net :=
                ChooseTargetAndUpload.net w
                ++ EvGet ChooseTargetAndUpload.targets_url :: probes |}
         else
           {| ChooseTargetAndUpload.now := later;
              ChooseTargetAndUpload.timeouts :=
                ChooseTargetAndUpload.timeouts w
                ++ [((later + ChooseTargetAndUpload.retry_sleep)%Q,
                     ChooseTargetAndUpload.CallProcess it)];
              ChooseTargetAndUpload.started :=
                ChooseTargetAndUpload.started w ++ [(it, tr)];
              ChooseTargetAndUpload.completed := ChooseTargetAndUpload.completed w;
              ChooseTargetAndUpload.failed := ChooseTargetAndUpload.failed w;
              ChooseTargetAndUpload.net :=
                ChooseTargetAndUpload.net w
                ++ EvGet ChooseTargetAndUpload.targets_url :: probes |}).
Proof.
  intros Hsel Hlaunch.
  destruct (process_start _ it w tgt Hsel Hlaunch)
    as (probes & tr & Hrun & Hcount & Htgt & Htries).
  exists probes, tr. split; [exact Hcount|]. split; [exact Htgt|]. split; [exact Htries|].
  unfold ChooseTargetAndUpload.attempt. rewrite Hrun.
  cbn [ChooseTargetAndUpload.started].
  rewrite bool_decide_eq_false_2 by (rewrite length_app; cbn; lia).
  cbn zeta. destruct (ChooseTargetAndUpload.rsync_succeeds a); reflexivity.
Qed.
Lemma attempts_one_more (net probes : list event) :
  attempts probes = 0 →
  attempts (net ++ EvGet ChooseTargetAndUpload.targets_url :: probes) = attempts net + 1.
Proof.
  intros H. rewrite attempts_app. cbn [attempts].
  rewrite String.eqb_refl, H. lia.
Qed.

(** A failed attempt: no exception escapes, no item is completed or
    failed, and one timeout is added, 10 after the time at which the
    attempt ended. *)
Lemma attempt_failure a it (w : ChooseTargetAndUpload.loop) :
  failure a it →
  let run := ChooseTargetAndUpload.attempt a it w in
  run.1 = Ok ()
  ∧ ChooseTargetAndUpload.completed run.2 = ChooseTargetAndUpload.completed w
  ∧ ChooseTargetAndUpload.failed run.2 = ChooseTargetAndUpload.failed w
  ∧ ChooseTargetAndUpload.timeouts run.2
    = ChooseTargetAndUpload.timeouts w
      ++ [((ChooseTargetAndUpload.now run.2 + 10)%Q, ChooseTargetAndUpload.CallProcess it)]
  ∧ attempts (ChooseTargetAndUpload.net run.2)
    = attempts (ChooseTargetAndUpload.net w) + 1
  ∧ ((ChooseTargetAndUpload.started run.2 = ChooseTargetAndUpload.started w
      ∧ ChooseTargetAndUpload.now run.2 = ChooseTargetAndUpload.now w)
     ∨ (∃ tr,
          ChooseTargetAndUpload.started run.2
          = ChooseTargetAndUpload.started w ++ [(it, tr)]
          ∧ ChooseTargetAndUpload.max_tries tr = 1
          ∧ ChooseTargetAndUpload.now run.2
            = (ChooseTargetAndUpload.now w + ChooseTargetAndUpload.duration a)%Q
          ∧ ChooseTargetAndUpload.rsync_succeeds a = false)).
Proof.
  intros Hfail. cbn zeta.
  destruct (selected (ChooseTargetAndUpload.selection a) it) as [[tgt|]|x] eqn:Hsel.
  - assert ((∀ t, ChooseTargetAndUpload.launch (ChooseTargetAndUpload.selection a) t
                  = Ok ())
            ∧ ChooseTargetAndUpload.rsync_succeeds a = false) as [Hlaunch Hrsync].
    { destruct (failure_cases a it Hfail) as [Hnone | H]; [|exact H].
      now destruct (Hnone tgt). }
    destruct (attempt_transfer a it w tgt Hsel Hlaunch)
      as (probes & tr & Hcount & _ & Htries & Hrun).
    rewrite Hrun, Hrsync. cbn -[Qplus attempts].
    repeat split; try reflexivity.
    + now apply attempts_one_more.
    + right. exists tr. auto.
  - destruct (attempt_retry a it w) as (probes & Hrun & Hcount);
      [intros tgt; rewrite Hsel; discriminate|].
    rewrite Hrun. cbn -[Qplus attempts].
    repeat split; try reflexivity.
    + now apply attempts_one_more.
    + now left.
  - destruct (attempt_retry a it w) as (probes & Hrun & Hcount);
      [intros tgt; rewrite Hsel; discriminate|].
    rewrite Hrun. cbn -[Qplus attempts].
    repeat split; try reflexivity.
    + now apply attempts_one_more.
    + now left.
Qed.

Lemma attempt_success a it (w : ChooseTargetAndUpload.loop) :
  success a it →
  let run := ChooseTargetAndUpload.attempt a it w in
  run.1 = Ok ()
  ∧ ChooseTargetAndUpload.completed run.2 = ChooseTargetAndUpload.completed w ++ [it]
  ∧ ChooseTargetAndUpload.failed run.2 = ChooseTargetAndUpload.failed w
  ∧ ChooseTargetAndUpload.timeouts run.2 = ChooseTargetAndUpload.timeouts w
  ∧ attempts (ChooseTargetAndUpload.net run.2)
    = attempts (ChooseTargetAndUpload.net w) + 1.
Proof.
  intros ([tgt Hsel] & Hlaunch & Hrsync). cbn zeta.
  destruct (attempt_transfer a it w tgt Hsel Hlaunch)
    as (probes & tr & Hcount & _ & _ & Hrun).
  rewrite Hrun, Hrsync. cbn -[Qplus attempts].
  repeat split; try reflexivity. now apply attempts_one_more.
Qed.
Lemma fire_one (w : ChooseTargetAndUpload.loop) deadline it :
  ChooseTargetAndUpload.timeouts w = [(deadline, ChooseTargetAndUpload.CallProcess it)] →
  ∃ w1, ChooseTargetAndUpload.fire w = Some (ChooseTargetAndUpload.CallProcess it, w1)
        ∧ ChooseTargetAndUpload.timeouts w1 = []
        ∧ ChooseTargetAndUpload.completed w1 = ChooseTargetAndUpload.completed w
        ∧ ChooseTargetAndUpload.failed w1 = ChooseTargetAndUpload.failed w
        ∧ ChooseTargetAndUpload.net w1 = ChooseTargetAndUpload.net w.
Proof.
  intros H. unfold ChooseTargetAndUpload.fire. rewrite H.
  eexists. split; [reflexivity|]. cbn. auto.
Qed.

(** As long as the attempts fail, the loop holds one timeout for the
    item and runs the next attempt when it fires. *)
Lemma drive_failures it envs :
  Forall (λ a, failure a it) envs →
  ∀ (w : ChooseTargetAndUpload.loop) deadline,
    ChooseTargetAndUpload.timeouts w = [(deadline, ChooseTargetAndUpload.CallProcess it)] →
    let run := ChooseTargetAndUpload.drive envs w in
    run.1 = Ok ()
    ∧ ChooseTargetAndUpload.completed run.2 = ChooseTargetAndUpload.completed w
    ∧ ChooseTargetAndUpload.failed run.2 = ChooseTargetAndUpload.failed w
    ∧ (∃ deadline',
         ChooseTargetAndUpload.timeouts run.2
         = [(deadline', ChooseTargetAndUpload.CallProcess it)])
    ∧ attempts (ChooseTargetAndUpload.net run.2)
      = attempts (ChooseTargetAndUpload.net w) + length envs.
Proof.
  induction 1 as [|a envs Hfail _ IH]; intros w deadline Hpending; cbn zeta.
  - cbn. rewrite Nat.add_0_r. eauto 10.
  - cbn [ChooseTargetAndUpload.drive length].
    destruct (fire_one w deadline it Hpending) as (w1 & -> & Hq1 & Hc1 & Hf1 & Hn1).
    pose proof (attempt_failure a it w1 Hfail) as Hattempt. cbn zeta in Hattempt.
    destruct (ChooseTargetAndUpload.attempt a it w1) as [r w2].
    cbn [fst snd] in Hattempt.
    destruct Hattempt as (-> & Hc2 & Hf2 & Hq2 & Hn2 & _).
    rewrite Hq1 in Hq2. cbn [app] in Hq2.
    specialize (IH w2 _ Hq2). cbn zeta in IH.
    destruct IH as (Hok & Hc & Hf & Hq & Hn).
    split; [exact Hok|]. split; [congruence|]. split; [congruence|].
    split; [exact Hq|]. rewrite Hn, Hn2, Hn1. lia.
Qed.

(** After failed attempts, an attempt that succeeds completes the
    item and leaves no timeout. *)
Lemma drive_until_success it envs a :
  Forall (λ a, failure a it) envs →
  success a it →
  ∀ (w : ChooseTargetAndUpload.loop) deadline,
    ChooseTargetAndUpload.timeouts w = [(deadline, ChooseTargetAndUpload.CallProcess it)] →
    let run := ChooseTargetAndUpload.drive (envs ++ [a]) w in
    run.1 = Ok ()
    ∧ ChooseTargetAndUpload.completed run.2 = ChooseTargetAndUpload.completed w ++ [it]
    ∧ ChooseTargetAndUpload.failed run.2 = ChooseTargetAndUpload.failed w
    ∧ ChooseTargetAndUpload.timeouts run.2 = []
    ∧ attempts (ChooseTargetAndUpload.net run.2)
      = attempts (ChooseTargetAndUpload.net w) + length envs + 1.
Proof.
  intros Hfails Hsuccess.
  induction Hfails as [|b envs Hfail _ IH]; intros w deadline Hpending; cbn zeta.
  - cbn [app ChooseTargetAndUpload.drive length].
    destruct (fire_one w deadline it Hpending) as (w1 & -> & Hq1 & Hc1 & Hf1 & Hn1).
    pose proof (attempt_success a it w1 Hsuccess) as Hattempt. cbn zeta in Hattempt.
    destruct (ChooseTargetAndUpload.attempt a it w1) as [r w2].
    cbn [fst snd] in Hattempt |- *.
    destruct Hattempt as (-> & Hc2 & Hf2 & Hq2 & Hn2).
    cbn [fst snd]. rewrite Hc2, Hf2, Hq2, Hn2, Hc1, Hf1, Hq1, Hn1, Nat.add_0_r. auto.
  - rewrite <- app_comm_cons. cbn [ChooseTargetAndUpload.drive length].
    destruct (fire_one w deadline it Hpending) as (w1 & -> & Hq1 & Hc1 & Hf1 & Hn1).
    pose proof (attempt_failure b it w1 Hfail) as Hattempt. cbn zeta in Hattempt.
    destruct (ChooseTargetAndUpload.attempt b it w1) as [r w2].
    cbn [fst snd] in Hattempt.
    destruct Hattempt as (-> & Hc2 & Hf2 & Hq2 & Hn2 & _).
    rewrite Hq1 in Hq2. cbn [app] in Hq2.
    specialize (IH w2 _ Hq2). cbn zeta in IH.
    destruct IH as (Hok & Hc & Hf & Hq & Hn).
    split; [exact Hok|]. split; [congruence|]. split; [congruence|].
    split; [exact Hq|]. rewrite Hn, Hn2, Hn1. lia.
Qed.
(** ** C3 *)



(** * Further properties of the code *)

(** ** CheckIP: the schedule of the checks *)

Lemma check_ip_skip g (counter : Z) :
  (0 < counter)%Z → CheckIP.process g counter = (Ok (), (counter - 1)%Z).
Proof.
  intros H. unfold CheckIP.process.
  replace (counter <=? 0)%Z with false by (symmetry; apply Z.leb_gt; lia).
  reflexivity.
Qed.

Lemma check_ip_skips (rest : list (string → result string)) (counter : Z) :
  (Z.of_nat (length rest) ≤ counter)%Z →
  check_ip_calls rest counter
  = (repeat (Ok ()) (length rest), (counter - Z.of_nat (length rest))%Z).
Proof.
  revert counter. induction rest as [|g rest IH]; intros counter Hlen.
  - cbn. f_equal. lia.
  - cbn [check_ip_calls length repeat] in *.
    rewrite check_ip_skip by lia. rewrite IH by lia.
    f_equal. lia.
Qed.

(** X1: after a check that passed, the next ten calls return without
    resolving any name, whatever DNS would answer, and bring the
    counter back to 0: a check is made at every eleventh call. *)
Theorem check_ip_every_eleventh_call g0 (rest : list (string → result string))
    (counter : Z) :
  (counter ≤ 0)%Z →
  CheckIP.process g0 counter = (Ok (), 10%Z) →
  length rest = 10 →
  check_ip_calls (g0 :: rest) counter = (repeat (Ok ()) 11, 0%Z)
  ∧ ∀ g, (check_ip_calls (g0 :: rest ++ [g]) counter).1
         = repeat (Ok ()) 11 ++ [(CheckIP.process g 0%Z).1].
Proof.
  intros Hc Hpass Hlen.
  assert (check_ip_calls rest 10 = (repeat (Ok ()) 10, 0%Z)) as Hrest.
  { rewrite check_ip_skips by (rewrite Hlen; lia). rewrite Hlen. reflexivity. }
  split.
  - cbn [check_ip_calls]. rewrite Hpass, Hrest. reflexivity.
  - intros g. cbn [check_ip_calls app]. rewrite Hpass.
    assert (∀ l c, check_ip_calls (l ++ [g]) c
                   = ((check_ip_calls l c).1
                      ++ [(CheckIP.process g (check_ip_calls l c).2).1],
                      (CheckIP.process g (check_ip_calls l c).2).2)) as Happ.
    { induction l as [|h l IH]; intros c.
      - cbn. destruct (CheckIP.process g c). reflexivity.
      - cbn [app check_ip_calls]. destruct (CheckIP.process h c) as [r c'].
        rewrite IH. destruct (check_ip_calls l c') as [rs final]. reflexivity. }
    rewrite Happ, Hrest. reflexivity.
Qed.

Lemma check_ip_every_eleventh_call_witness :
  check_ip_calls (Dns.direct :: repeat Dns.proxied 10) 0%Z = (repeat (Ok ()) 11, 0%Z).
Proof.
  apply (check_ip_every_eleventh_call Dns.direct (repeat Dns.proxied 10) 0%Z).
  - reflexivity.
  - vm_compute. reflexivity.
  - reflexivity.
Defined.

(** X2: a call that raises was a check, and it leaves the counter as
    it was: the call for the next item checks again, there is no
    pause after a failed check. *)
Theorem check_ip_failure_keeps_counter g (counter : Z) :
  raises (CheckIP.process g counter).1 →
  (counter ≤ 0)%Z
  ∧ (CheckIP.process g counter).2 = counter
  ∧ ∀ g', check_ip_calls [g; g'] counter
          = ([(CheckIP.process g counter).1; (CheckIP.process g' counter).1],
             (CheckIP.process g' counter).2).
Proof.
  intros Hraise.
  destruct (Z.leb_spec counter 0) as [Hle|Hgt].
  - assert ((CheckIP.process g counter).2 = counter) as Hkeep.
    { unfold CheckIP.process in *.
      replace (counter <=? 0)%Z with true in * by (symmetry; now apply Z.leb_le).
      destruct (CheckIP.resolve_into g CheckIP.hosts ∅) as [ips|x]; [|reflexivity].
      cbn [mbind result_bind] in *.
      destruct (bool_decide (size ips ≠ 6)); [reflexivity | contradiction]. }
    split; [exact Hle|]. split; [exact Hkeep|].
    intros g'. cbn [check_ip_calls].
    destruct (CheckIP.process g counter) as [r c'] eqn:Hrun.
    cbn [snd] in Hkeep. subst c'.
    destruct (CheckIP.process g' counter) as [r' c'']. reflexivity.
  - rewrite check_ip_skip in Hraise by exact Hgt. contradiction.
Qed.

Lemma check_ip_failure_keeps_counter_witness :
  (CheckIP.process Dns.proxied 0%Z).2 = 0%Z.
Proof.
  apply (check_ip_failure_keeps_counter Dns.proxied 0%Z).
  vm_compute. exact I.
Defined.

(** X3: when [gethostbyname] raises for one of the six names, the
    names before it having resolved, the task raises that exception
    and the counter stays. *)
Theorem check_ip_dns_error_propagates g (counter : Z) before h after x :
  (counter ≤ 0)%Z →
  CheckIP.hosts = before ++ h :: after →
  Forall (λ h', ¬ raises (g h')) before →
  g h = Raise x →
  CheckIP.process g counter = (Raise x, counter).
Proof.
  intros Hc Hsplit Hbefore Hraise.
  assert (∀ s, CheckIP.resolve_into g (before ++ h :: after) s = Raise x) as Hres.
  { clear Hsplit.
    induction Hbefore as [|h' before Hh' _ IH]; intros s; cbn [app CheckIP.resolve_into].
    - now rewrite Hraise.
    - destruct (g h') as [ip|y]; [|now destruct Hh'].
      cbn [mbind result_bind]. apply IH. }
  unfold CheckIP.process.
  replace (counter <=? 0)%Z with true by (symmetry; now apply Z.leb_le).
  rewrite Hsplit, Hres. reflexivity.
Qed.

Lemma check_ip_dns_error_propagates_witness :
  CheckIP.process (dns_failing_for "youtube.com") 0%Z
  = (Raise (GaiError "youtube.com"), 0%Z).
Proof.
  apply (check_ip_dns_error_propagates _ 0%Z ["twitter.com"; "facebook.com"]
           "youtube.com"
           ["microsoft.com"; "icanhas.cheezburger.com"; "archiveteam.org"]).
  - reflexivity.
  - reflexivity.
  - repeat constructor; vm_compute; tauto.
  - reflexivity.
Defined.

(** ** PrepareDirectories: what a run leaves behind *)

(** The run of the task, given the outcome of its file system calls. *)
Lemma prepare_run prefix e (w : World) name data_dir fs1 fs2 fs3 fs4 :
  fields (item w) !! "item_name" = Some name →
  fields (item w) !! "data_dir" = Some data_dir →
  let dirname := data_dir +:+ "/" +:+ escape_item_name name in
  let base := warc_file_base prefix name (PrepareDirectories.strftime e) in
  let staged := item_set "warc_file_base" base (item_set "item_dir" dirname (item w)) in
  let events :=
    trace w ++ (if Os.isdir dirname (fs w) then [EvRmtree dirname] else [])
            ++ [EvMakedirs dirname; EvCreate (dirname +:+ "/" +:+ base +:+ ".warc.gz");
                EvCreate (dirname +:+ "/" +:+ base +:+ "_data.txt"); EvGet now_url] in
  (if Os.isdir dirname (fs w) then Os.rmtree dirname (fs w) else Ok (fs w)) = Ok fs1 →
  Os.makedirs dirname fs1 = Ok fs2 →
  Os.create_empty (dirname +:+ "/" +:+ base +:+ ".warc.gz") fs2 = Ok fs3 →
  Os.create_empty (dirname +:+ "/" +:+ base +:+ "_data.txt") fs3 = Ok fs4 →
  PrepareDirectories.process prefix e w
  = match PrepareDirectories.now_reply e with
    | Ok r =>
        if (status_code r =? 200)%Z
        then (Ok (), {| fs := fs4;
                        item := item_set "start_time" (hd "" (Py.split "." (text r))) staged;
                        trace := events |})
        else (Raise AssertionError, {| fs := fs4; item := staged; trace := events |})
    | Raise x => (Raise x, {| fs := fs4; item := staged; trace := events |})
    end.
Proof.
  intros Hname Hdir. cbn zeta. intros Hfs1 Hmk Hc1 Hc2.
  unfold PrepareDirectories.process.
  rewrite (@bind_run World), (read_item_run "item_name"). unfold item_get at 1. rewrite Hname.
  cbn [of_option]. cbv beta iota zeta.
  cbv beta iota zeta. rewrite (@bind_run World), (read_item_run "data_dir"). unfold item_get at 1. rewrite Hdir.
  cbn [of_option Py.join].
  set (dirname := data_dir +:+ "/" +:+ escape_item_name name) in *.
  set (base := warc_file_base prefix name (PrepareDirectories.strftime e)) in *.
  cbv beta iota zeta. rewrite (@bind_run World). unfold test_isdir at 1.
  cbv beta iota zeta. rewrite (@bind_run World).
  assert ((if Os.isdir dirname (fs w)
           then syscall (EvRmtree dirname) (Os.rmtree dirname)
           else mret ()) w
          = (Ok (), {| fs := fs1; item := item w;
                       trace := trace w ++ (if Os.isdir dirname (fs w)
                                            then [EvRmtree dirname] else []) |}))
    as ->.
  { destruct (Os.isdir dirname (fs w)).
    - now apply syscall_run.
    - injection Hfs1 as <-. rewrite app_nil_r. now destruct w. }
  cbv beta iota zeta. rewrite (@bind_run World), (syscall_run _ _ _ fs2) by exact Hmk.
  cbv beta iota zeta. rewrite (@bind_run World). unfold write_item at 1.
  cbv beta iota zeta. rewrite (@bind_run World). unfold write_item at 1.
  cbn [fs item trace].
  cbv beta iota zeta. rewrite (@bind_run World), fmt_run. cbn [item]. unfold placeholder_warc.
  rewrite (format_staged _ _ dirname base)
    by (cbn [item_set fields]; now simplify_map_eq).
  rewrite append_empty_r.
  cbv beta iota zeta. rewrite (@bind_run World), (syscall_run _ _ _ fs3) by exact Hc1.
  cbv beta iota zeta. rewrite (@bind_run World), fmt_run. cbn [item]. unfold staged_data.
  rewrite (format_staged _ _ dirname base)
    by (cbn [item_set fields]; now simplify_map_eq).
  rewrite append_empty_r.
  cbv beta iota zeta. rewrite (@bind_run World), (syscall_run _ _ _ fs4) by exact Hc2.
  cbv beta iota zeta. rewrite (@bind_run World). unfold request at 1. cbn [fs item trace].
  rewrite <- !app_assoc. cbn [app].
  destruct (PrepareDirectories.now_reply e) as [r|x]; [|reflexivity].
  cbv beta iota zeta. rewrite (@bind_run World).
  destruct (status_code r =? 200)%Z; reflexivity.
Qed.

Lemma under_in_ancestors (d p : string) :
  under d p = true → d ≠ "" → d ∈ ancestors p.
Proof.
  unfold under, ancestors.
  assert (∀ acc, String.prefix (d +:+ "/") p = true → acc +:+ d ≠ "" →
                 (acc +:+ d) ∈ ancestors_from acc p) as H.
  { revert p. induction d as [|a d IH]; intros [|c p] acc Hpre Hne; try discriminate.
    - change ("" +:+ "/") with "/" in Hpre. cbn [String.prefix] in Hpre.
      destruct (ascii_dec "/" c) as [<-|]; [|discriminate].
      rewrite append_empty_r in *. cbn [ancestors_from].
      rewrite Ascii.eqb_refl.
      replace (String.eqb acc "") with false
        by (symmetry; now apply String.eqb_neq).
      cbn. left.
    - rewrite append_cons in Hpre. cbn [String.prefix] in Hpre.
      destruct (ascii_dec a c) as [<-|]; [|discriminate].
      cbn [ancestors_from]. apply elem_of_app. right.
      replace (acc +:+ String a d) with ((acc +:+ String a "") +:+ d)
        by (now rewrite append_assoc).
      apply IH; [exact Hpre|].
      rewrite append_assoc. exact Hne. }
  intros Hpre Hne. apply (H "" Hpre Hne).
Qed.



Lemma split_head (sep : ascii) (s : string) :
  ∃ h t, Py.split sep s = h :: t
         ∧ Py.contains sep h = false
         ∧ ((t = [] ∧ s = h) ∨ (∃ rest, s = h +:+ String sep rest)).
Proof.
  induction s as [|c s IH].
  - exists "", []. auto.
  - cbn [Py.split]. destruct IH as (h & t & Hsplit & Hh & Hcases).
    destruct (Ascii.eqb c sep) eqn:E.
    + apply Ascii.eqb_eq in E as ->.
      exists "", (Py.split sep s). split; [reflexivity|]. split; [reflexivity|].
      right. exists s. reflexivity.
    + rewrite Hsplit. exists (String c h), t. split; [reflexivity|]. split.
      * cbn [Py.contains]. now rewrite Ascii.eqb_sym, E, Hh.
      * destruct Hcases as [[-> ->] | [rest ->]]; [left; auto|].
        right. exists rest. reflexivity.
Qed.

(** X5: the [start_time] a run records is the text of the time
    service up to its first [.]: it contains no [.], and the text is
    [start_time] itself or [start_time] followed by [.] and more. *)
Theorem start_time_is_integral_part prefix e (w : World) :
  (PrepareDirectories.process prefix e w).1 = Ok () →
  ∃ r st,
    PrepareDirectories.now_reply e = Ok r
    ∧ status_code r = 200%Z
    ∧ fields (item (PrepareDirectories.process prefix e w).2) !! "start_time" = Some st
    ∧ Py.contains "." st = false
    ∧ (text r = st ∨ ∃ rest, text r = st +:+ "." +:+ rest).
Proof.
  intros Hok.
  destruct (PrepareDirectories.process prefix e w) as [res w'] eqn:Hp.
  cbn [fst snd] in *. subst res.
  apply prepare_ok in Hp
    as (name & data_dir & fs1 & fs2 & fs3 & fs4 & r & Hname & Hdir & Hrun).
  cbn zeta in Hrun.
  destruct Hrun as (_ & _ & _ & _ & Hreply & Hstatus & _ & Hitem).
  destruct (split_head "." (text r)) as (h & t & Hsplit & Hh & Hcases).
  exists r, h. split; [exact Hreply|]. split; [exact Hstatus|]. split.
  - rewrite Hitem, Hsplit. cbn [item_set fields hd]. now simplify_map_eq.
  - split; [exact Hh|].
    destruct Hcases as [[_ ->] | [rest ->]]; [now left|]. right. now exists rest.
Qed.

Lemma start_time_is_integral_part_witness :
  ∃ r st,
    PrepareDirectories.now_reply Scenario.stage_env = Ok r
    ∧ status_code r = 200%Z
    ∧ fields (item (PrepareDirectories.process "github" Scenario.stage_env
                      Scenario.world0).2) !! "start_time" = Some st
    ∧ Py.contains "." st = false
    ∧ (text r = st ∨ ∃ rest, text r = st +:+ "." +:+ rest).
Proof.
  apply (start_time_is_integral_part "github" Scenario.stage_env Scenario.world0).
  vm_compute. reflexivity.
Defined.

(** X6: the time service is asked last.  When it raises or answers
    with a status other than 200, the task raises ([AssertionError] for
    the status), and the staging is done all the same: the file system
    and the effects are those of a run in which the service answers,
    and the item has [item_dir] and [warc_file_base]; only
    [start_time] is not recorded. *)
Theorem clock_failure_after_staging prefix e e' (w : World) :
  PrepareDirectories.strftime e' = PrepareDirectories.strftime e →
  (PrepareDirectories.process prefix e' w).1 = Ok () →
  (∀ r, PrepareDirectories.now_reply e = Ok r → status_code r ≠ 200%Z) →
  let run := PrepareDirectories.process prefix e w in
  let good := PrepareDirectories.process prefix e' w in
  raises run.1
  ∧ (∀ r, PrepareDirectories.now_reply e = Ok r → run.1 = Raise AssertionError)
  ∧ fs run.2 = fs good.2
  ∧ trace run.2 = trace good.2
  ∧ fields (item run.2) !! "start_time" = fields (item w) !! "start_time"
  ∧ ∃ st, item good.2 = item_set "start_time" st (item run.2).
Proof.
  intros Hts Hok Hfail. cbn zeta.
  destruct (PrepareDirectories.process prefix e' w) as [res w'] eqn:Hp.
  cbn [fst snd] in *. subst res.
  pose proof Hp as Hsteps.
  apply prepare_ok in Hsteps
    as (name & data_dir & fs1 & fs2 & fs3 & fs4 & r' & Hname & Hdir & Hrun).
  cbn zeta in Hrun.
  destruct Hrun as (Hfs1 & Hmk & Hc1 & Hc2 & Hreply' & Hstatus' & _ & _).
  rewrite (prepare_run prefix e' w name data_dir fs1 fs2 fs3 fs4) in Hp by assumption.
  rewrite Hreply' in Hp. apply Z.eqb_eq in Hstatus'. rewrite Hstatus' in Hp.
  injection Hp as <-.
  rewrite Hts in *.
  rewrite (prepare_run prefix e w name data_dir fs1 fs2 fs3 fs4) by assumption.
  destruct (PrepareDirectories.now_reply e) as [r|x] eqn:Hreply.
  - specialize (Hfail r eq_refl). apply Z.eqb_neq in Hfail. rewrite Hfail.
    cbn [fst snd fs trace item].
    split; [exact I|]. split; [intros r0 _; reflexivity|].
    split; [reflexivity|]. split; [reflexivity|].
    split; [cbn [item_set fields]; now simplify_map_eq | eauto].
  - cbn [fst snd fs trace item].
    split; [exact I|]. split; [intros r0 [=]|].
    split; [reflexivity|]. split; [reflexivity|].
    split; [cbn [item_set fields]; now simplify_map_eq | eauto].
Qed.

Lemma clock_failure_after_staging_witness :
  let run := PrepareDirectories.process "github" StaleScenario.clock_down
               Scenario.world0 in
  run.1 = Raise AssertionError
  ∧ fs run.2 = fs Scenario.staged.
Proof.
  cbn zeta.
  destruct (clock_failure_after_staging "github" StaleScenario.clock_down
              Scenario.stage_env Scenario.world0)
    as (_ & Hassert & Hfs & _).
  - reflexivity.
  - vm_compute. reflexivity.
  - intros r [= <-]. discriminate.
  - split; [|exact Hfs]. now apply (Hassert {| status_code := 502; text := "" |}).
Defined.

(** ** MoveFiles: where the bytes go *)

Lemma append_suffix_eq (a b x y : string) :
  String.length a = String.length b → x +:+ a = y +:+ b → x = y ∧ a = b.
Proof.
  intros Hlen. revert y. induction x as [|c x IH]; intros [|c' y] Heq.
  - auto.
  - exfalso. change ("" +:+ a) with a in Heq. subst a.
    rewrite append_cons in Hlen. cbn [String.length] in Hlen.
    rewrite length_append in Hlen. lia.
  - exfalso. change ("" +:+ b) with b in Heq. subst b.
    rewrite append_cons in Hlen. cbn [String.length] in Hlen.
    rewrite length_append in Hlen. lia.
  - rewrite !append_cons in Heq. injection Heq as -> Heq.
    destruct (IH y Heq) as [-> ->]. auto.
Qed.

(** A path that ends in [.warc.zst] is not one that ends in [_data.txt]. *)
Lemma archive_is_not_sidecar (x y : string) :
  x +:+ ".warc.zst" ≠ y +:+ "_data.txt".
Proof.
  intros Heq. apply append_suffix_eq in Heq as [_ Heq]; [discriminate | reflexivity].
Qed.

Lemma format_final_warc_inv it p :
  format final_warc it = Ok p →
  ∃ dd b pr i,
    fields it !! "data_dir" = Some dd
    ∧ fields it !! "warc_file_base" = Some b
    ∧ fields it !! "dict_project" = Some pr
    ∧ fields it !! "dict_id" = Some i
    ∧ p = dd +:+ "/" +:+ b +:+ "." +:+ pr +:+ "." +:+ i +:+ ".warc.zst".
Proof.
  unfold final_warc. cbn [format]. unfold item_get.
  destruct (fields it !! "data_dir") as [dd|]; [|discriminate].
  destruct (fields it !! "warc_file_base") as [b|]; [|discriminate].
  destruct (fields it !! "dict_project") as [pr|]; [|discriminate].
  destruct (fields it !! "dict_id") as [i|]; [|discriminate].
  cbn. intros [= <-]. exists dd, b, pr, i. auto 10.
Qed.

Lemma format_final_data_inv it p :
  format final_data it = Ok p →
  ∃ dd b,
    fields it !! "data_dir" = Some dd
    ∧ fields it !! "warc_file_base" = Some b
    ∧ p = dd +:+ "/" +:+ b +:+ "_data.txt".
Proof.
  unfold final_data. cbn [format]. unfold item_get.
  destruct (fields it !! "data_dir") as [dd|]; [|discriminate].
  destruct (fields it !! "warc_file_base") as [b|]; [|discriminate].
  cbn. intros [= <-]. eauto.
Qed.

(** The archive path and the sidecar path, written with their
    extensions last. *)
Lemma archive_path_shape (dd b pr i : string) :
  dd +:+ "/" +:+ b +:+ "." +:+ pr +:+ "." +:+ i +:+ ".warc.zst"
  = (dd +:+ "/" +:+ b +:+ "." +:+ pr +:+ "." +:+ i) +:+ ".warc.zst".
Proof. now rewrite !append_assoc. Qed.

Lemma staged_path_shape (d b ext : string) :
  d +:+ "/" +:+ b +:+ ext = (d +:+ "/" +:+ b) +:+ ext.
Proof. now rewrite !append_assoc. Qed.



(** X8: when the sidecar is missing the finalizer stops at the second
    rename with [FileNotFoundError], and the first rename is not taken
    back: the archive lies at its final path and no longer at its
    staged path (when the two differ), the directories are as before,
    so the staging directory is still there, and the only event is the
    first rename: the queue got no POST. *)
Theorem missing_sidecar_leaves_archive_moved e (w : World) d b dd pr i fs1 :
  fields (item w) !! "item_dir" = Some d →
  fields (item w) !! "warc_file_base" = Some b →
  fields (item w) !! "data_dir" = Some dd →
  fields (item w) !! "dict_project" = Some pr →
  fields (item w) !! "dict_id" = Some i →
  let src := d +:+ "/" +:+ b +:+ ".warc.zst" in
  let dst := dd +:+ "/" +:+ b +:+ "." +:+ pr +:+ "." +:+ i +:+ ".warc.zst" in
  let sidecar := d +:+ "/" +:+ b +:+ "_data.txt" in
  Os.rename src dst (fs w) = Ok fs1 →
  files (fs w) !! sidecar = None →
  sidecar ∉ dirs (fs w) →
  MoveFiles.process e w
  = (Raise (FileNotFoundError sidecar),
     {| fs := fs1; item := item w; trace := trace w ++ [EvRename src dst] |})
  ∧ (src ≠ dst → files fs1 !! src = None)
  ∧ files fs1 !! dst = files (fs w) !! src
  ∧ dirs fs1 = dirs (fs w).
Proof.
  intros Hd Hb Hdd Hpr Hi src dst sidecar Hr1 Hnone Hnodir.
  assert (format staged_warc (item w) = Ok src) as Hsrc.
  { unfold staged_warc. cbn [format]. unfold item_get. rewrite Hd, Hb. cbn.
    now rewrite append_empty_r. }
  assert (format final_warc (item w) = Ok dst) as Hdst.
  { unfold final_warc. cbn [format]. unfold item_get. rewrite Hdd, Hb, Hpr, Hi. cbn.
    now rewrite append_empty_r. }
  assert (format staged_data (item w) = Ok sidecar) as Hsrc2.
  { unfold staged_data. cbn [format]. unfold item_get. rewrite Hd, Hb. cbn.
    now rewrite append_empty_r. }
  assert (format final_data (item w) = Ok (dd +:+ "/" +:+ b +:+ "_data.txt")) as Hdst2.
  { unfold final_data. cbn [format]. unfold item_get. rewrite Hdd, Hb. cbn.
    now rewrite append_empty_r. }
  destruct (rename_ok _ _ _ _ Hr1) as (archive & Harchive & Hf1 & Hd1).
  assert (sidecar ≠ dst) as Hne1.
  { unfold sidecar, dst.
    rewrite archive_path_shape, (staged_path_shape d b "_data.txt").
    intros Heq. symmetry in Heq. now apply archive_is_not_sidecar in Heq. }
  assert (src ≠ sidecar) as Hne2.
  { unfold src, sidecar. intros Heq. do 3 apply append_inj_l in Heq. discriminate. }
  split; [|split; [|split]].
  - unfold MoveFiles.process.
    rewrite bind_run, fmt_run, Hsrc. rewrite bind_run, fmt_run, Hdst.
    rewrite bind_run, (syscall_run _ _ _ fs1) by exact Hr1.
    rewrite bind_run, fmt_run. cbn [item]. rewrite Hsrc2.
    rewrite bind_run, fmt_run. cbn [item]. rewrite Hdst2.
    rewrite bind_run.
    rewrite (syscall_raise _ _ _ (FileNotFoundError sidecar)); [reflexivity|].
    cbn [fs]. unfold Os.rename. rewrite Hf1.
    rewrite lookup_insert_ne by (intros Heq; now apply Hne1).
    rewrite lookup_delete_ne by exact Hne2. rewrite Hnone.
    rewrite Hd1. now rewrite bool_decide_eq_false_2.
  - intros Hne3. rewrite Hf1.
    rewrite lookup_insert_ne by (intros Heq; now apply Hne3).
    apply lookup_delete_eq.
  - rewrite Hf1, Harchive. apply lookup_insert_eq.
  - exact Hd1.
Qed.

Lemma missing_sidecar_leaves_archive_moved_witness :
  (MoveFiles.process Scenario.queue_accepts PartialScenario.no_sidecar).1
  = Raise (FileNotFoundError PartialScenario.sidecar).
Proof.
  assert (∃ fs1, Os.rename (Scenario.item_dir +:+ "/" +:+ Scenario.base +:+ ".warc.zst")
                   ("data" +:+ "/" +:+ Scenario.base +:+ "." +:+ "github" +:+ "." +:+ "77"
                    +:+ ".warc.zst") (fs PartialScenario.no_sidecar) = Ok fs1)
    as [fs1 Hr1] by (vm_compute; eexists; reflexivity).
  destruct (missing_sidecar_leaves_archive_moved Scenario.queue_accepts
              PartialScenario.no_sidecar Scenario.item_dir Scenario.base
              "data" "github" "77" fs1) as [Hrun _].
  - vm_compute. reflexivity.
  - vm_compute. reflexivity.
  - vm_compute. reflexivity.
  - vm_compute. reflexivity.
  - vm_compute. reflexivity.
  - exact Hr1.
  - vm_compute. reflexivity.
  - apply (bool_decide_unpack _). vm_compute. reflexivity.
  - rewrite Hrun. reflexivity.
Defined.

Lemma format_raise t it x : format t it = Raise x → ∃ k, x = KeyError k.
Proof.
  induction t as [|[s|k] t IH]; cbn [format].
  - discriminate.
  - destruct (format t it) as [rest|y]; [discriminate|].
    cbn. intros [= <-]. now apply IH.
  - unfold item_get at 1. destruct (fields it !! k) as [v|].
    + cbn. destruct (format t it) as [rest|y]; [discriminate|].
      cbn. intros [= <-]. now apply IH.
    + cbn. intros [= <-]. eauto.
Qed.

(** X9: on an item without [dict_project] or without [dict_id] (the
    fields [WgetArgs.realize] sets) the finalizer raises [KeyError]
    before it touches anything: no file is renamed, no directory is
    removed, nothing is sent. *)
Theorem finalize_needs_dictionary_fields e (w : World) :
  fields (item w) !! "dict_project" = None ∨ fields (item w) !! "dict_id" = None →
  ∃ k, MoveFiles.process e w = (Raise (KeyError k), w).
Proof.
  intros Hmissing. unfold MoveFiles.process.
  rewrite bind_run, fmt_run.
  destruct (format staged_warc (item w)) as [src|x] eqn:Hsrc.
  - rewrite bind_run, fmt_run.
    destruct (format final_warc (item w)) as [dst|x] eqn:Hdst.
    + apply format_final_warc_inv in Hdst as (dd & b & pr & i & _ & _ & Hpr & Hi & _).
      destruct Hmissing; congruence.
    + destruct (format_raise _ _ _ Hdst) as [k ->]. now exists k.
  - destruct (format_raise _ _ _ Hsrc) as [k ->]. now exists k.
Qed.

Lemma finalize_needs_dictionary_fields_witness :
  ∃ k, MoveFiles.process Scenario.queue_accepts PartialScenario.no_dictionary
       = (Raise (KeyError k), PartialScenario.no_dictionary).
Proof.
  apply (finalize_needs_dictionary_fields Scenario.queue_accepts
           PartialScenario.no_dictionary).
  left. vm_compute. reflexivity.
Defined.

(** ** MoveFiles: the identifier sent to the queue *)

Lemma split_no_occurrence (sep : ascii) (s : string) :
  Py.contains sep s = false → Py.split sep s = [s].
Proof.
  induction s as [|c s IH]; [reflexivity|].
  cbn [Py.contains Py.split]. intros H.
  apply orb_false_elim in H as [Hc Hs].
  rewrite Ascii.eqb_sym, Hc. now rewrite IH.
Qed.

Lemma split_fields_clean (sep : ascii) (s : string) :
  Forall (λ f, Py.contains sep f = false) (Py.split sep s).
Proof.
  induction s as [|c s IH]; cbn [Py.split].
  - now constructor.
  - destruct (Ascii.eqb c sep) eqn:E.
    + now constructor.
    + destruct (Py.split sep s) as [|f fs]; [now repeat constructor; cbn;
        rewrite Ascii.eqb_sym, E|].
      inversion IH as [|? ? Hf Hfs]; subst. constructor; [|exact Hfs].
      cbn [Py.contains]. now rewrite Ascii.eqb_sym, E.
Qed.

Lemma split_join (sep : ascii) (parts : list string) :
  parts ≠ [] →
  Forall (λ f, Py.contains sep f = false) parts →
  Py.split sep (Py.join (String sep "") parts) = parts.
Proof.
  induction parts as [|p rest IH]; [contradiction|].
  intros _ Hall. inversion Hall as [|? ? Hp Hrest]; subst.
  destruct rest as [|q rest].
  - now apply split_no_occurrence.
  - rewrite join_cons by discriminate.
    change (String sep "" +:+ Py.join (String sep "") (q :: rest))
      with (String sep (Py.join (String sep "") (q :: rest))).
    rewrite split_field by exact Hp.
    now rewrite IH.
Qed.

(** X10: the identifier sent to the queue reads back field by field:
    split at the colons it is [web], the start time, and the fields of
    the item's identifier from the third on (none when the identifier
    has fewer than three fields), provided the start time has no
    colon. *)
Theorem new_item_reads_back (item_name start_time : string) :
  Py.contains ":" start_time = false →
  Py.split ":" (MoveFiles.new_item item_name start_time)
  = "web" :: start_time :: drop 2 (Py.split ":" item_name).
Proof.
  intros Hst. unfold MoveFiles.new_item, Py.drop_fields.
  apply split_join; [discriminate|].
  cbn [app]. constructor; [reflexivity|]. constructor; [exact Hst|].
  apply Forall_drop, split_fields_clean.
Qed.

Lemma new_item_reads_back_witness :
  Py.split ":" (MoveFiles.new_item "web:initial:octocat/Hello-World:x" "1627646400")
  = ["web"; "1627646400"; "octocat/Hello-World"; "x"].
Proof.
  rewrite (new_item_reads_back "web:initial:octocat/Hello-World:x" "1627646400").
  - vm_compute. reflexivity.
  - vm_compute. reflexivity.
Defined.

(** X11: an identifier with fewer than three fields has nothing to
    carry over: the follow-up identifier is [web:] and the start time,
    with no value. *)
Theorem new_item_of_short_name (item_name start_time : string) :
  (length (Py.split ":" item_name) ≤ 2)%nat →
  MoveFiles.new_item item_name start_time = "web:" +:+ start_time.
Proof.
  intros Hlen. unfold MoveFiles.new_item, Py.drop_fields.
  rewrite drop_ge by exact Hlen. reflexivity.
Qed.

Lemma new_item_of_short_name_witness :
  MoveFiles.new_item "web:initial" "1627646400" = "web:1627646400".
Proof.
  apply (new_item_of_short_name "web:initial" "1627646400").
  vm_compute. lia.
Defined.

(** ** ZstdDict: what a call leaves behind *)

(** The record a call returns and the state of the class after it. *)
Lemma get_dict_ok_cache e c d :
  (ZstdDict.get_dict e c).1 = Ok d →
  ZstdDict.data (ZstdDict.get_dict e c).2 = Some d
  ∧ ZstdDict.created (ZstdDict.get_dict e c).2
    = (if ZstdDict.is_fresh e c then ZstdDict.created c else ZstdDict.time_at_update e).
Proof.
  rewrite get_dict_run. cbn zeta.
  unfold ZstdDict.return_data.
  destruct (ZstdDict.is_fresh e c).
  { cbn [fst snd]. destruct (ZstdDict.data c) as [d0|]; cbn; [|discriminate].
    intros [= ->]. auto. }
  destruct (ZstdDict.meta_reply e) as [resp|x]; [|cbn; discriminate].
  destruct (ZstdDict.raise_for_status resp) as [u|x]; [|cbn; discriminate].
  destruct (ZstdDict.body resp) as [json|x]; [|cbn; discriminate].
  destruct (ZstdDict.same_id json c) as [[|]|x]; [| |cbn; discriminate].
  - cbn [fst snd ZstdDict.data ZstdDict.created].
    destruct (ZstdDict.data c) as [d0|]; cbn; [|discriminate].
    intros [= ->]. auto.
  - rewrite download_run. cbn zeta.
    split_cases; cbn; try discriminate. intros [= <-]. auto.
Qed.

(** X12: what [get_dict] returns is what the class holds afterwards:
    after a call that returns [d], [cls.data] is [d]; [cls.created] is
    untouched when the call was answered from a fresh cache and is the
    new reading of the clock otherwise. *)
Theorem get_dict_result_is_cached e c d :
  (ZstdDict.get_dict e c).1 = Ok d →
  ZstdDict.data (ZstdDict.get_dict e c).2 = Some d
  ∧ ZstdDict.created (ZstdDict.get_dict e c).2
    = (if ZstdDict.is_fresh e c then ZstdDict.created c else ZstdDict.time_at_update e).
Proof. apply get_dict_ok_cache. Qed.

Lemma get_dict_result_is_cached_witness :
  ZstdDict.data
    (ZstdDict.get_dict (DictScenario.service 5000 "78" DictScenario.digest_of_payload)
       DictScenario.cached).2
  = Some {| ZstdDict.id := "78"; ZstdDict.dict := DictScenario.payload |}.
Proof.
  apply (get_dict_result_is_cached
           (DictScenario.service 5000 "78" DictScenario.digest_of_payload)
           DictScenario.cached).
  vm_compute. reflexivity.
Defined.

(** X13: a call of [get_dict] sends no request when the cache is
    fresh, and otherwise one request to the dictionary endpoint,
    followed by at most one request for a payload; nothing else, and
    the requests sent earlier stay in front. *)
Theorem get_dict_request_discipline e c :
  ∃ new, ZstdDict.sent (ZstdDict.get_dict e c).2 = ZstdDict.sent c ++ new
    ∧ (if ZstdDict.is_fresh e c then new = []
       else new = [EvGet ZstdDict.dictionary_url]
            ∨ ∃ url, new = [EvGet ZstdDict.dictionary_url; EvGet url]).
Proof.
  rewrite get_dict_run. cbn zeta. unfold ZstdDict.return_data.
  destruct (ZstdDict.is_fresh e c).
  { exists []. cbn [snd]. now rewrite app_nil_r. }
  destruct (ZstdDict.meta_reply e) as [resp|x]; [|cbn; eauto].
  destruct (ZstdDict.raise_for_status resp) as [u|x]; [|cbn; eauto].
  destruct (ZstdDict.body resp) as [json|x]; [|cbn; eauto].
  destruct (ZstdDict.same_id json c) as [[|]|x]; [cbn; eauto| |cbn; eauto].
  rewrite download_run. cbn zeta.
  split_cases; cbn [snd ZstdDict.sent]; rewrite <- ?app_assoc; cbn [app]; eauto.
Qed.

(** X14: two calls in a row: when a call that had to ask the service
    returned [d], a second call made less than 1800 seconds after the
    first one set [cls.created] returns the same [d], sends nothing and
    changes nothing, whatever the service would answer by then. *)
Theorem get_dict_second_call_is_free e e' c d :
  (ZstdDict.get_dict e c).1 = Ok d →
  ZstdDict.is_fresh e c = false →
  (ZstdDict.time_at_test e' - ZstdDict.time_at_update e < 1800)%Q →
  ZstdDict.get_dict e' (ZstdDict.get_dict e c).2 = (Ok d, (ZstdDict.get_dict e c).2).
Proof.
  intros Hok Hstale Hsoon.
  destruct (get_dict_ok_cache e c d Hok) as [Hdata Hcreated].
  rewrite Hstale in Hcreated.
  apply get_dict_fresh; [exact Hdata|].
  unfold ZstdDict.is_fresh. rewrite Hdata, Hcreated. now apply younger_spec.
Qed.

Lemma get_dict_second_call_is_free_witness :
  (ZstdDict.get_dict (DictScenario.service 6000 "79" DictScenario.wrong_digest)
     (ZstdDict.get_dict (DictScenario.service 5000 "78" DictScenario.digest_of_payload)
        DictScenario.cached).2).1
  = Ok {| ZstdDict.id := "78"; ZstdDict.dict := DictScenario.payload |}.
Proof.
  rewrite (get_dict_second_call_is_free
             (DictScenario.service 5000 "78" DictScenario.digest_of_payload)
             (DictScenario.service 6000 "79" DictScenario.wrong_digest)
             DictScenario.cached
             {| ZstdDict.id := "78"; ZstdDict.dict := DictScenario.payload |}).
  - reflexivity.
  - vm_compute. reflexivity.
  - vm_compute. reflexivity.
  - vm_compute. reflexivity.
Defined.

(** X15: the first call of a process, with nothing cached, asks the
    service whatever the clock reads.  The digest is taken of the bytes
    as delivered; a payload that starts with the Zstandard magic number
    is stored decompressed, any other payload as delivered; the stored
    id is the one of the reply. *)
Theorem get_dict_first_call_stores_payload e c resp json url payload i raw :
  ZstdDict.data c = None →
  ZstdDict.meta_reply e = Ok resp →
  ZstdDict.raise_for_status resp = Ok () →
  ZstdDict.body resp = Ok json →
  json !! "url" = Some url →
  json !! "id" = Some i →
  ZstdDict.payload_reply e url = Ok payload →
  ZstdDict.raise_for_status payload = Ok () →
  json !! "sha256" = Some (Hashlib.sha256_hexdigest (ZstdDict.body payload)) →
  (if bool_decide (firstn 4 (ZstdDict.body payload) = ZstdDict.zstd_magic)
   then ZstdDict.decompress e (ZstdDict.body payload)
   else Ok (ZstdDict.body payload)) = Ok raw →
  ZstdDict.get_dict e c
  = (Ok {| ZstdDict.id := i; ZstdDict.dict := raw |},
     {| ZstdDict.created := ZstdDict.time_at_update e;
        ZstdDict.data := Some {| ZstdDict.id := i; ZstdDict.dict := raw |};
        ZstdDict.sent := ZstdDict.sent c ++ [EvGet ZstdDict.dictionary_url; EvGet url] |}).
Proof.
  intros Hnone Hmeta Hstatus Hbody Hurl Hid Hpayload Hpstatus Hsha Hraw.
  rewrite get_dict_run. cbn zeta.
  unfold ZstdDict.is_fresh, ZstdDict.same_id. rewrite Hnone.
  rewrite Hmeta, Hstatus, Hbody. rewrite download_run. cbn zeta.
  unfold ZstdDict.key. rewrite Hurl, Hid, Hsha. cbn [of_option].
  rewrite Hpayload, Hpstatus, String.eqb_refl, Hraw.
  cbn [ZstdDict.sent]. now rewrite <- app_assoc.
Qed.

Lemma get_dict_first_call_stores_payload_witness :
  (ZstdDict.get_dict CompressedScenario.service ZstdDict.initial).1
  = Ok {| ZstdDict.id := "78"; ZstdDict.dict := CompressedScenario.unpacked |}.
Proof.
  rewrite (get_dict_first_call_stores_payload CompressedScenario.service ZstdDict.initial
             {| ZstdDict.status := 200;
                ZstdDict.body :=
                  Ok (DictScenario.meta "78"
                        (Hashlib.sha256_hexdigest CompressedScenario.frame)) |}
             (DictScenario.meta "78" (Hashlib.sha256_hexdigest CompressedScenario.frame))
             DictScenario.payload_url
             {| ZstdDict.status := 200; ZstdDict.body := CompressedScenario.frame |}
             "78" CompressedScenario.unpacked).
  - reflexivity.
  - reflexivity.
  - reflexivity.
  - reflexivity.
  - reflexivity.
  - vm_compute. reflexivity.
  - vm_compute. reflexivity.
  - reflexivity.
  - reflexivity.
  - vm_compute. reflexivity.
  - vm_compute. reflexivity.
Defined.

(** ** WgetArgs.realize *)

Lemma realize_run e (s : WgetArgs.state) d c1 dir fs1 name :
  ZstdDict.get_dict (WgetArgs.dict_env e) (WgetArgs.dict_cache s) = (Ok d, c1) →
  fields (item (WgetArgs.world s)) !! "item_dir" = Some dir →
  write_bytes (path_join dir "zstdict") (ZstdDict.dict d) (fs (WgetArgs.world s)) = Ok fs1 →
  fields (item (WgetArgs.world s)) !! "item_name" = Some name →
  let it1 := item_set "dict_project" "github"
               (item_set "dict_id" (ZstdDict.id d) (item (WgetArgs.world s))) in
  let tr1 := trace (WgetArgs.world s) ++ [EvCreate (path_join dir "zstdict")] in
  WgetArgs.realize e s
  = match WgetArgs.unpack3 (split_max ":" 2 name) with
    | Raise x =>
        (Raise x, {| WgetArgs.world := {| fs := fs1; item := it1; trace := tr1 |};
                     WgetArgs.dict_cache := c1 |})
    | Ok (t, cfg, v) =>
        let it2 := item_set "item_config" cfg
                     (item_set "item_value" v (item_set "item_type" t it1)) in
        let s2 := {| WgetArgs.world := {| fs := fs1; item := it2; trace := tr1 |};
                     WgetArgs.dict_cache := c1 |} in
        if String.eqb cfg "initial" || String.eqb cfg "complete"
        then (WgetArgs.realize_args
                (WgetArgs.base_args (WgetArgs.wget_at e) ++ WgetArgs.dict_args
                 ++ realize_tail e t v) it2, s2)
        else (Raise AssertionError, s2)
    end.
Proof.
  intros Hget Hdir Hwrite Hname. cbn zeta.
  unfold WgetArgs.realize. cbv zeta.
  rewrite bind_run. unfold WgetArgs.in_cache at 1. rewrite Hget.
  rewrite bind_run. unfold WgetArgs.in_world at 1, read_item at 1, item_get at 1.
  cbn [WgetArgs.world WgetArgs.dict_cache]. rewrite Hdir. cbn [of_option].
  rewrite bind_run. unfold WgetArgs.in_world at 1, syscall at 1.
  cbn [WgetArgs.world WgetArgs.dict_cache]. rewrite Hwrite.
  rewrite bind_run. unfold WgetArgs.in_world at 1, write_item at 1.
  cbn [WgetArgs.world WgetArgs.dict_cache fs item trace].
  rewrite bind_run. unfold WgetArgs.in_world at 1, write_item at 1.
  cbn [WgetArgs.world WgetArgs.dict_cache fs item trace].
  rewrite bind_run. unfold WgetArgs.in_world at 1, read_item at 1, item_get at 1.
  cbn [WgetArgs.world WgetArgs.dict_cache fs item trace item_set fields].
  rewrite lookup_insert_ne by discriminate.
  rewrite lookup_insert_ne by discriminate.
  rewrite Hname. cbn [of_option].
  rewrite bind_run. unfold lift at 1.
  destruct (WgetArgs.unpack3 (split_max ":" 2 name)) as [[[t cfg] v]|x]; [|reflexivity].
  rewrite bind_run. unfold WgetArgs.in_world at 1, write_item at 1.
  cbn [WgetArgs.world WgetArgs.dict_cache fs item trace].
  rewrite bind_run. unfold WgetArgs.in_world at 1, write_item at 1.
  cbn [WgetArgs.world WgetArgs.dict_cache fs item trace].
  rewrite bind_run. unfold WgetArgs.in_world at 1, write_item at 1.
  cbn [WgetArgs.world WgetArgs.dict_cache fs item trace].
  rewrite bind_run.
  destruct (String.eqb cfg "initial" || String.eqb cfg "complete"); [|reflexivity].
  cbn [assert mret ST_ret]. unfold WgetArgs.realize_on.
  cbn [WgetArgs.world item]. unfold realize_tail.
  destruct (String.eqb t "web").
  - rewrite <- !app_assoc. reflexivity.
  - rewrite app_nil_l. reflexivity.
Qed.

Lemma realize_ok_inv e (s : WgetArgs.state) args :
  (WgetArgs.realize e s).1 = Ok args →
  ∃ d c1 dir fs1 name,
    ZstdDict.get_dict (WgetArgs.dict_env e) (WgetArgs.dict_cache s) = (Ok d, c1)
    ∧ fields (item (WgetArgs.world s)) !! "item_dir" = Some dir
    ∧ write_bytes (path_join dir "zstdict") (ZstdDict.dict d) (fs (WgetArgs.world s))
      = Ok fs1
    ∧ fields (item (WgetArgs.world s)) !! "item_name" = Some name.
Proof.
  unfold WgetArgs.realize. cbv zeta.
  rewrite bind_run. unfold WgetArgs.in_cache at 1.
  destruct (ZstdDict.get_dict _ _) as [[d|x] c1] eqn:Hget; [|discriminate].
  rewrite bind_run. unfold WgetArgs.in_world at 1, read_item at 1, item_get at 1.
  cbn [WgetArgs.world WgetArgs.dict_cache].
  destruct (fields (item (WgetArgs.world s)) !! "item_dir") as [dir|] eqn:Hdir;
    [|discriminate].
  cbn [of_option].
  rewrite bind_run. unfold WgetArgs.in_world at 1, syscall at 1.
  cbn [WgetArgs.world WgetArgs.dict_cache].
  destruct (write_bytes _ _ _) as [fs1|x] eqn:Hwrite; [|discriminate].
  rewrite bind_run. unfold WgetArgs.in_world at 1, write_item at 1.
  cbn [WgetArgs.world WgetArgs.dict_cache fs item trace].
  rewrite bind_run. unfold WgetArgs.in_world at 1, write_item at 1.
  cbn [WgetArgs.world WgetArgs.dict_cache fs item trace].
  rewrite bind_run. unfold WgetArgs.in_world at 1, read_item at 1, item_get at 1.
  cbn [WgetArgs.world WgetArgs.dict_cache fs item trace item_set fields].
  rewrite lookup_insert_ne by discriminate.
  rewrite lookup_insert_ne by discriminate.
  destruct (fields (item (WgetArgs.world s)) !! "item_name") as [name|] eqn:Hname;
    [|discriminate].
  intros _. exists d, c1, dir, fs1, name. auto.
Qed.

(** [split(sep, n)] field by field. *)
Lemma split_max_nonempty (sep : ascii) n (s : string) : split_max sep n s ≠ [].
Proof.
  revert n. induction s as [|c s IH]; intros n; cbn; [discriminate|].
  destruct n; [discriminate|].
  destruct (Ascii.eqb c sep); [discriminate|].
  specialize (IH (S n)).
  destruct (split_max sep (S n) s); [contradiction | discriminate].
Qed.

Lemma split_max_zero (sep : ascii) (s : string) : split_max sep 0 s = [s].
Proof. destruct s; reflexivity. Qed.

Lemma split_max_field (sep : ascii) n (t s : string) :
  Py.contains sep t = false →
  split_max sep (S n) (t +:+ String sep s) = t :: split_max sep n s.
Proof.
  induction t as [|c t IH]; intros Hc.
  - change ("" +:+ String sep s) with (String sep s).
    cbn [split_max]. now rewrite Ascii.eqb_refl.
  - cbn [Py.contains] in Hc. apply orb_false_elim in Hc as [Hc Ht].
    rewrite append_cons. cbn [split_max].
    rewrite Ascii.eqb_sym, Hc. now rewrite IH.
Qed.

Lemma split_max_cons_inv (sep : ascii) n (s f g : string) rest :
  split_max sep (S n) s = f :: g :: rest →
  ∃ s', s = f +:+ String sep s'
        ∧ Py.contains sep f = false
        ∧ split_max sep n s' = g :: rest.
Proof.
  revert f. induction s as [|c s IH]; intros f; [discriminate|].
  cbn [split_max]. destruct (Ascii.eqb c sep) eqn:E.
  - apply Ascii.eqb_eq in E as ->. intros [= <- H]. exists s. auto.
  - destruct (split_max sep (S n) s) as [|f' fs] eqn:Hs; [discriminate|].
    intros [= <- ->].
    destruct (IH f' eq_refl) as (s' & -> & Hclean & Hrest).
    exists s'. rewrite append_cons. split; [reflexivity|]. split; [|exact Hrest].
    cbn [Py.contains]. now rewrite Ascii.eqb_sym, E.
Qed.

Lemma split_max_length (sep : ascii) n (s : string) :
  length (split_max sep n s) = Nat.min (S n) (length (Py.split sep s)).
Proof.
  revert n. induction s as [|c s IH]; intros n; [now destruct n|].
  pose proof (split_nonempty sep (String c s)) as Hne.
  cbn [split_max Py.split]. destruct n as [|n].
  - cbn [length]. cbn [Py.split] in Hne.
    destruct (if Ascii.eqb c sep then _ else _); [contradiction|]. reflexivity.
  - destruct (Ascii.eqb c sep).
    + cbn [length]. now rewrite IH.
    + specialize (IH (S n)).
      pose proof (split_max_nonempty sep (S n) s) as H1.
      pose proof (split_nonempty sep s) as H2.
      destruct (split_max sep (S n) s); [contradiction|].
      destruct (Py.split sep s); [contradiction|].
      exact IH.
Qed.

(** The three names of [item_name.split(':', 2)]. *)
Lemma unpack3_split_inv (name t cfg v : string) :
  WgetArgs.unpack3 (split_max ":" 2 name) = Ok (t, cfg, v) →
  name = t +:+ ":" +:+ cfg +:+ ":" +:+ v
  ∧ Py.contains ":" t = false ∧ Py.contains ":" cfg = false.
Proof.
  destruct (split_max ":" 2 name) as [|a [|b [|c [|]]]] eqn:Hs; try discriminate.
  intros [= -> -> ->].
  apply split_max_cons_inv in Hs as (s1 & -> & Ht & Hs).
  apply split_max_cons_inv in Hs as (s2 & -> & Hcfg & Hs).
  rewrite split_max_zero in Hs. injection Hs as ->. auto.
Qed.

Lemma unpack3_split (t cfg v : string) :
  Py.contains ":" t = false → Py.contains ":" cfg = false →
  WgetArgs.unpack3 (split_max ":" 2 (t +:+ ":" +:+ cfg +:+ ":" +:+ v)) = Ok (t, cfg, v).
Proof.
  intros Ht Hcfg.
  change (":" +:+ cfg +:+ ":" +:+ v) with (String ":" (cfg +:+ String ":" v)).
  rewrite split_max_field by exact Ht.
  rewrite split_max_field by exact Hcfg.
  now rewrite split_max_zero.
Qed.

Lemma config_accepted (cfg : string) :
  String.eqb cfg "initial" || String.eqb cfg "complete" = true
  ↔ cfg = "initial" ∨ cfg = "complete".
Proof.
  rewrite orb_true_iff, !String.eqb_eq. tauto.
Qed.

(** X16: a call of [realize] that returns has read the identifier as
    [type:config:value], cut at the first two colons only (the value
    keeps its colons), with a config of [initial] or [complete]; it
    leaves these three in the item beside [dict_id] and
    [dict_project = github], has written the dictionary [get_dict]
    returned to [item_dir/zstdict], and has touched nothing else of
    the world. *)
Theorem realize_reads_the_identifier e (s : WgetArgs.state) args :
  (WgetArgs.realize e s).1 = Ok args →
  let s' := (WgetArgs.realize e s).2 in
  ∃ d dir t cfg v,
    (ZstdDict.get_dict (WgetArgs.dict_env e) (WgetArgs.dict_cache s)).1 = Ok d
    ∧ WgetArgs.dict_cache s'
      = (ZstdDict.get_dict (WgetArgs.dict_env e) (WgetArgs.dict_cache s)).2
    ∧ fields (item (WgetArgs.world s)) !! "item_dir" = Some dir
    ∧ fields (item (WgetArgs.world s)) !! "item_name"
      = Some (t +:+ ":" +:+ cfg +:+ ":" +:+ v)
    ∧ Py.contains ":" t = false ∧ Py.contains ":" cfg = false
    ∧ (cfg = "initial" ∨ cfg = "complete")
    ∧ fields (item (WgetArgs.world s'))
      = <["item_config" := cfg]> (<["item_value" := v]> (<["item_type" := t]>
          (<["dict_project" := "github"]> (<["dict_id" := ZstdDict.id d]>
             (fields (item (WgetArgs.world s)))))))
    ∧ files (fs (WgetArgs.world s'))
      = <[path_join dir "zstdict" := ZstdDict.dict d]> (files (fs (WgetArgs.world s)))
    ∧ dirs (fs (WgetArgs.world s')) = dirs (fs (WgetArgs.world s))
    ∧ trace (WgetArgs.world s')
      = trace (WgetArgs.world s) ++ [EvCreate (path_join dir "zstdict")].
Proof.
  intros Hok. cbn zeta.
  destruct (realize_ok_inv e s args Hok) as (d & c1 & dir & fs1 & name & Hget & Hdir & Hwrite & Hname).
  revert Hok.
  rewrite (realize_run e s d c1 dir fs1 name Hget Hdir Hwrite Hname). cbn zeta.
  destruct (WgetArgs.unpack3 (split_max ":" 2 name)) as [[[t cfg] v]|x] eqn:Hsplit;
    [|discriminate].
  apply unpack3_split_inv in Hsplit as (-> & Ht & Hcfg).
  destruct (String.eqb cfg "initial" || String.eqb cfg "complete") eqn:Hconfig;
    [|discriminate].
  apply config_accepted in Hconfig.
  intros _. cbn [snd WgetArgs.world WgetArgs.dict_cache fs item trace item_set fields].
  exists d, dir, t, cfg, v. rewrite Hget. cbn [fst snd].
  unfold write_bytes in Hwrite.
  repeat case_bool_decide; try discriminate.
  destruct (parent_exists _ _); [|discriminate].
  injection Hwrite as <-. cbn [files dirs].
  auto 12.
Qed.

Lemma realize_reads_the_identifier_witness :
  fields (item (WgetArgs.world
    (WgetArgs.realize FetchScenario.env0
       (FetchScenario.named "web:complete:octocat/Hello-World:tree")).2))
    !! "item_value" = Some "octocat/Hello-World:tree".
Proof.
  assert (∃ args, (WgetArgs.realize FetchScenario.env0
            (FetchScenario.named "web:complete:octocat/Hello-World:tree")).1 = Ok args)
    as [args Hok] by (vm_compute; eexists; reflexivity).
  destruct (realize_reads_the_identifier FetchScenario.env0
              (FetchScenario.named "web:complete:octocat/Hello-World:tree") args Hok)
    as (d & dir & t & cfg & v & _ & _ & _ & Hname & Ht & Hcfg & _ & Hfields & _).
  rewrite Hfields.
  rewrite lookup_insert_ne by discriminate. rewrite lookup_insert_eq.
  assert (WgetArgs.unpack3 (split_max ":" 2 "web:complete:octocat/Hello-World:tree")
          = Ok (t, cfg, v)) as Hparse.
  { replace "web:complete:octocat/Hello-World:tree"
      with (t +:+ ":" +:+ cfg +:+ ":" +:+ v).
    - now apply unpack3_split.
    - vm_compute in Hname. now injection Hname. }
  vm_compute in Hparse. injection Hparse as <- <- <-. reflexivity.
Defined.

Lemma realize_args_app (a b : list (list piece)) it :
  WgetArgs.realize_args (a ++ b) it
  = (x ← WgetArgs.realize_args a it; y ← WgetArgs.realize_args b it; Ok (x ++ y)).
Proof.
  induction a as [|p a IH]; cbn [app WgetArgs.realize_args].
  - destruct (WgetArgs.realize_args b it); reflexivity.
  - destruct (format p it) as [s|x]; [|reflexivity]. cbn [mbind result_bind].
    rewrite IH. destruct (WgetArgs.realize_args a it) as [l|x]; [|reflexivity].
    cbn [mbind result_bind].
    destruct (WgetArgs.realize_args b it); reflexivity.
Qed.

Lemma realize_args_plain (l : list string) it :
  WgetArgs.realize_args (map WgetArgs.plain l) it = Ok l.
Proof.
  induction l as [|s l IH]; [reflexivity|].
  cbn [map WgetArgs.realize_args WgetArgs.plain format mbind result_bind].
  rewrite IH. cbn [mbind result_bind]. now rewrite append_empty_r.
Qed.

(** X17: the argument list [realize] returns is the fixed options,
    formatted against the item, followed for an item of type [web] by
    the header naming the repository and the URL
    [https://github.com/value], and then by the bind address when one
    is configured.  For any other type the list carries no URL. *)
Theorem realize_arguments e (s : WgetArgs.state) args :
  (WgetArgs.realize e s).1 = Ok args →
  ∃ t cfg v fixed,
    fields (item (WgetArgs.world s)) !! "item_name"
    = Some (t +:+ ":" +:+ cfg +:+ ":" +:+ v)
    ∧ Py.contains ":" t = false ∧ Py.contains ":" cfg = false
    ∧ WgetArgs.realize_args (WgetArgs.base_args (WgetArgs.wget_at e) ++ WgetArgs.dict_args)
        (item (WgetArgs.world (WgetArgs.realize e s).2)) = Ok fixed
    ∧ args = fixed
             ++ (if String.eqb t "web"
                 then ["--warc-header"; "github-repo-web: " +:+ v;
                       "https://github.com/" +:+ v]
                 else [])
             ++ match WgetArgs.bind_address e with
                | Some a => ["--bind-address"; a]
                | None => []
                end.
Proof.
  intros Hok.
  destruct (realize_ok_inv e s args Hok)
    as (d & c1 & dir & fs1 & name & Hget & Hdir & Hwrite & Hname).
  revert Hok.
  rewrite (realize_run e s d c1 dir fs1 name Hget Hdir Hwrite Hname). cbn zeta.
  destruct (WgetArgs.unpack3 (split_max ":" 2 name)) as [[[t cfg] v]|x] eqn:Hsplit;
    [|discriminate].
  apply unpack3_split_inv in Hsplit as (-> & Ht & Hcfg).
  destruct (String.eqb cfg "initial" || String.eqb cfg "complete"); [|discriminate].
  cbn [fst snd WgetArgs.world item].
  rewrite app_assoc, realize_args_app.
  destruct (WgetArgs.realize_args (_ ++ WgetArgs.dict_args) _) as [fixed|x];
    [|discriminate].
  cbn [mbind result_bind].
  assert (realize_tail e t v
          = map WgetArgs.plain
              ((if String.eqb t "web"
                then ["--warc-header"; "github-repo-web: " +:+ v;
                      "https://github.com/" +:+ v]
                else [])
               ++ match WgetArgs.bind_address e with
                  | Some a => ["--bind-address"; a]
                  | None => []
                  end)) as ->.
  { unfold realize_tail, WgetArgs.web_args, WgetArgs.bind_args. rewrite map_app.
    destruct (String.eqb t "web"), (WgetArgs.bind_address e); reflexivity. }
  rewrite realize_args_plain. cbn [mbind result_bind].
  intros [= <-]. exists t, cfg, v, fixed. auto.
Qed.

Lemma realize_arguments_witness :
  ∃ args,
    (WgetArgs.realize FetchScenario.env0 FetchScenario.state0).1 = Ok args
    ∧ last args = Some "https://github.com/octocat/Hello-World".
Proof.
  assert (∃ args, (WgetArgs.realize FetchScenario.env0 FetchScenario.state0).1 = Ok args)
    as [args Hok] by (vm_compute; eexists; reflexivity).
  exists args. split; [exact Hok|].
  destruct (realize_arguments FetchScenario.env0 FetchScenario.state0 args Hok)
    as (t & cfg & v & fixed & Hname & Ht & Hcfg & _ & ->).
  assert (WgetArgs.unpack3 (split_max ":" 2 "web:initial:octocat/Hello-World")
          = Ok (t, cfg, v)) as Hparse.
  { replace "web:initial:octocat/Hello-World" with (t +:+ ":" +:+ cfg +:+ ":" +:+ v).
    - now apply unpack3_split.
    - vm_compute in Hname. now injection Hname. }
  vm_compute in Hparse. injection Hparse as <- <- <-.
  cbn [String.eqb Ascii.eqb Bool.eqb WgetArgs.bind_address FetchScenario.env0].
  rewrite app_nil_r, last_app. reflexivity.
Defined.

(** X18: the identifier is looked at late.  For an identifier with
    fewer than three fields [realize] raises [ValueError] at the
    unpacking, and by then the dictionary has been asked for, written
    to [item_dir/zstdict] and recorded in the item as [dict_id] and
    [dict_project]; [item_type], [item_value] and [item_config] are not
    set. *)
Theorem realize_short_identifier e (s : WgetArgs.state) d c1 dir fs1 name :
  ZstdDict.get_dict (WgetArgs.dict_env e) (WgetArgs.dict_cache s) = (Ok d, c1) →
  fields (item (WgetArgs.world s)) !! "item_dir" = Some dir →
  write_bytes (path_join dir "zstdict") (ZstdDict.dict d) (fs (WgetArgs.world s)) = Ok fs1 →
  fields (item (WgetArgs.world s)) !! "item_name" = Some name →
  (length (Py.split ":" name) < 3)%nat →
  WgetArgs.realize e s
  = (Raise (ValueError "not enough values to unpack"),
     {| WgetArgs.world :=
          {| fs := fs1;
             item := item_set "dict_project" "github"
                       (item_set "dict_id" (ZstdDict.id d) (item (WgetArgs.world s)));
             trace := trace (WgetArgs.world s) ++ [EvCreate (path_join dir "zstdict")] |};
        WgetArgs.dict_cache := c1 |}).
Proof.
  intros Hget Hdir Hwrite Hname Hshort.
  rewrite (realize_run e s d c1 dir fs1 name Hget Hdir Hwrite Hname). cbn zeta.
  pose proof (split_max_length ":" 2 name) as Hlen.
  destruct (split_max ":" 2 name) as [|a [|b [|c [|]]]]; cbn [length] in Hlen;
    try reflexivity; lia.
Qed.

Lemma realize_short_identifier_witness :
  (WgetArgs.realize FetchScenario.env0 (FetchScenario.named "web:initial")).1
  = Raise (ValueError "not enough values to unpack")
  ∧ fields (item (WgetArgs.world
      (WgetArgs.realize FetchScenario.env0 (FetchScenario.named "web:initial")).2))
      !! "dict_id" = Some "77".
Proof.
  rewrite (realize_short_identifier FetchScenario.env0 (FetchScenario.named "web:initial")
             DictScenario.cached_record DictScenario.cached Scenario.item_dir
             {| files := <[path_join Scenario.item_dir "zstdict" := [x01; x02; x03]]>
                           (files (fs Scenario.staged));
                dirs := dirs (fs Scenario.staged) |}
             "web:initial").
  - split; reflexivity.
  - vm_compute. reflexivity.
  - vm_compute. reflexivity.
  - vm_compute. reflexivity.
  - vm_compute. reflexivity.
  - vm_compute. lia.
Defined.

(** X19: an identifier whose second field is neither [initial] nor
    [complete] fails the assertion, and only after the item was
    written to: the dictionary file is there, and the item carries the
    dictionary and the three fields of the identifier. *)
Theorem realize_rejects_other_configs e (s : WgetArgs.state) d c1 dir fs1 t cfg v :
  ZstdDict.get_dict (WgetArgs.dict_env e) (WgetArgs.dict_cache s) = (Ok d, c1) →
  fields (item (WgetArgs.world s)) !! "item_dir" = Some dir →
  write_bytes (path_join dir "zstdict") (ZstdDict.dict d) (fs (WgetArgs.world s)) = Ok fs1 →
  fields (item (WgetArgs.world s)) !! "item_name" = Some (t +:+ ":" +:+ cfg +:+ ":" +:+ v) →
  Py.contains ":" t = false →
  Py.contains ":" cfg = false →
  cfg ≠ "initial" →
  cfg ≠ "complete" →
  WgetArgs.realize e s
  = (Raise AssertionError,
     {| WgetArgs.world :=
          {| fs := fs1;
             item := item_set "item_config" cfg (item_set "item_value" v
                       (item_set "item_type" t (item_set "dict_project" "github"
                          (item_set "dict_id" (ZstdDict.id d) (item (WgetArgs.world s))))));
             trace := trace (WgetArgs.world s) ++ [EvCreate (path_join dir "zstdict")] |};
        WgetArgs.dict_cache := c1 |}).
Proof.
  intros Hget Hdir Hwrite Hname Ht Hcfg Hni Hnc.
  rewrite (realize_run e s d c1 dir fs1 _ Hget Hdir Hwrite Hname). cbn zeta.
  rewrite unpack3_split by assumption.
  apply String.eqb_neq in Hni, Hnc. now rewrite Hni, Hnc.
Qed.

Lemma realize_rejects_other_configs_witness :
  (WgetArgs.realize FetchScenario.env0
     (FetchScenario.named
        (MoveFiles.new_item "web:initial:octocat/Hello-World" "1627646400"))).1
  = Raise AssertionError.
Proof.
  rewrite (realize_rejects_other_configs FetchScenario.env0
             (FetchScenario.named
                (MoveFiles.new_item "web:initial:octocat/Hello-World" "1627646400"))
             DictScenario.cached_record DictScenario.cached Scenario.item_dir
             {| files := <[path_join Scenario.item_dir "zstdict" := [x01; x02; x03]]>
                           (files (fs Scenario.staged));
                dirs := dirs (fs Scenario.staged) |}
             "web" "1627646400" "octocat/Hello-World").
  - reflexivity.
  - vm_compute. reflexivity.
  - vm_compute. reflexivity.
  - vm_compute. reflexivity.
  - vm_compute. reflexivity.
  - reflexivity.
  - reflexivity.
  - discriminate.
  - discriminate.
Defined.

(** ** ChooseTargetAndUpload: what [process] does in every case *)

(** X20: what [process] does in every case.  It completes and fails
    no item, the clock of the loop stands, and it has asked the tracker
    for the targets once.  Without a selected target it returns and
    has added the one timeout that calls [process] again 10 seconds
    later.  With a selected target it builds the one transfer, of the
    final archive and the final data file, relative to [data_dir/],
    tried once; when the inner task starts, [process] returns and the
    transfer is under way; when building or enqueuing it raises, that
    exception leaves [process], which is the only way it raises, and
    then nothing was started and no timeout was added: the item is not
    tried again. *)
Theorem process_raises_only_at_launch e it (w : ChooseTargetAndUpload.loop) :
  let run := ChooseTargetAndUpload.process e it w in
  ChooseTargetAndUpload.now run.2 = ChooseTargetAndUpload.now w
  ∧ ChooseTargetAndUpload.completed run.2 = ChooseTargetAndUpload.completed w
  ∧ ChooseTargetAndUpload.failed run.2 = ChooseTargetAndUpload.failed w
  ∧ attempts (ChooseTargetAndUpload.net run.2) = attempts (ChooseTargetAndUpload.net w) + 1
  ∧ ((∃ tgt warc data slash,
        selected e it = Ok (Some tgt)
        ∧ format final_warc it = Ok warc
        ∧ format final_data it = Ok data
        ∧ format data_dir_slash it = Ok slash
        ∧ ChooseTargetAndUpload.timeouts run.2 = ChooseTargetAndUpload.timeouts w
        ∧ let tr := {| ChooseTargetAndUpload.target := tgt;
                       ChooseTargetAndUpload.sources := [warc; data];
                       ChooseTargetAndUpload.target_source_path := slash;
                       ChooseTargetAndUpload.max_tries := 1 |} in
          match ChooseTargetAndUpload.launch e tr with
          | Ok _ =>
              run.1 = Ok ()
              ∧ ChooseTargetAndUpload.started run.2
                = ChooseTargetAndUpload.started w ++ [(it, tr)]
          | Raise x =>
              run.1 = Raise x
              ∧ ChooseTargetAndUpload.started run.2 = ChooseTargetAndUpload.started w
          end)
     ∨ ((∀ tgt, selected e it ≠ Ok (Some tgt))
        ∧ run.1 = Ok ()
        ∧ ChooseTargetAndUpload.started run.2 = ChooseTargetAndUpload.started w
        ∧ ChooseTargetAndUpload.timeouts run.2
          = ChooseTargetAndUpload.timeouts w
            ++ [((ChooseTargetAndUpload.now w + 10)%Q,
                 ChooseTargetAndUpload.CallProcess it)])).
Proof.
  cbn zeta.
  destruct (on_net_find_target e it w) as (probes & Hrun & Hcount).
  destruct (selected e it) as [[tgt|]|x] eqn:Hsel.
  - assert (∃ path, format final_warc it = Ok path) as [path Hpath].
    { unfold selected in Hsel. apply result_bind_ok in Hsel as (targets & _ & Hsel).
      now apply select_some_format in Hsel. }
    destruct (final_formats it path Hpath) as (data & slash & Hdata & Hslash).
    unfold ChooseTargetAndUpload.process. rewrite Hrun, Hpath, Hdata, Hslash.
    cbv beta iota delta [mbind ST_bind lift ChooseTargetAndUpload.start_transfer].
    destruct (ChooseTargetAndUpload.launch e _) as [u|x] eqn:Hlaunch.
    + cbn -[Qplus attempts].
      split; [reflexivity|]. split; [reflexivity|]. split; [reflexivity|].
      split; [now apply attempts_one_more|].
      left. exists tgt, path, data, slash.
      do 5 (split; [reflexivity|]).
      cbv zeta. rewrite Hlaunch. destruct u. split; reflexivity.
    + cbn -[Qplus attempts].
      split; [reflexivity|]. split; [reflexivity|]. split; [reflexivity|].
      split; [now apply attempts_one_more|].
      left. exists tgt, path, data, slash.
      do 5 (split; [reflexivity|]).
      cbv zeta. rewrite Hlaunch. split; reflexivity.
  - unfold ChooseTargetAndUpload.process. rewrite Hrun.
    cbn -[Qplus attempts].
    split; [reflexivity|]. split; [reflexivity|]. split; [reflexivity|].
    split; [now apply attempts_one_more|].
    right. split; [discriminate|]. split; [reflexivity|]. split; reflexivity.
  - unfold ChooseTargetAndUpload.process. rewrite Hrun.
    cbn -[Qplus attempts].
    split; [reflexivity|]. split; [reflexivity|]. split; [reflexivity|].
    split; [now apply attempts_one_more|].
    right. split; [discriminate|]. split; [reflexivity|]. split; reflexivity.
Qed.

Lemma process_raises_only_at_launch_witness :
  (ChooseTargetAndUpload.process ProbeScenario.no_launch
     (item UploadScenario.finalized) ProbeScenario.loop0).1
  = Raise (Exception "cannot start rsync")
  ∧ ChooseTargetAndUpload.timeouts
      (ChooseTargetAndUpload.process ProbeScenario.no_launch
         (item UploadScenario.finalized) ProbeScenario.loop0).2 = [].
Proof.
  destruct (process_raises_only_at_launch ProbeScenario.no_launch
              (item UploadScenario.finalized) ProbeScenario.loop0)
    as (_ & _ & _ & _ & [Hlaunch | Hnone]).
  - destruct Hlaunch as (tgt & warc & data & slash & _ & _ & _ & _ & Htimeouts & H).
    cbn zeta in H. cbn [ChooseTargetAndUpload.launch ProbeScenario.no_launch] in H.
    destruct H as [Hraise _]. split; [exact Hraise|].
    rewrite Htimeouts. reflexivity.
  - exfalso. destruct Hnone as [Hnone _].
    apply (Hnone "rsync://b.example:873/github/alice/").
    vm_compute. reflexivity.
Defined.

(** X21: an exception in the loop over the candidates ends the scan:
    when the candidates before [t] in the shuffled list declined and
    the probe of [t] raises, [find_target] raises that exception, the
    candidates after [t] are not asked, whether or not one of them has
    room, and [process] starts no transfer and adds the timeout. *)
Theorem probe_error_ends_the_scan e it (targets before : list string) t after x :
  ChooseTargetAndUpload.targets_reply e = Ok targets →
  ChooseTargetAndUpload.shuffle e targets = before ++ t :: after →
  (∀ t', t' ∈ before → probe_candidate e it t' = Ok false) →
  probe_candidate e it t = Raise x →
  (∀ net,
     ChooseTargetAndUpload.find_target e it net
     = (Raise x,
        net ++ [EvGet ChooseTargetAndUpload.targets_url]
            ++ probe_events e it before ++ probe_event e it t))
  ∧ ∀ w : ChooseTargetAndUpload.loop,
      let run := ChooseTargetAndUpload.process e it w in
      ChooseTargetAndUpload.started run.2 = ChooseTargetAndUpload.started w
      ∧ ChooseTargetAndUpload.timeouts run.2
        = ChooseTargetAndUpload.timeouts w
          ++ [((ChooseTargetAndUpload.now w + 10)%Q, ChooseTargetAndUpload.CallProcess it)].
Proof.
  intros Htargets Hsplit Hbefore Hraise. split.
  - intros net. rewrite (find_target_run e it targets) by exact Htargets.
    rewrite Hsplit, scan_rejected by exact Hbefore.
    rewrite (scan_cons_raise_run e it t after _ x) by exact Hraise.
    now rewrite <- !app_assoc.
  - intros w. cbn zeta.
    destruct (process_retry e it w) as (probes & Hrun & _).
    + intros tgt. unfold selected. rewrite Htargets. cbn [mbind result_bind].
      rewrite Hsplit, select_rejected by exact Hbefore.
      cbn [select]. now rewrite Hraise.
    + rewrite Hrun. split; reflexivity.
Qed.

Lemma probe_error_ends_the_scan_witness :
  (ChooseTargetAndUpload.find_target ProbeScenario.b_silent
     (item UploadScenario.finalized) []).1 = Raise RequestException
  ∧ ChooseTargetAndUpload.started
      (ChooseTargetAndUpload.process ProbeScenario.b_silent
         (item UploadScenario.finalized) ProbeScenario.loop0).2 = [].
Proof.
  destruct (probe_error_ends_the_scan ProbeScenario.b_silent
              (item UploadScenario.finalized) UploadScenario.targets
              ["rsync://c.example/github/:downloader/"]
              "rsync://b.example:873/github/:downloader/"
              ["rsync://a.example/github/:downloader/"]
              RequestException) as [Hfind Hprocess].
  - reflexivity.
  - reflexivity.
  - intros t' Ht'. apply elem_of_cons in Ht' as [-> | Ht']; [vm_compute; reflexivity | now apply elem_of_nil in Ht'].
  - vm_compute. reflexivity.
  - split.
    + now rewrite Hfind.
    + apply (Hprocess ProbeScenario.loop0).
Defined.

(** X22: the first candidate of the shuffled list that accepts is the
    one taken, also when others would accept: the candidates after it
    are not asked.  The placeholder is replaced by the entry
    [downloader] of the item's [stats], and only then: on an item
    without [stats] the call raises [KeyError] for [stats], with
    [stats] and no downloader in it [KeyError] for [downloader], in
    both cases after the accepting probe was sent. *)
Theorem first_acceptor_wins e it (targets before : list string) t after :
  ChooseTargetAndUpload.targets_reply e = Ok targets →
  ChooseTargetAndUpload.shuffle e targets = before ++ t :: after →
  (∀ t', t' ∈ before → probe_candidate e it t' = Ok false) →
  probe_candidate e it t = Ok true →
  ∀ net,
    ChooseTargetAndUpload.find_target e it net
    = (match stats it with
       | None => Raise (KeyError "stats")
       | Some st =>
           match st !! "downloader" with
           | None => Raise (KeyError "downloader")
           | Some downloader => Ok (Some (Py.replace ":downloader" downloader t))
           end
       end,
       net ++ [EvGet ChooseTargetAndUpload.targets_url]
           ++ probe_events e it (before ++ [t])).
Proof.
  intros Htargets Hsplit Hbefore Haccept net.
  rewrite (find_target_run e it targets) by exact Htargets.
  rewrite Hsplit, scan_rejected by exact Hbefore.
  rewrite (scan_cons e it t after _ true) by exact Haccept.
  rewrite probe_events_app. unfold probe_events at 3. cbn [map concat].
  rewrite app_nil_r, <- !app_assoc.
  unfold item_downloader.
  destruct (stats it) as [st|]; [|reflexivity].
  cbn [of_option mbind result_bind].
  destruct (st !! "downloader"); reflexivity.
Qed.

Lemma first_acceptor_wins_witness :
  (ChooseTargetAndUpload.find_target ProbeScenario.two_accept
     (item UploadScenario.finalized) []).1
  = Ok (Some "rsync://b.example:873/github/alice/")
  ∧ (ChooseTargetAndUpload.find_target ProbeScenario.two_accept
       ProbeScenario.no_stats []).1
    = Raise (KeyError "stats").
Proof.
  split.
  - rewrite (first_acceptor_wins ProbeScenario.two_accept
               (item UploadScenario.finalized) UploadScenario.targets
               ["rsync://c.example/github/:downloader/"]
               "rsync://b.example:873/github/:downloader/"
               ["rsync://a.example/github/:downloader/"]).
    + vm_compute. reflexivity.
    + reflexivity.
    + reflexivity.
    + intros t' Ht'.
      apply elem_of_cons in Ht' as [-> | Ht'];
        [vm_compute; reflexivity | now apply elem_of_nil in Ht'].
    + vm_compute. reflexivity.
  - rewrite (first_acceptor_wins ProbeScenario.two_accept
               ProbeScenario.no_stats UploadScenario.targets
               ["rsync://c.example/github/:downloader/"]
               "rsync://b.example:873/github/:downloader/"
               ["rsync://a.example/github/:downloader/"]).
    + reflexivity.
    + reflexivity.
    + reflexivity.
    + intros t' Ht'.
      apply elem_of_cons in Ht' as [-> | Ht'];
        [vm_compute; reflexivity | now apply elem_of_nil in Ht'].
    + vm_compute. reflexivity.
Defined.

(** ** ChooseTargetAndUpload: the domain of a target *)

Lemma span_spec (p : ascii → bool) (s a b : string) :
  ChooseTargetAndUpload.span p s = (a, b) →
  s = a +:+ b
  ∧ all_chars p a = true
  ∧ match b with "" => True | String c _ => p c = false end.
Proof.
  revert a. induction s as [|c s IH]; intros a; cbn [ChooseTargetAndUpload.span].
  - intros [= <- <-]. auto.
  - destruct (p c) eqn:Hc.
    + destruct (ChooseTargetAndUpload.span p s) as [a' b'].
      intros [= <- <-]. destruct (IH a' eq_refl) as (-> & Hall & Hb).
      rewrite append_cons. cbn [all_chars]. rewrite Hc, Hall. auto.
    + intros [= <- <-]. auto.
Qed.

Lemma span_app (p : ascii → bool) (a b : string) :
  all_chars p a = true →
  match b with "" => True | String c _ => p c = false end →
  ChooseTargetAndUpload.span p (a +:+ b) = (a, b).
Proof.
  intros Ha Hb. induction a as [|c a IH].
  - change ("" +:+ b) with b. destruct b as [|c b]; [reflexivity|].
    cbn [ChooseTargetAndUpload.span]. now rewrite Hb.
  - cbn [all_chars] in Ha. apply andb_prop in Ha as [Hc Ha].
    rewrite append_cons. cbn [ChooseTargetAndUpload.span]. rewrite Hc.
    now rewrite IH.
Qed.

Lemma substring_all (s : string) : String.substring 0 (String.length s) s = s.
Proof. induction s as [|c s IH]; [reflexivity|]. cbn. now rewrite IH. Qed.

Lemma strip_scheme_mark (rest after : string) :
  ChooseTargetAndUpload.strip_prefix "://" rest = Some after ↔ rest = "://" +:+ after.
Proof.
  unfold ChooseTargetAndUpload.strip_prefix. split.
  - destruct rest as [|c1 [|c2 [|c3 r]]]; cbn [String.prefix]; try discriminate.
    + destruct (ascii_dec ":" c1); discriminate.
    + destruct (ascii_dec ":" c1); [|discriminate].
      destruct (ascii_dec "/" c2); discriminate.
    + destruct (ascii_dec ":" c1) as [<-|]; [|discriminate].
      destruct (ascii_dec "/" c2) as [<-|]; [|discriminate].
      destruct (ascii_dec "/" c3) as [<-|]; [|discriminate].
      cbn [String.length Nat.sub String.substring].
      rewrite Nat.sub_0_r, substring_all. intros Hsome.
      assert (String.prefix "" r = true) as Hp by now destruct r.
      rewrite Hp in Hsome. injection Hsome as <-. reflexivity.
  - intros ->.
    change ("://" +:+ after) with (String ":" (String "/" (String "/" after))).
    cbn [String.prefix].
    destruct (ascii_dec ":" ":"); [|contradiction].
    destruct (ascii_dec "/" "/"); [|contradiction].
    assert (String.prefix "" after = true) as -> by now destruct after.
    cbn [String.length Nat.sub String.substring].
    now rewrite Nat.sub_0_r, substring_all.
Qed.

Lemma all_chars_not (c : ascii) (s : string) :
  all_chars (λ x, negb (Ascii.eqb x c)) s = true ↔ Py.contains c s = false.
Proof.
  induction s as [|x s IH]; [cbn; tauto|].
  cbn [all_chars Py.contains].
  rewrite andb_true_iff, orb_false_iff, IH, negb_true_iff, (Ascii.eqb_sym x c). tauto.
Qed.

Lemma all_chars_and (p q : ascii → bool) (s : string) :
  all_chars (λ x, p x && q x) s = true ↔ all_chars p s = true ∧ all_chars q s = true.
Proof.
  induction s as [|x s IH]; [cbn; tauto|].
  cbn [all_chars]. rewrite !andb_true_iff, IH. tauto.
Qed.

(** X23: the domain of a target, as the regular expression
    [^[^:]+://([^/:]+)] finds it: [extract_domain] returns [domain]
    exactly when the target is a non-empty scheme without a colon,
    then [://], then [domain], non-empty and without slash or colon,
    and then nothing or a rest that starts with a slash or a colon.
    For every other target it raises [AttributeError]. *)
Theorem extract_domain_spec (target domain : string) :
  (ChooseTargetAndUpload.extract_domain target = Ok domain
   ↔ ∃ scheme rest,
       target = scheme +:+ "://" +:+ domain +:+ rest
       ∧ scheme ≠ "" ∧ Py.contains ":" scheme = false
       ∧ domain ≠ "" ∧ Py.contains "/" domain = false ∧ Py.contains ":" domain = false
       ∧ match rest with
         | "" => True
         | String c _ => c = "/"%char ∨ c = ":"%char
         end)
  ∧ (raises (ChooseTargetAndUpload.extract_domain target) →
     ChooseTargetAndUpload.extract_domain target = Raise AttributeError).
Proof.
  split.
  - unfold ChooseTargetAndUpload.extract_domain. split.
    + destruct (ChooseTargetAndUpload.span _ target) as [scheme rest] eqn:Hscheme.
      apply span_spec in Hscheme as (-> & Hclean & _).
      destruct (String.eqb scheme "") eqn:Hempty; [discriminate|].
      destruct (ChooseTargetAndUpload.strip_prefix "://" rest) as [after|] eqn:Hmark;
        [|discriminate].
      apply strip_scheme_mark in Hmark as ->.
      destruct (ChooseTargetAndUpload.span _ after) as [dom rest'] eqn:Hdom.
      apply span_spec in Hdom as (-> & Hdclean & Hstop).
      destruct (String.eqb dom "") eqn:Hdempty; [discriminate|].
      intros [= ->].
      exists scheme, rest'.
      apply all_chars_not in Hclean.
      apply all_chars_and in Hdclean as [Hslash Hcolon].
      apply all_chars_not in Hslash. apply all_chars_not in Hcolon.
      apply String.eqb_neq in Hempty, Hdempty.
      repeat split; try assumption.
      destruct rest' as [|c r]; [exact I|].
      apply andb_false_iff in Hstop as [H|H]; apply negb_false_iff, Ascii.eqb_eq in H; auto.
    + intros (scheme & rest & -> & Hne & Hclean & Hdne & Hslash & Hcolon & Hstop).
      rewrite (span_app _ scheme ("://" +:+ domain +:+ rest)).
      2:{ now apply all_chars_not. }
      2:{ reflexivity. }
      apply String.eqb_neq in Hne. rewrite Hne.
      rewrite (proj2 (strip_scheme_mark _ (domain +:+ rest)) eq_refl).
      rewrite (span_app _ domain rest).
      2:{ apply all_chars_and. split; now apply all_chars_not. }
      2:{ destruct rest as [|c r]; [exact I|]. destruct Hstop as [-> | ->]; reflexivity. }
      apply String.eqb_neq in Hdne. now rewrite Hdne.
  - unfold ChooseTargetAndUpload.extract_domain.
    destruct (ChooseTargetAndUpload.span _ target) as [scheme rest].
    destruct (String.eqb scheme ""); [reflexivity|].
    destruct (ChooseTargetAndUpload.strip_prefix "://" rest) as [after|]; [|reflexivity].
    destruct (ChooseTargetAndUpload.span _ after) as [dom rest'].
    destruct (String.eqb dom ""); [reflexivity | contradiction].
Qed.

Lemma extract_domain_spec_witness :
  ChooseTargetAndUpload.extract_domain "rsync://b.example:873/github/:downloader/"
  = Ok "b.example".
Proof.
  apply (proj1 (extract_domain_spec "rsync://b.example:873/github/:downloader/"
                  "b.example")).
  exists "rsync", ":873/github/:downloader/".
  repeat split; try reflexivity; try discriminate. now right.
Defined.

(** ** get_hash *)



(** ** The tasks in the order of the pipeline *)

Lemma rename_not_key src dst (fs1 : FS) x :
  Os.rename src dst fs1 = Raise x → ∀ k, x ≠ KeyError k.
Proof.
  unfold Os.rename.
  destruct (files fs1 !! src); repeat case_bool_decide;
    try destruct (parent_exists fs1 dst); intros [= <-]; discriminate.
Qed.

Lemma rmtree_not_key d (fs1 : FS) x :
  Os.rmtree d fs1 = Raise x → ∀ k, x ≠ KeyError k.
Proof.
  unfold Os.rmtree, Os.isdir. repeat case_bool_decide; intros [= <-]; discriminate.
Qed.

Lemma realize_ok_fields e (s : WgetArgs.state) args :
  (WgetArgs.realize e s).1 = Ok args →
  ∃ i t cfg v,
    fields (item (WgetArgs.world (WgetArgs.realize e s).2))
    = <["item_config" := cfg]> (<["item_value" := v]> (<["item_type" := t]>
        (<["dict_project" := "github"]> (<["dict_id" := i]>
           (fields (item (WgetArgs.world s))))))).
Proof.
  intros Hok.
  destruct (realize_ok_inv e s args Hok)
    as (d & c1 & dir & fs1 & name & Hget & Hdir & Hwrite & Hname).
  revert Hok.
  rewrite (realize_run e s d c1 dir fs1 name Hget Hdir Hwrite Hname). cbn zeta.
  destruct (WgetArgs.unpack3 (split_max ":" 2 name)) as [[[t cfg] v]|x];
    [|discriminate].
  destruct (String.eqb cfg "initial" || String.eqb cfg "complete"); [|discriminate].
  intros _. cbn [snd WgetArgs.world item item_set fields]. eauto.
Qed.

Lemma insert_keeps_some (m : gmap string string) (k k' v : string) :
  is_Some (m !! k) → is_Some (<[k' := v]> m !! k).
Proof.
  intros H. destruct (decide (k' = k)) as [->|Hne].
  - rewrite lookup_insert_eq. eauto.
  - now rewrite lookup_insert_ne.
Qed.

(** X25: the tasks fit together.  An item that went through
    [PrepareDirectories] and [WgetArgs.realize] has every field the
    finalizer reads, and keeps them if the tasks between only add
    fields or change values: whatever the files and the trace are by
    then, [MoveFiles] does not raise [KeyError], unless the POST to
    the queue itself does. *)
Theorem finalizer_finds_its_fields prefix pe re (w : World) cache args (it' : Item) :
  (PrepareDirectories.process prefix pe w).1 = Ok () →
  let s := {| WgetArgs.world := (PrepareDirectories.process prefix pe w).2;
              WgetArgs.dict_cache := cache |} in
  (WgetArgs.realize re s).1 = Ok args →
  (∀ k, is_Some (fields (item (WgetArgs.world (WgetArgs.realize re s).2)) !! k) →
        is_Some (fields it' !! k)) →
  ∀ me fs' tr,
    match (MoveFiles.process me {| fs := fs'; item := it'; trace := tr |}).1 with
    | Raise (KeyError k) => MoveFiles.queue_reply me = Raise (KeyError k)
    | _ => True
    end.
Proof.
  intros Hprepare s Hrealize Hkept me fs' tr.
  enough (∀ k, (MoveFiles.process me {| fs := fs'; item := it'; trace := tr |}).1
               = Raise (KeyError k) →
               MoveFiles.queue_reply me = Raise (KeyError k)) as Hkey.
  { destruct (MoveFiles.process me _).1 as [u|x]; [exact I|].
    destruct x; try exact I. now apply Hkey. }
  intros k.
  destruct (PrepareDirectories.process prefix pe w) as [r w1] eqn:Hrun.
  cbn [fst snd] in Hprepare, s. subst r.
  destruct (prepare_ok prefix pe w w1 Hrun)
    as (name & data_dir & fs1 & fs2 & fs3 & fs4 & r & Hname & Hdata & H).
  cbn zeta in H. destruct H as (_ & _ & _ & _ & _ & _ & _ & Hitem).
  destruct (realize_ok_fields re s args Hrealize) as (i & t & cfg & v & Hfields).
  assert (∀ key, key ∈ ["item_dir"; "warc_file_base"; "data_dir"; "dict_project";
                        "dict_id"; "item_name"; "start_time"] →
                 is_Some (fields it' !! key)) as Hall.
  { intros key Hkey. apply Hkept. rewrite Hfields.
    subst s. cbn [WgetArgs.world]. rewrite Hitem. cbn [item_set fields].
    repeat (apply elem_of_cons in Hkey as [-> | Hkey];
            [first [ rewrite lookup_insert_eq; eauto
                   | do 8 (first [ rewrite lookup_insert_eq; eauto
                                 | rewrite lookup_insert_ne by discriminate ]);
                     eauto ]|]).
    now apply elem_of_nil in Hkey. }
  destruct (Hall "item_dir") as [dir Hdir]; [set_solver|].
  destruct (Hall "warc_file_base") as [base Hbase]; [set_solver|].
  destruct (Hall "data_dir") as [dd Hdd]; [set_solver|].
  destruct (Hall "dict_project") as [pr Hpr]; [set_solver|].
  destruct (Hall "dict_id") as [di Hdi]; [set_solver|].
  destruct (Hall "item_name") as [nm Hnm]; [set_solver|].
  destruct (Hall "start_time") as [st Hst]; [set_solver|].
  clear Hall Hkept Hfields Hrealize.
  unfold MoveFiles.process.
  rewrite bind_run, fmt_run. cbn [item].
  unfold staged_warc at 1. cbn [format]. unfold item_get. rewrite Hdir, Hbase.
  cbn [of_option mbind result_bind].
  rewrite bind_run, fmt_run. cbn [item].
  unfold final_warc at 1. cbn [format]. unfold item_get. rewrite Hdd, Hbase, Hpr, Hdi.
  cbn [of_option mbind result_bind].
  rewrite bind_run. unfold syscall at 1. cbn [fs].
  destruct (Os.rename _ _ fs') as [f1|x] eqn:Hr1.
  2:{ cbn [fst]. intros [= ->]. now destruct (rename_not_key _ _ _ _ Hr1 k). }
  rewrite bind_run, fmt_run. cbn [item].
  unfold staged_data at 1. cbn [format]. unfold item_get. rewrite Hdir, Hbase.
  cbn [of_option mbind result_bind].
  rewrite bind_run, fmt_run. cbn [item].
  unfold final_data at 1. cbn [format]. unfold item_get. rewrite Hdd, Hbase.
  cbn [of_option mbind result_bind].
  rewrite bind_run. unfold syscall at 1. cbn [fs].
  destruct (Os.rename _ _ f1) as [f2|x] eqn:Hr2.
  2:{ cbn [fst]. intros [= ->]. now destruct (rename_not_key _ _ _ _ Hr2 k). }
  rewrite bind_run, fmt_run. cbn [item].
  unfold staging_dir at 1. cbn [format]. unfold item_get. rewrite Hdir.
  cbn [of_option mbind result_bind].
  rewrite bind_run. unfold syscall at 1. cbn [fs].
  destruct (Os.rmtree _ f2) as [f3|x] eqn:Hrm.
  2:{ cbn [fst]. intros [= ->]. now destruct (rmtree_not_key _ _ _ Hrm k). }
  rewrite bind_run. unfold read_item at 1, item_get. cbn [item]. rewrite Hnm.
  cbn [of_option].
  rewrite bind_run. unfold read_item at 1, item_get. cbn [item]. rewrite Hst.
  cbn [of_option].
  rewrite bind_run. unfold request.
  destruct (MoveFiles.queue_reply me) as [resp|x]; cbn [fst].
  - destruct (status_code resp =? 200)%Z; cbn; discriminate.
  - now intros [= ->].
Qed.

Lemma finalizer_finds_its_fields_witness :
  match (MoveFiles.process Scenario.queue_accepts
           {| fs := Scenario.fs0;
              item := item (WgetArgs.world
                        (WgetArgs.realize FetchScenario.env0 FetchScenario.state0).2);
              trace := [] |}).1 with
  | Raise (KeyError k) => MoveFiles.queue_reply Scenario.queue_accepts = Raise (KeyError k)
  | _ => True
  end.
Proof.
  assert (∃ args, (WgetArgs.realize FetchScenario.env0 FetchScenario.state0).1 = Ok args)
    as [args Hok] by (vm_compute; eexists; reflexivity).
  apply (finalizer_finds_its_fields "github" Scenario.stage_env FetchScenario.env0
           Scenario.world0 DictScenario.cached args
           (item (WgetArgs.world
                    (WgetArgs.realize FetchScenario.env0 FetchScenario.state0).2))).
  - vm_compute. reflexivity.
  - exact Hok.
  - intros key Hsome. exact Hsome.
Defined.
